(** * build_site.py: the static-site generator of GeomechMotion/animations

    A shallow embedding of [build_site.py] and of the parts of the Python
    runtime it calls ([str] methods, [os.path.splitext], [pathlib.Path],
    [sorted]).

    Conventions of the model.
    - A Python [str] is a list of Unicode code points ([pystr]); a code
      point is an [N].
    - The rows of the Unicode character database for ASCII are fixed by
      the standard and written out here.  The rows of all other code
      points are a parameter ([unicode_db]): every theorem holds for
      whatever the database of the running interpreter says about them.
    - [os.path] is [posixpath] (separator [/]); [pathlib] is that of
      Python 3.11.
    - The file system is a tree of directories whose entries keep the
      order in which [iterdir] yields them.  Files hold text: decoding and
      encoding (UTF-8) are assumed to succeed.  Paths are lists of
      components relative to [ROOT], the directory of the script.
    - [print] calls are not modelled. *)

From Stdlib Require Import String Ascii.
From Stdlib Require Import List NArith ZArith Bool Lia.
From Stdlib Require Import Sorting.Sorted Sorting.Permutation.
From Equations Require Import Equations.
From Equations.Prop Require Import Logic.
Import ListNotations.

(** ** Python strings *)

Definition char := N.
Definition pystr := list char.

(** A literal whose characters are all ASCII. *)
Definition str (s : string) : pystr := map N_of_ascii (list_ascii_of_string s).
Arguments str s%_string.

(** The double quote, which the page templates use around attributes. *)
Definition dq : pystr := [34%N].

Definition is_ascii (c : char) : bool := (c <? 128)%N.

(** [a == b] *)
Fixpoint str_eqb (a b : pystr) : bool :=
  match a, b with
  | [], [] => true
  | x :: a', y :: b' => (x =? y)%N && str_eqb a' b'
  | _, _ => false
  end.

(** [a < b]: lexicographic on code points. *)
Fixpoint str_ltb (a b : pystr) : bool :=
  match a, b with
  | _, [] => false
  | [], _ :: _ => true
  | x :: a', y :: b' =>
      if (x <? y)%N then true
      else if (y <? x)%N then false
      else str_ltb a' b'
  end.

(** [s.startswith(pre)] *)
Fixpoint startswith (pre s : pystr) : bool :=
  match pre, s with
  | [], _ => true
  | _ :: _, [] => false
  | x :: pre', y :: s' => (x =? y)%N && startswith pre' s'
  end.

(** [sub in s] *)
Fixpoint str_in (sub s : pystr) : bool :=
  match s with
  | [] => startswith sub []
  | _ :: t => startswith sub s || str_in sub t
  end.

(** [s.replace(old, new)] for a non-empty [old]: leftmost occurrences,
    not overlapping.  [skip] counts the characters of a match that are
    still to be dropped. *)
Fixpoint replace_from (old new : pystr) (skip : nat) (s : pystr) : pystr :=
  match s with
  | [] => []
  | c :: t =>
      match skip with
      | S k => replace_from old new k t
      | O =>
          if startswith old s
          then new ++ replace_from old new (length old - 1) t
          else c :: replace_from old new 0 t
      end
  end.

Definition replace (old new s : pystr) : pystr := replace_from old new 0 s.

(** [sep.join(l)] *)
Fixpoint join (sep : pystr) (l : list pystr) : pystr :=
  match l with
  | [] => []
  | w :: ws =>
      match ws with
      | [] => w
      | _ :: _ => w ++ sep ++ join sep ws
      end
  end.

(** [s.rfind(c)] for a one-character [c]: the highest index, or [-1]. *)
Fixpoint rfind_from (s : pystr) (c : char) (i best : Z) : Z :=
  match s with
  | [] => best
  | x :: t => rfind_from t c (i + 1) (if (x =? c)%N then i else best)
  end.

Definition rfind (s : pystr) (c : char) : Z := rfind_from s c 0 (-1).

(** [s[a:b]] for [0 <= a]. *)
Definition slice (s : pystr) (a b : Z) : pystr :=
  firstn (Z.to_nat (b - a)) (skipn (Z.to_nat a) s).

Definition sep : char := 47%N.     (* / *)
Definition extsep : char := 46%N.  (* . *)

(** [os.path.splitext]: [genericpath._splitext(p, '/', None, '.')].  The
    inner loop returns the split as soon as a character other than a dot
    stands between the last separator and the last dot. *)
Definition splitext (p : pystr) : pystr * pystr :=
  let sepIndex := rfind p sep in
  let dotIndex := rfind p extsep in
  if (sepIndex <? dotIndex)%Z then
    if existsb (fun ch => negb (ch =? extsep)%N) (slice p (sepIndex + 1) dotIndex)
    then (firstn (Z.to_nat dotIndex) p, skipn (Z.to_nat dotIndex) p)
    else (p, [])
  else (p, []).

(** The loop of [slug_from_name]:
    [while "--" in base: base = base.replace("--", "-")].
    Each round shortens [base], which is why the loop ends. *)
Lemma startswith_length (old s : pystr) :
  startswith old s = true -> length old <= length s.
Proof.
  revert s. induction old as [|o old IH]; intros s E.
  - simpl. lia.
  - destruct s as [|y s]; simpl in E; [discriminate|].
    apply andb_prop in E. destruct E as [_ E]. apply IH in E. simpl. lia.
Qed.

Lemma replace_from_length (old new s : pystr) (skip : nat) :
  length new <= length old ->
  length (replace_from old new skip s) + Nat.min skip (length s) <= length s.
Proof.
  intros Hlen. revert skip. induction s as [|c t IH]; intros skip.
  - simpl. lia.
  - destruct skip as [|k]; cbn [replace_from].
    + destruct (startswith old (c :: t)) eqn:E.
      * rewrite length_app. specialize (IH (length old - 1)).
        pose proof (startswith_length _ _ E) as Hpre.
        simpl in *. lia.
      * specialize (IH 0). simpl in *. lia.
    + specialize (IH k). simpl in *. lia.
Qed.

Lemma replace_shrinks (old new s : pystr) :
  length new < length old ->
  str_in old s = true ->
  length (replace old new s) < length s.
Proof.
  intros Hlen. unfold replace. induction s as [|c t IH]; intros Hin.
  - simpl in Hin. destruct old; simpl in *; [lia | discriminate].
  - cbn [replace_from]. cbn [str_in] in Hin.
    destruct (startswith old (c :: t)) eqn:E.
    + pose proof (replace_from_length old new t (length old - 1)) as H.
      pose proof (startswith_length _ _ E) as Hpre.
      rewrite length_app. simpl in *. lia.
    + simpl in Hin. apply IH in Hin. simpl. lia.
Qed.

Equations? collapse_hyphens (base : pystr) : pystr by wf (length base) lt :=
  collapse_hyphens base with inspect (str_in (str "--") base) := {
    | exist _ true _ => collapse_hyphens (replace (str "--") (str "-") base)
    | exist _ false _ => base }.
Proof.
  apply replace_shrinks; [simpl; lia | assumption].
Qed.

(** ** The Unicode character database

    What [str.isalnum], [str.isspace], [str.lower] and [str.capitalize]
    look up for a code point outside ASCII; CPython reads it from the
    table of its Unicode version.  [db_cased] and [db_case_ignorable] are
    the two properties the Final_Sigma rule of [str.lower] consults. *)
Record unicode_db := {
  db_isalnum : char -> bool;
  db_isspace : char -> bool;
  db_tolower : char -> pystr;
  db_totitle : char -> pystr;
  db_cased : char -> bool;
  db_case_ignorable : char -> bool
}.

(** An excerpt of the database that holds the rows of the Latin-1
    Supplement (U+0080 to U+00FF), of U+0130 (capital I with dot above)
    and of U+0307 (combining dot above) as Unicode defines them; every
    other code point is treated as unassigned. *)
Definition latin1_isalnum (c : char) : bool :=
  ((c =? 170) || (c =? 178) || (c =? 179) || (c =? 181) || (c =? 185)
   || (c =? 186) || ((188 <=? c) && (c <=? 190))
   || ((192 <=? c) && (c <=? 214)) || ((216 <=? c) && (c <=? 246))
   || ((248 <=? c) && (c <=? 255)) || (c =? 304))%N.

Definition latin1_tolower (c : char) : pystr :=
  if ((192 <=? c) && (c <=? 222) && negb (c =? 215))%N then [(c + 32)%N]
  else if (c =? 304)%N then [105%N; 775%N]
  else [c].

Definition latin1_totitle (c : char) : pystr :=
  if ((224 <=? c) && (c <=? 254) && negb (c =? 247))%N then [(c - 32)%N]
  else if (c =? 181)%N then [924%N]
  else if (c =? 223)%N then [83%N; 115%N]
  else if (c =? 255)%N then [376%N]
  else [c].

Definition latin1_cased (c : char) : bool :=
  (((65 <=? c) && (c <=? 90)) || ((97 <=? c) && (c <=? 122))
   || (c =? 170) || (c =? 181) || (c =? 186)
   || ((192 <=? c) && (c <=? 255) && negb (c =? 215) && negb (c =? 247))
   || (c =? 304))%N.

Definition latin1_case_ignorable (c : char) : bool :=
  ((c =? 39) || (c =? 46) || (c =? 58) || (c =? 94) || (c =? 96)
   || (c =? 168) || (c =? 173) || (c =? 175) || (c =? 180) || (c =? 183)
   || (c =? 184) || (c =? 775))%N.

Definition latin1_db : unicode_db := {|
  db_isalnum := latin1_isalnum;
  db_isspace := fun c => ((c =? 133) || (c =? 160))%N;
  db_tolower := latin1_tolower;
  db_totitle := latin1_totitle;
  db_cased := latin1_cased;
  db_case_ignorable := latin1_case_ignorable
|}.

(** The ASCII rows, which every version of the database shares. *)
Definition ascii_isalnum (c : char) : bool :=
  (((48 <=? c) && (c <=? 57)) || ((65 <=? c) && (c <=? 90))
   || ((97 <=? c) && (c <=? 122)))%N.

(** In ASCII, white space is TAB to CR, FS to US and the space. *)
Definition ascii_isspace (c : char) : bool :=
  (((9 <=? c) && (c <=? 13)) || ((28 <=? c) && (c <=? 32)))%N.

Definition ascii_lower (c : char) : char :=
  if ((65 <=? c) && (c <=? 90))%N then (c + 32)%N else c.

Definition ascii_upper (c : char) : char :=
  if ((97 <=? c) && (c <=? 122))%N then (c - 32)%N else c.

Section PyStr.

Variable U : unicode_db.

(** [ch.isalnum()] for a one-character string. *)
Definition isalnum (c : char) : bool :=
  if is_ascii c then ascii_isalnum c else db_isalnum U c.

(** [ch.isspace()] *)
Definition isspace (c : char) : bool :=
  if is_ascii c then ascii_isspace c else db_isspace U c.

(** [_PyUnicode_ToLowerFull] and [_PyUnicode_ToTitleFull]. *)
Definition tolower_full (c : char) : pystr :=
  if is_ascii c then [ascii_lower c] else db_tolower U c.

Definition totitle_full (c : char) : pystr :=
  if is_ascii c then [ascii_upper c] else db_totitle U c.

(** [handle_capital_sigma]: U+03A3 is lowered to the final form U+03C2
    when a cased character comes before it (case-ignorable ones skipped)
    and none comes after it. *)
Fixpoint skip_ignorable (s : pystr) : pystr :=
  match s with
  | [] => []
  | c :: t => if db_case_ignorable U c then skip_ignorable t else s
  end.

Definition final_sigma (before_rev after : pystr) : bool :=
  match skip_ignorable before_rev with
  | [] => false
  | c :: _ =>
      db_cased U c &&
      match skip_ignorable after with
      | [] => true
      | d :: _ => negb (db_cased U d)
      end
  end.

Definition lower_ucs4 (before_rev : pystr) (c : char) (after : pystr) : pystr :=
  if (c =? 931)%N
  then [if final_sigma before_rev after then 962%N else 963%N]
  else tolower_full c.

Fixpoint do_lower (before_rev s : pystr) : pystr :=
  match s with
  | [] => []
  | c :: t => lower_ucs4 before_rev c t ++ do_lower (c :: before_rev) t
  end.

(** [s.lower()] *)
Definition lower (s : pystr) : pystr := do_lower [] s.

(** [s.capitalize()]: the first character in title case, the rest in
    lower case. *)
Definition capitalize (s : pystr) : pystr :=
  match s with
  | [] => []
  | c :: t => totitle_full c ++ do_lower [c] t
  end.

(** [s.split()]: the maximal runs of characters that are not white
    space.  [word] is the run being read. *)
Fixpoint split_from (word s : pystr) : list pystr :=
  match s with
  | [] => match word with [] => [] | _ :: _ => [word] end
  | c :: t =>
      if isspace c
      then match word with
           | [] => split_from [] t
           | _ :: _ => word :: split_from [] t
           end
      else split_from (word ++ [c]) t
  end.

Definition split (s : pystr) : list pystr := split_from [] s.

(** ** UTILIDADES *)

Definition slug_from_name (name : pystr) : pystr :=
  let base := fst (splitext name) in
  let base := replace (str " ") (str "-") base in
  let base :=
    join [] (map (fun ch => if isalnum ch || str_in [ch] (str "-_")
                            then [ch] else str "-") base) in
  let base := collapse_hyphens base in
  match lower base with
  | [] => str "page"
  | (_ :: _) as r => r
  end.

Definition title_from_name (name : pystr) : pystr :=
  let base := fst (splitext name) in
  let base := replace (str "-") (str " ") (replace (str "_") (str " ") base) in
  join (str " ") (map capitalize (split base)).

End PyStr.

(** ** Results and exceptions *)

Inductive exn :=
| FileNotFoundError
| NotADirectoryError
| IsADirectoryError
| FileExistsError.

Inductive result (A : Type) :=
| Ok (a : A)
| Raise (e : exn).
Arguments Ok {A} a.
Arguments Raise {A} e.

(** ** The file system *)

#[warnings="-register-all"]
Inductive node :=
| File (content : pystr)
| Dir (entries : list (pystr * node)).

(** A [pathlib.Path] below [ROOT]: its components. *)
Definition path := list pystr.

Definition child (p : path) (name : pystr) : path := p ++ [name].
Notation "p // name" := (child p name) (at level 40, left associativity).

(** [p.name] *)
Definition name (p : path) : pystr := last p [].

(** [p.parent] *)
Definition parent (p : path) : path := removelast p.

(** [p.suffix]: [i = name.rfind('.')], and [name[i:]] when
    [0 < i < len(name) - 1]. *)
Definition suffix (p : path) : pystr :=
  let i := rfind (name p) extsep in
  if ((0 <? i) && (i <? Z.of_nat (length (name p)) - 1))%Z
  then skipn (Z.to_nat i) (name p)
  else [].

Fixpoint assoc (n : pystr) (es : list (pystr * node)) : option node :=
  match es with
  | [] => None
  | (m, x) :: t => if str_eqb m n then Some x else assoc n t
  end.

(** Replaces the entry called [n], or adds it after the others. *)
Fixpoint put (n : pystr) (x : node) (es : list (pystr * node)) : list (pystr * node) :=
  match es with
  | [] => [(n, x)]
  | (m, y) :: t => if str_eqb m n then (m, x) :: t else (m, y) :: put n x t
  end.

Fixpoint lookup (fs : node) (p : path) : option node :=
  match p with
  | [] => Some fs
  | c :: p' =>
      match fs with
      | File _ => None
      | Dir es =>
          match assoc c es with
          | Some x => lookup x p'
          | None => None
          end
      end
  end.

Definition path_exists (fs : node) (p : path) : bool :=
  match lookup fs p with Some _ => true | None => false end.

Definition is_file (fs : node) (p : path) : bool :=
  match lookup fs p with Some (File _) => true | _ => false end.

Definition is_dir (fs : node) (p : path) : bool :=
  match lookup fs p with Some (Dir _) => true | _ => false end.

(** [p.iterdir()]: the entries in directory order. *)
Definition iterdir (fs : node) (p : path) : result (list path) :=
  match lookup fs p with
  | Some (Dir es) => Ok (map (fun e => p // fst e) es)
  | Some (File _) => Raise NotADirectoryError
  | None => Raise FileNotFoundError
  end.

(** [p.read_text(encoding="utf-8")].  A path that runs through a regular
    file is reported like a missing one. *)
Definition read_text (fs : node) (p : path) : result pystr :=
  match lookup fs p with
  | Some (File c) => Ok c
  | Some (Dir _) => Raise IsADirectoryError
  | None => Raise FileNotFoundError
  end.

(** [p.mkdir(parents=True, exist_ok=True)] *)
Fixpoint mkdir (fs : node) (p : path) : result node :=
  match fs with
  | File _ => match p with [] => Raise FileExistsError | _ :: _ => Raise NotADirectoryError end
  | Dir es =>
      match p with
      | [] => Ok fs
      | c :: p' =>
          match mkdir (match assoc c es with Some x => x | None => Dir [] end) p' with
          | Ok x => Ok (Dir (put c x es))
          | Raise e => Raise e
          end
      end
  end.

(** [p.write_text(content, encoding="utf-8")] *)
Fixpoint write_text (fs : node) (p : path) (content : pystr) : result node :=
  match fs with
  | File _ => Raise NotADirectoryError
  | Dir es =>
      match p with
      | [] => Raise IsADirectoryError
      | c :: p' =>
          match p' with
          | [] =>
              match assoc c es with
              | Some (Dir _) => Raise IsADirectoryError
              | _ => Ok (Dir (put c (File content) es))
              end
          | _ :: _ =>
              match assoc c es with
              | Some x =>
                  match write_text x p' content with
                  | Ok y => Ok (Dir (put c y es))
                  | Raise e => Raise e
                  end
              | None => Raise FileNotFoundError
              end
          end
      end
  end.

(** ** Code that reads and writes the file system *)

Definition M (A : Type) : Type := node -> result (A * node).

Definition ret {A} (a : A) : M A := fun fs => Ok (a, fs).

Definition bind {A B} (m : M A) (k : A -> M B) : M B :=
  fun fs => match m fs with
            | Ok (a, fs') => k a fs'
            | Raise e => Raise e
            end.

Notation "x <- m ;; k" := (bind m (fun x => k))
  (at level 61, m at next level, right associativity).
Notation "m ;; k" := (bind m (fun _ => k))
  (at level 61, right associativity).

(** An operation that only reads. *)
Definition reading {A} (f : node -> result A) : M A :=
  fun fs => match f fs with
            | Ok a => Ok (a, fs)
            | Raise e => Raise e
            end.

(** An operation that only changes the file system. *)
Definition writing (f : node -> result node) : M unit :=
  fun fs => match f fs with
            | Ok fs' => Ok (tt, fs')
            | Raise e => Raise e
            end.

(** [for x in l: body(x)] *)
Fixpoint for_each {A} (l : list A) (body : A -> M unit) : M unit :=
  match l with
  | [] => ret tt
  | x :: t => body x ;; for_each t body
  end.

(** [sorted(l, key=key)]: Python's sort is stable and compares the keys
    with [<] only, which fixes its result. *)
Fixpoint insert_by {A} (key : A -> pystr) (x : A) (l : list A) : list A :=
  match l with
  | [] => [x]
  | y :: t => if str_ltb (key y) (key x) then y :: insert_by key x t else x :: l
  end.

Definition sorted {A} (key : A -> pystr) (l : list A) : list A :=
  fold_right (insert_by key) [] l.

(** ** PATHS *)

Definition DOCS_DIR : path := [str "docs"].
Definition VIDEOS_ROOT : path := [str "assets"; str "videos"].

Definition BASE_URL : pystr := str "/animations".

Definition CATEGORIES : list (pystr * pystr) :=
  [ (str "constitutive-models", str "Constitutive Models");
    (str "plaxis", str "PLAXIS");
    (str "undergraduate", str "Undergraduate") ].

Definition VIDEO_EXTS : list pystr :=
  [str ".mp4"; str ".webm"; str ".mov"; str ".m4v"; str ".gif"].

(** [x in VIDEO_EXTS] *)
Definition in_set (x : pystr) (l : list pystr) : bool := existsb (str_eqb x) l.

Section Site.

Variable U : unicode_db.

(** The module-level [CATEGORIES], which [make_index_page] and [main]
    read; a variable here so that other configurations can be stated. *)
Variable categories : list (pystr * pystr).

Definition is_video (fs : node) (f : path) : bool :=
  is_file fs f && in_set (lower U (suffix f)) VIDEO_EXTS.

Definition list_video_files (folder : path) (fs : node) : result (list path) :=
  if negb (path_exists fs folder) then Ok []
  else
    match iterdir fs folder with
    | Ok l => Ok (sorted (fun x => lower U (name x)) (filter (is_video fs) l))
    | Raise e => Raise e
    end.

Definition list_subfolders (folder : path) (fs : node) : result (list path) :=
  if negb (path_exists fs folder) then Ok []
  else
    match iterdir fs folder with
    | Ok l => Ok (sorted (fun x => lower U (name x)) (filter (is_dir fs) l))
    | Raise e => Raise e
    end.

Definition write_html (p : path) (content : pystr) : M unit :=
  writing (fun fs => mkdir fs (parent p)) ;;
  writing (fun fs => write_text fs p content).

Definition read_template (n : pystr) : M pystr :=
  reading (fun fs => read_text fs (DOCS_DIR // n)).

(** *** PAGINA PRINCIPAL (INDEX) *)

(** The f-string of a link of the index page. *)
Definition index_link (c : pystr * pystr) : pystr :=
  str "<li><a href=" ++ dq ++ BASE_URL ++ str "/" ++ fst c ++ str ".html"
  ++ dq ++ str ">" ++ snd c ++ str "</a></li>".

(** The f-string [body] of the index page; the dash of its heading is
    U+2014. *)
Definition index_body (links : list pystr) : pystr :=
  str "
<h1>GeomechMotion " ++ [8212%N] ++ str " Numerical Modelling Animations</h1>
<p>Select a category to explore animations:</p>

<ul>
    " ++ join [] links ++ str "
</ul>
".

Definition make_index_page : M unit :=
  template_top <- read_template (str "_template_top.html") ;;
  template_bottom <- read_template (str "_template_bottom.html") ;;
  links <- reading (fun fs => Ok (map index_link
             (filter (fun c => path_exists fs (VIDEOS_ROOT // fst c)) categories))) ;;
  let body := index_body links in
  let full := template_top ++ body ++ template_bottom in
  write_html (DOCS_DIR // str "index.html") full.

(** *** PAGINA DE CATEGORIA *)

(** The loop body that builds [items]: one link per subfolder. *)
Definition subfolder_item (cat_slug : pystr) (sub : path) : pystr :=
  let sub_slug := slug_from_name U (name sub) in
  let sub_title := title_from_name U (name sub) in
  str "<li><a href=" ++ dq ++ BASE_URL ++ str "/" ++ cat_slug ++ str "/"
  ++ sub_slug ++ str ".html" ++ dq ++ str ">" ++ sub_title ++ str "</a></li>".

(** The f-string appended to [blocks], the same in the category page and
    in the subfolder page. *)
Definition video_block (src title : pystr) : pystr :=
  str "
<section>
    <video controls>
        <source src=" ++ dq ++ src ++ dq ++ str ">
    </video>
    <p>Animation: " ++ title ++ str "</p>
</section>
".

(** The link back to the index, the last line of both bodies of the
    category page. *)
Definition back_to_home : pystr :=
  str "<p><a href=" ++ dq ++ BASE_URL ++ str "/index.html" ++ dq
  ++ str ">Back to home</a></p>".

Definition make_category_page (cat_slug cat_title : pystr) : M unit :=
  template_top <- read_template (str "_template_top.html") ;;
  template_bottom <- read_template (str "_template_bottom.html") ;;
  let cat_dir := VIDEOS_ROOT // cat_slug in
  subfolders <- reading (list_subfolders cat_dir) ;;
  body <-
    match subfolders with
    | _ :: _ =>
        let items := map (subfolder_item cat_slug) subfolders in
        ret (str "
<h1>" ++ cat_title ++ str "</h1>

<ul>
    " ++ join [] items ++ str "
</ul>

" ++ back_to_home ++ str "
")
    | [] =>
        videos <- reading (list_video_files cat_dir) ;;
        let blocks :=
          map (fun vid =>
                 let title := title_from_name U (name vid) in
                 let src := BASE_URL ++ str "/assets/videos/" ++ cat_slug
                            ++ str "/" ++ name vid in
                 video_block src title) videos in
        let blocks :=
          match blocks with
          | [] => [str "<p>No videos available yet.</p>"]
          | _ :: _ => blocks
          end in
        ret (str "
<h1>" ++ cat_title ++ str "</h1>
" ++ join [] blocks ++ str "
" ++ back_to_home ++ str "
")
    end ;;
  let full := template_top ++ body ++ template_bottom in
  write_html (DOCS_DIR // (cat_slug ++ str ".html")) full.

(** *** SUBPAGINA: SUBCARPETA *)

Definition make_subcategory_page (cat_slug cat_title : pystr) (subfolder : path) : M unit :=
  template_top <- read_template (str "_template_top.html") ;;
  template_bottom <- read_template (str "_template_bottom.html") ;;
  let sub_slug := slug_from_name U (name subfolder) in
  let sub_title := title_from_name U (name subfolder) in
  videos <- reading (list_video_files subfolder) ;;
  let blocks :=
    map (fun vid =>
           let title := title_from_name U (name vid) in
           let src := BASE_URL ++ str "/assets/videos/" ++ cat_slug ++ str "/"
                      ++ name subfolder ++ str "/" ++ name vid in
           video_block src title) videos in
  let blocks :=
    match blocks with
    | [] => [str "<p>No videos available.</p>"]
    | _ :: _ => blocks
    end in
  let body := str "
<h1>" ++ sub_title ++ str "</h1>
<p>Category: " ++ cat_title ++ str "</p>

" ++ join [] blocks ++ str "

<p>
    <a href=" ++ dq ++ BASE_URL ++ str "/" ++ cat_slug ++ str ".html" ++ dq
    ++ str ">Back to " ++ cat_title ++ str "</a> |
    <a href=" ++ dq ++ BASE_URL ++ str "/index.html" ++ dq ++ str ">Home</a>
</p>
" in
  let out_path := DOCS_DIR // cat_slug // (sub_slug ++ str ".html") in
  let full := template_top ++ body ++ template_bottom in
  write_html out_path full.

(** *** MAIN *)

Definition main : M unit :=
  docs <- reading (fun fs => Ok (path_exists fs DOCS_DIR)) ;;
  (if negb docs then writing (fun fs => mkdir fs DOCS_DIR) else ret tt) ;;
  make_index_page ;;
  for_each categories (fun c =>
    let slug := fst c in
    let title := snd c in
    let cat_dir := VIDEOS_ROOT // slug in
    present <- reading (fun fs => Ok (path_exists fs cat_dir)) ;;
    if negb present then ret tt
    else
      make_category_page slug title ;;
      subs <- reading (list_subfolders cat_dir) ;;
      for_each subs (fun sub => make_subcategory_page slug title sub)).

End Site.

(** ** Predicates of the specification *)

(** A character of [[a-z0-9-_]]. *)
Definition is_slug_char (c : char) : bool :=
  (((97 <=? c) && (c <=? 122)) || ((48 <=? c) && (c <=? 57))
   || (c =? 45) || (c =? 95))%N.

(** An ASCII character that is neither alphanumeric nor an underscore. *)
Definition is_symbol (c : char) : bool :=
  is_ascii c
  && negb (((48 <=? c) && (c <=? 57)) || ((65 <=? c) && (c <=? 90))
           || ((97 <=? c) && (c <=? 122)) || (c =? 95))%N.

(** A hyphen, an underscore or a space: what [title_from_name] turns into
    word breaks. *)
Definition is_separator (c : char) : bool :=
  ((c =? 45) || (c =? 95) || (c =? 32))%N.

(** In a list sorted by [key], [a] may stand before [b]: the key of [b]
    is not below the key of [a]. *)
Definition key_le {A : Type} (key : A -> pystr) (a b : A) : Prop :=
  str_ltb (key b) (key a) = false.

(** The invariant of a slug: characters of [[a-z0-9-_]], no two hyphens
    in a row, not empty. *)
Definition slug_ok (s : pystr) : bool :=
  forallb is_slug_char s && negb (str_in (str "--") s)
  && negb (str_eqb s []).

(** [q] is [p] or one of its ancestors. *)
Fixpoint is_prefix (q p : path) : bool :=
  match q, p with
  | [], _ => true
  | _ :: _, [] => false
  | x :: q', y :: p' => str_eqb x y && is_prefix q' p'
  end.

(** The pages of a run, in the order in which they are written. *)
Definition apply_writes (W : list (path * pystr)) : M unit :=
  for_each W (fun w => write_html (fst w) (snd w)).

(** The content that a run writing [W] leaves at [q], if it writes there. *)
Fixpoint last_write (W : list (path * pystr)) (q : path) : option pystr :=
  match W with
  | [] => None
  | (p, c) :: W' =>
      match last_write W' q with
      | Some c' => Some c'
      | None => if is_prefix p q && is_prefix q p then Some c else None
      end
  end.

(** After the run that wrote [W], every path of [W] is a file and every
    ancestor of it a directory. *)
Definition saturated (W : list (path * pystr)) (fs : node) : Prop :=
  forall p c, In (p, c) W ->
    p <> []
    /\ (exists c', read_text fs p = Ok c')
    /\ forall q, is_prefix q p = true -> q <> p ->
                 read_text fs q = Raise IsADirectoryError.

(** *** What a run reads and what it may write *)

Definition template_names : list pystr :=
  [str "_template_top.html"; str "_template_bottom.html"].

(** Two file systems with the same media tree and the same templates. *)
Definition same_inputs (fs fs' : node) : Prop :=
  lookup fs [str "assets"] = lookup fs' [str "assets"]
  /\ forall n, In n template_names ->
               read_text fs (DOCS_DIR // n) = read_text fs' (DOCS_DIR // n).

(** A path below [docs/] that is neither a template nor below one. *)
Definition safe_path (p : path) : bool :=
  match p with
  | d :: n :: _ => str_eqb d (str "docs") && negb (in_set n template_names)
  | _ => false
  end.

(** No category page or category directory takes the place of a
    template. *)
Definition keeps_templates (cats : list (pystr * pystr)) : bool :=
  forallb (fun c => negb (in_set (fst c) template_names)
                    && negb (in_set (fst c ++ str ".html") template_names)) cats.

(** The result of a computation without the file system it leaves. *)
Definition value {A : Type} (r : result (A * node)) : result A :=
  match r with
  | Ok (a, _) => Ok a
  | Raise e => Raise e
  end.

(** A computation that leaves the file system as it is and whose result
    depends on the inputs only. *)
Definition reads_inputs {A : Type} (m : M A) : Prop :=
  (forall fs a fs', m fs = Ok (a, fs') -> fs' = fs)
  /\ (forall fs fs', same_inputs fs fs' -> value (m fs) = value (m fs')).

(** The pages [W] are written, and then [tail] is raised, if any. *)
Definition run_plan (W : list (path * pystr)) (tail : option exn) : M unit :=
  apply_writes W ;;
  match tail with
  | None => ret tt
  | Some e => fun _ => Raise e
  end.

(** A computation that, on all file systems with the same inputs, writes
    the same pages to safe paths. *)
Definition generator (g : M unit) : Prop :=
  forall fs0, exists W tail,
    forallb safe_path (map fst W) = true
    /\ forall fs, same_inputs fs0 fs -> g fs = run_plan W tail fs.

(** [main] after its first statement. *)
Definition pages (U : unicode_db) (categories : list (pystr * pystr)) : M unit :=
  make_index_page categories ;;
  for_each categories (fun c =>
    let slug := fst c in
    let title := snd c in
    let cat_dir := VIDEOS_ROOT // slug in
    present <- reading (fun fs => Ok (path_exists fs cat_dir)) ;;
    if negb present then ret tt
    else
      make_category_page U slug title ;;
      subs <- reading (list_subfolders U cat_dir) ;;
      for_each subs (fun sub => make_subcategory_page U slug title sub)).

(** *** Closed forms *)

(** Every run of hyphens as one hyphen: a hyphen is dropped when a hyphen
    follows it. *)
Fixpoint squeeze (s : pystr) : pystr :=
  match s with
  | [] => []
  | c :: t =>
      match t with
      | [] => [c]
      | d :: _ => if ((c =? 45) && (d =? 45))%N then squeeze t else c :: squeeze t
      end
  end.

(** What [slug_from_name] makes of one ASCII character of the stem: a
    letter in lower case, a digit and an underscore as they are, a hyphen
    for everything else. *)
Definition slug_char_of (c : char) : char :=
  if ascii_isalnum c || (c =? 95)%N then ascii_lower c else 45%N.

(** A character of a word of a title: ASCII, not white space, neither a
    hyphen nor an underscore. *)
Definition is_word_char (c : char) : bool :=
  is_ascii c && negb (ascii_isspace c) && negb (c =? 45)%N && negb (c =? 95)%N.

(** *** The loop of [main] *)

(** One turn of the loop of [main]. *)
Definition turn (U : unicode_db) (c : pystr * pystr) : M unit :=
  present <- reading (fun fs => Ok (path_exists fs (VIDEOS_ROOT // fst c))) ;;
  if negb present then ret tt
  else
    make_category_page U (fst c) (snd c) ;;
    subs <- reading (list_subfolders U (VIDEOS_ROOT // fst c)) ;;
    for_each subs (fun sub => make_subcategory_page U (fst c) (snd c) sub).

(** *** What a run may write *)

(** The paths of the pages of a category: its own page, and a page in
    its directory. *)
Definition category_pages (c : pystr * pystr) (p : path) : Prop :=
  p = DOCS_DIR // (fst c ++ str ".html")
  \/ exists s, p = DOCS_DIR // fst c // (s ++ str ".html").

(** The paths of the pages: the index page and the pages of the
    configured categories. *)
Definition is_page (cats : list (pystr * pystr)) (p : path) : Prop :=
  p = DOCS_DIR // str "index.html" \/ exists c, In c cats /\ category_pages c p.

(** A computation that writes at the paths [P] only: a new file is at
    a path of [P], a new directory above one; a file stays a file, with
    its content unless its path is in [P], and a directory stays a
    directory. *)
Definition writes_only (P : path -> Prop) (m : M unit) : Prop :=
  forall fs fs', m fs = Ok (tt, fs') ->
    (forall q c, read_text fs' q = Ok c -> read_text fs q = Ok c \/ P q)
    /\ (forall q, is_dir fs' q = true ->
          is_dir fs q = true \/ exists p, P p /\ is_prefix q p = true /\ q <> p)
    /\ (forall q c, read_text fs q = Ok c ->
          exists c', read_text fs' q = Ok c' /\ (c' = c \/ P q))
    /\ (forall q, is_dir fs q = true -> is_dir fs' q = true).

(** Every file of [fs] is a file of [fs'], and every directory a
    directory. *)
Definition grows (fs fs' : node) : Prop :=
  (forall q, is_file fs q = true -> is_file fs' q = true)
  /\ (forall q, is_dir fs q = true -> is_dir fs' q = true).

(** *** When a run succeeds *)




(** *** Names with the same title *)

(** What [title_from_name] keeps of a character of the stem: a hyphen, an
    underscore and white space break words, and a letter counts without
    its case. *)
Definition title_char_of (c : char) : char :=
  if ((c =? 45) || (c =? 95))%N || ascii_isspace c then 32%N else ascii_lower c.

(** White space as a space, and a letter in lower case. *)
Definition space_or_lower (c : char) : char :=
  if ascii_isspace c then 32%N else ascii_lower c.

(** ** Sample file systems *)

(** [docs/] with the two template fragments. *)
Definition docs_with (top bottom : pystr) : pystr * node :=
  (str "docs", Dir [ (str "_template_top.html", File top);
                     (str "_template_bottom.html", File bottom) ]).

(** [assets/videos/plaxis/Tunnel Excavation/stage1.mp4] *)
Definition tunnel_fs (top bottom video : pystr) : node :=
  Dir [ docs_with top bottom;
        (str "assets", Dir [ (str "videos", Dir [ (str "plaxis", Dir [
          (str "Tunnel Excavation", Dir [ (str "stage1.mp4", File video) ]) ]) ]) ]) ].

(** A folder with [B.mp4], [a.MP4] and [c.txt], in that directory order. *)
Definition media_fs : node :=
  Dir [ (str "clips", Dir [ (str "B.mp4", File []); (str "a.MP4", File []);
                            (str "c.txt", File []) ]) ].

(** Two subfolders of [plaxis] whose names have the same slug. *)
Definition clash_fs : node :=
  Dir [ docs_with (str "<html>") (str "</html>");
        (str "assets", Dir [ (str "videos", Dir [ (str "plaxis", Dir [
          (str "my-sub", Dir [ (str "b.mp4", File []) ]);
          (str "My Sub", Dir [ (str "a.mp4", File []) ]) ]) ]) ]) ].

(** What a run over [clash_fs] leaves. *)
Definition clash_site : node :=
  Eval vm_compute in
    match main latin1_db CATEGORIES clash_fs with
    | Ok (_, fs) => fs
    | Raise _ => Dir []
    end.

(** A category with a subfolder and a file of its own, and a category
    with files only.  The subfolder holds two files whose names differ
    in case only, a file named [.mp4] and a text file. *)
Definition mixed_fs : node :=
  Dir [ docs_with (str "<html>") (str "</html>");
        (str "assets", Dir [ (str "videos", Dir [
          (str "plaxis", Dir [
             (str "Dam", Dir [ (str "Run.MP4", File []); (str "run.mp4", File []);
                               (str ".mp4", File []); (str "notes.txt", File []) ]);
             (str "intro.mp4", File []) ]);
          (str "undergraduate", Dir [ (str "beam.gif", File []) ]) ]) ]) ].

(** The category [plaxis] as a regular file. *)
Definition broken_fs : node :=
  Dir [ docs_with (str "<html>") (str "</html>");
        (str "assets", Dir [ (str "videos", Dir [ (str "plaxis", File []) ]) ]) ].

(** * Facts about the string operations *)

Lemma forallb_Forall (f : char -> bool) (s : pystr) :
  forallb f s = true <-> Forall (fun c => f c = true) s.
Proof.
  induction s as [|c t IH]; simpl.
  - split; auto.
  - rewrite andb_true_iff, IH. split.
    + intros [H1 H2]. constructor; assumption.
    + intros H. inversion H. auto.
Qed.

Lemma str_eqb_eq (a b : pystr) : str_eqb a b = true <-> a = b.
Proof.
  revert b. induction a as [|x a IH]; intros [|y b]; simpl; try (split; [discriminate | congruence]).
  - split; reflexivity.
  - rewrite andb_true_iff, N.eqb_eq, IH. split.
    + intros [-> ->]. reflexivity.
    + intros H. inversion H. auto.
Qed.

Lemma str_eqb_refl (a : pystr) : str_eqb a a = true.
Proof. apply str_eqb_eq. reflexivity. Qed.

Lemma str_eqb_sym (a b : pystr) : str_eqb a b = str_eqb b a.
Proof.
  destruct (str_eqb a b) eqn:E1, (str_eqb b a) eqn:E2; try reflexivity.
  - apply str_eqb_eq in E1. subst. rewrite str_eqb_refl in E2. discriminate.
  - apply str_eqb_eq in E2. subst. rewrite str_eqb_refl in E1. discriminate.
Qed.

Lemma str_eqb_neq (a b : pystr) : str_eqb a b = false <-> a <> b.
Proof.
  rewrite <- str_eqb_eq. destruct (str_eqb a b); split; congruence.
Qed.

(** *** [replace] *)

Lemma replace_from_Forall (P : char -> Prop) (old new s : pystr) (skip : nat) :
  Forall P new -> Forall P s -> Forall P (replace_from old new skip s).
Proof.
  intros Hnew. revert skip. induction s as [|c t IH]; intros skip Hs; simpl.
  - constructor.
  - inversion Hs as [|? ? Hc Ht]; subst. destruct skip as [|k].
    + destruct (startswith old (c :: t)).
      * apply Forall_app. split; auto.
      * constructor; auto.
    + auto.
Qed.

Lemma replace_Forall (P : char -> Prop) (old new s : pystr) :
  Forall P new -> Forall P s -> Forall P (replace old new s).
Proof. apply replace_from_Forall. Qed.

Lemma replace_absent (old new s : pystr) :
  str_in old s = false -> replace old new s = s.
Proof.
  unfold replace. induction s as [|c t IH]; intros H.
  - reflexivity.
  - cbn [str_in] in H. apply orb_false_iff in H. destruct H as [H1 H2].
    cbn [replace_from]. rewrite H1. f_equal. auto.
Qed.

Lemma replace_nonempty (old new s : pystr) :
  new <> [] -> s <> [] -> replace old new s <> [].
Proof.
  intros Hnew Hs. destruct s as [|c t]; [congruence|].
  unfold replace. cbn [replace_from].
  destruct (startswith old (c :: t)).
  - destruct new; [congruence | discriminate].
  - discriminate.
Qed.

(** Replacing one character by another is a [map]. *)
Lemma replace_char (a b : char) (s : pystr) :
  replace [a] [b] s = map (fun c => if (c =? a)%N then b else c) s.
Proof.
  unfold replace. induction s as [|c t IH]; [reflexivity|].
  cbn [replace_from startswith map length].
  rewrite andb_true_r, N.eqb_sym.
  destruct (c =? a)%N; simpl; rewrite IH; reflexivity.
Qed.

Lemma str_in_absent_char (a : char) (s : pystr) :
  ~ In a s -> str_in [a] s = false.
Proof.
  induction s as [|c t IH]; intros H; [reflexivity|].
  cbn [str_in startswith]. rewrite andb_true_r.
  destruct (N.eqb_spec a c) as [->|_].
  - exfalso. apply H. left. reflexivity.
  - apply IH. intros Hin. apply H. right. assumption.
Qed.

(** *** The hyphen loop *)

Lemma collapse_hyphens_fix (base : pystr) :
  collapse_hyphens base =
  if str_in (str "--") base
  then collapse_hyphens (replace (str "--") (str "-") base)
  else base.
Proof.
  funelim (collapse_hyphens base);
    match goal with E : str_in _ _ = _ |- _ => rewrite E end; reflexivity.
Qed.

Lemma collapse_hyphens_none (base : pystr) :
  str_in (str "--") (collapse_hyphens base) = false.
Proof.
  funelim (collapse_hyphens base); assumption.
Qed.

Lemma collapse_hyphens_id (base : pystr) :
  str_in (str "--") base = false -> collapse_hyphens base = base.
Proof. intros H. rewrite collapse_hyphens_fix, H. reflexivity. Qed.

Lemma collapse_hyphens_Forall (P : char -> Prop) (base : pystr) :
  P 45%N -> Forall P base -> Forall P (collapse_hyphens base).
Proof.
  intros Hh. funelim (collapse_hyphens base); intros Hb; [|assumption].
  match goal with IH : forall _ : char -> Prop, _ |- _ => apply IH; [assumption|] end.
  apply replace_Forall; [|assumption]. repeat constructor. assumption.
Qed.

Lemma collapse_hyphens_nonempty (base : pystr) :
  base <> [] -> collapse_hyphens base <> [].
Proof.
  funelim (collapse_hyphens base); intros Hb; [|assumption].
  match goal with IH : _ -> _ <> [] |- _ => apply IH end.
  apply replace_nonempty; [discriminate | assumption].
Qed.

(** *** [rfind] and [splitext] *)

Lemma rfind_from_cases (s : pystr) (c : char) (i best : Z) :
  (rfind_from s c i best = best /\ ~ In c s)
  \/ (exists k, k < length s /\ rfind_from s c i best = (i + Z.of_nat k)%Z
                /\ nth_error s k = Some c /\ ~ In c (skipn (S k) s)).
Proof.
  revert i best. induction s as [|x t IH]; intros i best.
  - left. simpl. auto.
  - cbn [rfind_from].
    destruct (IH (i + 1)%Z (if (x =? c)%N then i else best)) as [[E Hn]|(k & Hk & E & Hnth & Hn)].
    + destruct (N.eqb_spec x c) as [->|Hxc].
      * right. exists 0. simpl. repeat split; auto; lia.
      * left. split; [assumption|]. simpl. intros [H|H]; auto.
    + right. exists (S k). simpl. repeat split; auto; lia.
Qed.

Lemma rfind_absent (s : pystr) (c : char) : ~ In c s -> rfind s c = (-1)%Z.
Proof.
  intros H. unfold rfind.
  destruct (rfind_from_cases s c 0 (-1)) as [[E _]|(k & _ & _ & Hnth & _)]; [assumption|].
  exfalso. apply H. eapply nth_error_In. eassumption.
Qed.

Lemma rfind_lower_bound (s : pystr) (c : char) : (-1 <= rfind s c)%Z.
Proof.
  unfold rfind.
  destruct (rfind_from_cases s c 0 (-1)) as [[E _]|(k & _ & E & _)]; lia.
Qed.

Lemma slice_empty (s : pystr) (a b : Z) : (b <= a)%Z -> slice s a b = [].
Proof.
  intros H. unfold slice. replace (Z.to_nat (b - a)) with 0 by lia. reflexivity.
Qed.

(** The shape of the result of [splitext]: either nothing is split off, or
    the name is cut at its last dot, which is not its first character. *)
Lemma splitext_cases (p : pystr) :
  splitext p = (p, [])
  \/ (exists k e, 0 < k /\ splitext p = (firstn k p, extsep :: e)
                  /\ p = firstn k p ++ extsep :: e /\ ~ In extsep e).
Proof.
  unfold splitext.
  destruct (rfind (p) sep <? rfind p extsep)%Z eqn:Hlt; [|left; reflexivity].
  destruct (existsb _ _) eqn:Hex; [|left; reflexivity].
  right. apply Z.ltb_lt in Hlt.
  pose proof (rfind_lower_bound p sep) as Hsep.
  unfold rfind in Hlt, Hex |- *. fold (rfind p sep) in Hlt, Hex, Hsep |- *.
  destruct (rfind_from_cases p extsep 0 (-1)) as [[E _]|(k & Hk & E & Hnth & Hn)].
  - lia.
  - rewrite E in *. simpl in Hlt, Hex |- *. rewrite Nat2Z.id.
    assert (Hskip : skipn k p = extsep :: skipn (S k) p).
    { clear -Hnth. revert p Hnth. induction k as [|k IH]; intros [|x p] Hnth; simpl in *; try discriminate.
      - congruence.
      - apply IH. assumption. }
    exists k, (skipn (S k) p). repeat split.
    + destruct k as [|k]; [|lia]. exfalso.
      rewrite slice_empty in Hex by lia. discriminate.
    + rewrite Hskip. reflexivity.
    + rewrite <- Hskip. symmetry. apply firstn_skipn.
    + assumption.
Qed.

Lemma splitext_join (p : pystr) : fst (splitext p) ++ snd (splitext p) = p.
Proof.
  destruct (splitext_cases p) as [E|(k & e & _ & E & Hp & _)]; rewrite E; simpl.
  - apply app_nil_r.
  - symmetry. assumption.
Qed.

Lemma splitext_Forall (P : char -> Prop) (p : pystr) :
  Forall P p -> Forall P (fst (splitext p)).
Proof.
  intros H. destruct (splitext_cases p) as [E|(k & e & _ & E & Hp & _)]; rewrite E; simpl.
  - assumption.
  - rewrite Hp in H. apply Forall_app in H. apply H.
Qed.

Lemma splitext_nonempty (p : pystr) : p <> [] -> fst (splitext p) <> [].
Proof.
  intros H. destruct (splitext_cases p) as [E|(k & e & Hk & E & _)]; rewrite E; simpl.
  - assumption.
  - destruct p; [congruence|]. destruct k; [lia|]. discriminate.
Qed.

Lemma splitext_no_dot (p : pystr) : ~ In extsep p -> splitext p = (p, []).
Proof.
  intros H. destruct (splitext_cases p) as [E|(k & e & _ & _ & Hp & _)]; [assumption|].
  exfalso. apply H. rewrite Hp. apply in_or_app. right. left. reflexivity.
Qed.

(** *** ASCII characters *)

Ltac nbool :=
  unfold is_slug_char, is_symbol, is_separator, is_ascii, ascii_isalnum,
    ascii_isspace, ascii_lower, ascii_upper in *;
  repeat match goal with
         | H : context [(?a <=? ?b)%N] |- _ => destruct (N.leb_spec a b)
         | H : context [(?a <? ?b)%N] |- _ => destruct (N.ltb_spec a b)
         | H : context [(?a =? ?b)%N] |- _ => destruct (N.eqb_spec a b)
         | |- context [(?a <=? ?b)%N] => destruct (N.leb_spec a b)
         | |- context [(?a <? ?b)%N] => destruct (N.ltb_spec a b)
         | |- context [(?a =? ?b)%N] => destruct (N.eqb_spec a b)
         end;
  simpl in *; try reflexivity; try discriminate; try lia.

Lemma slug_char_ascii (c : char) : is_slug_char c = true -> is_ascii c = true.
Proof. intros H. nbool. Qed.

Lemma slug_char_lower (c : char) : is_slug_char c = true -> ascii_lower c = c.
Proof. intros H. nbool. Qed.

Lemma slug_char_alnum (c : char) :
  is_slug_char c = true -> ascii_isalnum c || str_in [c] (str "-_") = true.
Proof. intros H. cbn [str_in startswith str map list_ascii_of_string]. simpl N_of_ascii. nbool. Qed.

Lemma kept_char_lower (c : char) :
  ascii_isalnum c || str_in [c] (str "-_") = true ->
  is_slug_char (ascii_lower c) = true.
Proof. cbn [str_in startswith str map list_ascii_of_string]. simpl N_of_ascii. intros H. nbool. Qed.

Lemma ascii_lower_hyphen (c : char) : (45 =? ascii_lower c)%N = (45 =? c)%N.
Proof. nbool. Qed.

Lemma symbol_hyphen (c : char) :
  is_symbol c = true ->
  (if ascii_isalnum c || str_in [c] (str "-_") then [c] else str "-") = str "-".
Proof. cbn [str_in startswith str map list_ascii_of_string]. simpl N_of_ascii. intros H. nbool; subst; reflexivity. Qed.

(** *** [join] *)

Lemma join_nil (l : list pystr) : join [] l = concat l.
Proof.
  induction l as [|w ws IH]; [reflexivity|].
  cbn [join concat]. destruct ws as [|w' ws'].
  - simpl. symmetry. apply app_nil_r.
  - rewrite IH. reflexivity.
Qed.

Lemma join_map_Forall (P Q : char -> Prop) (f : char -> pystr) (s : pystr) :
  (forall c, P c -> Forall Q (f c)) ->
  Forall P s -> Forall Q (join [] (map f s)).
Proof.
  intros Hf Hs. rewrite join_nil. induction Hs as [|c t Hc Ht IH]; simpl.
  - constructor.
  - apply Forall_app. split; auto.
Qed.

Lemma join_map_id (f : char -> pystr) (s : pystr) :
  Forall (fun c => f c = [c]) s -> join [] (map f s) = s.
Proof.
  intros Hs. rewrite join_nil. induction Hs as [|c t Hc Ht IH]; simpl.
  - reflexivity.
  - rewrite Hc, IH. reflexivity.
Qed.

Lemma join_map_nonempty (f : char -> pystr) (s : pystr) :
  (forall c, f c <> []) -> s <> [] -> join [] (map f s) <> [].
Proof.
  intros Hf Hs. rewrite join_nil. destruct s as [|c t]; [congruence|].
  simpl. specialize (Hf c). destruct (f c); [congruence | discriminate].
Qed.

Lemma double_hyphen_map (g : char -> char) (s : pystr) :
  (forall c, (45 =? g c)%N = (45 =? c)%N) ->
  str_in (str "--") (map g s) = str_in (str "--") s.
Proof.
  intros Hg. induction s as [|c t IH]; [reflexivity|].
  cbn [map str_in]. rewrite IH. f_equal.
  change (str "--") with [45%N; 45%N]. cbn [startswith]. rewrite Hg.
  destruct t as [|d t']; [reflexivity|]. cbn [map]. rewrite Hg. reflexivity.
Qed.

Lemma all_hyphens_single (s : pystr) :
  Forall (fun c => c = 45%N) s -> s <> [] -> str_in (str "--") s = false ->
  s = str "-".
Proof.
  intros Hs Hne Hno. destruct s as [|c t]; [congruence|].
  inversion Hs as [|? ? Hc Ht]; subst.
  destruct t as [|d t']; [reflexivity|].
  inversion Ht; subst. discriminate Hno.
Qed.

Section StrFacts.

Variable U : unicode_db.

Lemma isalnum_ascii (c : char) : is_ascii c = true -> isalnum U c = ascii_isalnum c.
Proof. intros H. unfold isalnum. rewrite H. reflexivity. Qed.

Lemma do_lower_ascii (s before_rev : pystr) :
  Forall (fun c => is_ascii c = true) s ->
  do_lower U before_rev s = map ascii_lower s.
Proof.
  intros Hs. revert before_rev. induction Hs as [|c t Hc Ht IH]; intros before_rev.
  - reflexivity.
  - cbn [do_lower map]. rewrite IH. unfold lower_ucs4, tolower_full. rewrite Hc.
    destruct (N.eqb_spec c 931) as [->|_]; [discriminate Hc | reflexivity].
Qed.

Lemma lower_ascii (s : pystr) :
  Forall (fun c => is_ascii c = true) s -> lower U s = map ascii_lower s.
Proof. apply do_lower_ascii. Qed.

Lemma lower_slug_chars (s : pystr) :
  Forall (fun c => is_slug_char c = true) s -> lower U s = s.
Proof.
  intros Hs. rewrite lower_ascii.
  - induction Hs as [|c t Hc Ht IH]; simpl; [reflexivity|].
    rewrite IH, slug_char_lower by assumption. reflexivity.
  - eapply Forall_impl; [|exact Hs]. apply slug_char_ascii.
Qed.

(** What [slug_from_name] holds before the fallback, for an ASCII name. *)
Lemma slug_ascii_core (n : pystr) :
  Forall (fun c => is_ascii c = true) n ->
  let kept := fun ch => if isalnum U ch || str_in [ch] (str "-_") then [ch] else str "-" in
  let b := lower U (collapse_hyphens (join [] (map kept
             (replace (str " ") (str "-") (fst (splitext n)))))) in
  Forall (fun c => is_slug_char c = true) b /\ str_in (str "--") b = false.
Proof.
  intros Hn kept b.
  set (P := fun c => is_ascii c = true /\ ascii_isalnum c || str_in [c] (str "-_") = true).
  assert (H1 : Forall (fun c => is_ascii c = true)
                 (replace (str " ") (str "-") (fst (splitext n)))).
  { apply replace_Forall; [repeat constructor | apply splitext_Forall; assumption]. }
  assert (H2 : Forall P (join [] (map kept (replace (str " ") (str "-") (fst (splitext n)))))).
  { eapply join_map_Forall; [|exact H1]. intros c Hc. unfold kept.
    rewrite (isalnum_ascii _ Hc).
    destruct (ascii_isalnum c || str_in [c] (str "-_")) eqn:E.
    - repeat constructor; assumption.
    - repeat constructor. }
  apply (collapse_hyphens_Forall P) in H2; [|split; reflexivity].
  pose proof (collapse_hyphens_none (join [] (map kept
    (replace (str " ") (str "-") (fst (splitext n)))))) as H3.
  subst b. rewrite lower_ascii.
  2:{ eapply Forall_impl; [|exact H2]. intros c [Hc _]. exact Hc. }
  split.
  - apply Forall_map. eapply Forall_impl; [|exact H2].
    intros c [_ Hc]. apply kept_char_lower. exact Hc.
  - rewrite double_hyphen_map; [assumption | apply ascii_lower_hyphen].
Qed.

(** A string that already is a slug is left as it is. *)
Lemma slug_fixed (s : pystr) :
  slug_ok s = true -> slug_from_name U s = s.
Proof.
  unfold slug_ok. rewrite !andb_true_iff, !negb_true_iff.
  intros [[Hs Hno] Hne]. apply forallb_Forall in Hs. apply str_eqb_neq in Hne.
  assert (Hnot : forall c, is_slug_char c = false -> ~ In c s).
  { intros c Hc Hin. rewrite Forall_forall in Hs. apply Hs in Hin. congruence. }
  unfold slug_from_name.
  rewrite splitext_no_dot by (apply Hnot; reflexivity). cbn [fst].
  rewrite replace_absent by (apply str_in_absent_char, Hnot; reflexivity).
  rewrite join_map_id.
  2:{ eapply Forall_impl; [|exact Hs]. intros c Hc. cbv beta.
      rewrite (isalnum_ascii _ (slug_char_ascii _ Hc)), slug_char_alnum by assumption.
      reflexivity. }
  rewrite collapse_hyphens_id by assumption.
  rewrite lower_slug_chars by assumption.
  destruct s; [congruence | reflexivity].
Qed.

Lemma split_spaces (s : pystr) :
  Forall (fun c => isspace U c = true) s -> split U s = [].
Proof.
  unfold split. intros Hs. induction Hs as [|c t Hc Ht IH]; simpl.
  - reflexivity.
  - rewrite Hc. assumption.
Qed.

Lemma title_of_separators (n : pystr) :
  Forall (fun c => is_separator c = true) n -> title_from_name U n = [].
Proof.
  intros Hn. unfold title_from_name.
  change (str "_") with [95%N]. change (str "-") with [45%N].
  change (str " ") with [32%N]. rewrite !replace_char, map_map.
  rewrite split_spaces; [reflexivity|].
  apply Forall_map. apply (splitext_Forall _ _) in Hn.
  eapply Forall_impl; [|exact Hn]. intros c Hc. cbv beta.
  unfold isspace. nbool.
Qed.

Lemma slug_of_symbols (n : pystr) :
  n <> [] -> Forall (fun c => is_symbol c = true) n -> slug_from_name U n = str "-".
Proof.
  intros Hne Hn. unfold slug_from_name.
  set (kept := fun ch => if isalnum U ch || str_in [ch] (str "-_") then [ch] else str "-").
  set (b1 := replace (str " ") (str "-") (fst (splitext n))).
  assert (H1 : Forall (fun c => is_symbol c = true) b1).
  { apply replace_Forall; [repeat constructor | apply splitext_Forall; assumption]. }
  assert (N1 : b1 <> []).
  { apply replace_nonempty; [discriminate | apply splitext_nonempty; assumption]. }
  assert (H2 : Forall (fun c => c = 45%N) (join [] (map kept b1))).
  { eapply join_map_Forall; [|exact H1]. intros c Hc. unfold kept.
    rewrite isalnum_ascii by (unfold is_symbol in Hc; apply andb_prop in Hc; apply Hc).
    rewrite symbol_hyphen by assumption. repeat constructor. }
  assert (N2 : join [] (map kept b1) <> []).
  { apply join_map_nonempty; [|assumption]. intros c. unfold kept.
    destruct (isalnum U c || str_in [c] (str "-_")); discriminate. }
  rewrite (all_hyphens_single (collapse_hyphens (join [] (map kept b1)))).
  - reflexivity.
  - apply collapse_hyphens_Forall; [reflexivity | assumption].
  - apply collapse_hyphens_nonempty. assumption.
  - apply collapse_hyphens_none.
Qed.


(** The slug of an ASCII name meets the invariant. *)
Lemma slug_ascii_ok (n : pystr) :
  Forall (fun c => is_ascii c = true) n -> slug_ok (slug_from_name U n) = true.
Proof.
  intros Hn. destruct (slug_ascii_core n Hn) as [Hc Hno]. cbv zeta in Hc, Hno.
  unfold slug_from_name. destruct (lower U _) as [|c t] eqn:E; [reflexivity|].
  unfold slug_ok. rewrite Hno. apply forallb_Forall in Hc. rewrite Hc. reflexivity.
Qed.

End StrFacts.

(** * The slug and title deriver *)




(** C2, amended.  The slug of [My Model (v2).mp4] is [my-model-v2-]: the
    closing parenthesis becomes a hyphen and nothing trims it. *)
Theorem slug_my_model (U : unicode_db) :
  slug_from_name U (str "My Model (v2).mp4") = str "my-model-v2-".
Proof. vm_compute. reflexivity. Qed.

Lemma slug_my_model_not_trimmed :
  slug_from_name latin1_db (str "My Model (v2).mp4") <> str "my-model-v2".
Proof. vm_compute. discriminate. Qed.

(** C6, amended.  [slug(slug(n)) = slug(n)] for every name of ASCII
    characters, and for every name whose slug meets the invariant
    (characters of [[a-z0-9-_]], no two hyphens in a row, not empty). *)
Theorem slug_idempotent (U : unicode_db) (n : pystr) :
  forallb is_ascii n = true \/ slug_ok (slug_from_name U n) = true ->
  slug_from_name U (slug_from_name U n) = slug_from_name U n.
Proof.
  intros H. apply slug_fixed. destruct H as [H|H]; [|assumption].
  apply slug_ascii_ok. apply forallb_Forall. exact H.
Qed.

Lemma slug_idempotent_witness :
  (forallb is_ascii (str "My Model (v2).mp4") = true
   \/ slug_ok (slug_from_name latin1_db (str "My Model (v2).mp4")) = true)
  /\ slug_from_name latin1_db (slug_from_name latin1_db (str "My Model (v2).mp4"))
     = slug_from_name latin1_db (str "My Model (v2).mp4").
Proof.
  split; [left; reflexivity|].
  apply (slug_idempotent latin1_db (str "My Model (v2).mp4")). left. reflexivity.
Defined.

(** The name made of U+0130 (capital I with dot above) is alphanumeric and
    lowers to [i] followed by U+0307, a combining mark that is not
    alphanumeric: its slug is [i, U+0307], whose slug is [i-]. *)
Lemma slug_not_idempotent_dotted_I :
  slug_from_name latin1_db [304%N] = [105%N; 775%N]
  /\ slug_from_name latin1_db (slug_from_name latin1_db [304%N]) = str "i-"
  /\ slug_from_name latin1_db (slug_from_name latin1_db [304%N])
     <> slug_from_name latin1_db [304%N].
Proof. repeat split; vm_compute; try reflexivity. discriminate. Qed.

(** C8, amended.  [slug_from_name] and [title_from_name] are total (the
    hyphen loop of the first ends for every string) and strip the last
    extension only.  The slug falls back to [page] for the empty name; a
    name of symbols only gives the slug [-], not the fallback.  The title
    has no fallback: it is empty for the empty name and for a name made
    of hyphens, underscores and spaces. *)
Theorem slug_title_edge_cases (U : unicode_db) :
  (forall n, fst (splitext n) ++ snd (splitext n) = n
             /\ (snd (splitext n) = []
                 \/ exists e, snd (splitext n) = extsep :: e /\ ~ In extsep e))
  /\ splitext (str "archive.tar.gz") = (str "archive.tar", str ".gz")
  /\ splitext (str "README") = (str "README", [])
  /\ (forall base, collapse_hyphens base =
                   if str_in (str "--") base
                   then collapse_hyphens (replace (str "--") (str "-") base)
                   else base)
  /\ slug_from_name U [] = str "page"
  /\ (forall n, n <> [] -> forallb is_symbol n = true -> slug_from_name U n = str "-")
  /\ title_from_name U [] = []
  /\ (forall n, forallb is_separator n = true -> title_from_name U n = []).
Proof.
  repeat split; try reflexivity.
  - apply splitext_join.
  - destruct (splitext_cases n) as [E|(k & e & _ & E & _ & He)]; rewrite E; simpl.
    + left. reflexivity.
    + right. exists e. split; [reflexivity | assumption].
  - apply collapse_hyphens_fix.
  - intros n Hne Hn. apply slug_of_symbols; [assumption|].
    apply forallb_Forall. assumption.
  - intros n Hn. apply title_of_separators. apply forallb_Forall. assumption.
Qed.

Lemma slug_title_edge_cases_witness :
  slug_from_name latin1_db (str "(!)") = str "-"
  /\ title_from_name latin1_db (str "_ -") = [].
Proof.
  pose proof (slug_title_edge_cases latin1_db) as (_ & _ & _ & _ & _ & Hs & _ & Ht).
  split.
  - apply Hs; [discriminate | reflexivity].
  - apply Ht. reflexivity.
Defined.

(** At the symbol-only name [!!!] the slug is [-], not the fallback
    [page]; at the empty name the title is the empty string. *)
Lemma no_fallback_for_symbols_or_title :
  slug_from_name latin1_db (str "!!!") = str "-"
  /\ slug_from_name latin1_db (str "!!!") <> str "page"
  /\ title_from_name latin1_db [] = [].
Proof. repeat split; vm_compute; try reflexivity. discriminate. Qed.

(** * Facts about the file system *)

Lemma is_prefix_refl (p : path) : is_prefix p p = true.
Proof. induction p as [|x p IH]; simpl; [reflexivity|]. rewrite str_eqb_refl. assumption. Qed.

Lemma is_prefix_antisym (q p : path) :
  is_prefix q p = true -> is_prefix p q = true -> q = p.
Proof.
  revert p. induction q as [|x q IH]; intros [|y p]; simpl; try discriminate; auto.
  rewrite !andb_true_iff, str_eqb_eq. intros [-> H1] [_ H2]. f_equal. auto.
Qed.

Lemma is_prefix_nil (q : path) : is_prefix q [] = true -> q = [].
Proof. destruct q; [reflexivity | discriminate]. Qed.

Lemma is_prefix_app (q r : path) : is_prefix q (q ++ r) = true.
Proof. induction q as [|x q IH]; simpl; [reflexivity|]. rewrite str_eqb_refl. assumption. Qed.

(** A proper ancestor of [d // n] is [d] or an ancestor of [d]. *)
Lemma is_prefix_child (q d : path) (n : pystr) :
  is_prefix q (d // n) = true -> q <> d // n -> is_prefix q d = true.
Proof.
  unfold child. revert q. induction d as [|y d IH]; intros [|x q]; simpl; auto.
  - rewrite andb_true_iff, str_eqb_eq. intros [-> H] Hne.
    apply is_prefix_nil in H. subst. congruence.
  - rewrite !andb_true_iff. intros [Hx H] Hne. split; [assumption|].
    apply IH; [assumption|]. apply str_eqb_eq in Hx. congruence.
Qed.

Lemma is_prefix_parent (q d : path) (n : pystr) :
  is_prefix q d = true -> is_prefix q (d // n) = true /\ q <> d // n.
Proof.
  unfold child. revert q. induction d as [|y d IH]; intros [|x q]; simpl; try discriminate.
  - split; [reflexivity | discriminate].
  - split; [reflexivity | discriminate].
  - rewrite !andb_true_iff. intros [Hx H]. destruct (IH _ H) as [H1 H2].
    split; [split; assumption|]. congruence.
Qed.

Lemma name_child (p : path) (n : pystr) : name (p // n) = n.
Proof. unfold name, child. apply last_last. Qed.

Lemma parent_child (p : path) (n : pystr) : parent (p // n) = p.
Proof. unfold parent, child. apply removelast_last. Qed.

Lemma assoc_put (n m : pystr) (x : node) (es : list (pystr * node)) :
  assoc m (put n x es) = if str_eqb n m then Some x else assoc m es.
Proof.
  induction es as [|[k y] t IH]; simpl.
  - reflexivity.
  - destruct (str_eqb k n) eqn:Ekn; simpl.
    + apply str_eqb_eq in Ekn. subst k. destruct (str_eqb n m); reflexivity.
    + destruct (str_eqb k m) eqn:Ekm.
      * apply str_eqb_eq in Ekm. subst k. rewrite str_eqb_sym, Ekn. reflexivity.
      * assumption.
Qed.

Lemma put_same (n : pystr) (x : node) (es : list (pystr * node)) :
  assoc n es = Some x -> put n x es = es.
Proof.
  induction es as [|[k y] t IH]; simpl; [discriminate|].
  destruct (str_eqb k n).
  - intros [= ->]. reflexivity.
  - intros H. rewrite IH by assumption. reflexivity.
Qed.

Lemma lookup_app (fs : node) (p q : path) :
  lookup fs (p ++ q) =
  match lookup fs p with Some d => lookup d q | None => None end.
Proof.
  revert fs. induction p as [|c p IH]; intros fs; simpl; [reflexivity|].
  destruct fs as [|es]; [reflexivity|]. destruct (assoc c es); [apply IH | reflexivity].
Qed.

Lemma lookup_empty_dir (q : path) : q <> [] -> lookup (Dir []) q = None.
Proof. destruct q; [congruence | reflexivity]. Qed.

(** *** [mkdir] *)

Lemma mkdir_result (d : path) (fs fs' : node) :
  mkdir fs d = Ok fs' ->
  (forall q, is_prefix q d = true -> is_dir fs' q = true /\ is_file fs q = false)
  /\ (forall q, is_prefix q d = false -> lookup fs' q = lookup fs q).
Proof.
  revert fs fs'. induction d as [|c d IH]; intros fs fs' H.
  - destruct fs as [|es]; simpl in H; [discriminate|]. injection H as <-. split.
    + intros q Hq. apply is_prefix_nil in Hq. subst q. split; reflexivity.
    + intros q _. reflexivity.
  - destruct fs as [|es]; simpl in H; [discriminate|].
    destruct (mkdir _ d) as [x'|e] eqn:E; [|discriminate]. injection H as <-.
    destruct (IH _ _ E) as [Ha Hb]. split.
    + intros [|x q] Hq; [split; reflexivity|]. simpl in Hq.
      apply andb_prop in Hq. destruct Hq as [Hx Hq]. apply str_eqb_eq in Hx. subst x.
      unfold is_dir, is_file. simpl. rewrite assoc_put, str_eqb_refl.
      destruct (Ha q Hq) as [H1 H2]. split; [exact H1|].
      destruct (assoc c es); [exact H2 | reflexivity].
    + intros [|x q] Hq; [discriminate Hq|]. simpl in Hq |- *. rewrite assoc_put.
      destruct (str_eqb x c) eqn:Ex.
      * apply str_eqb_eq in Ex. subst x. rewrite str_eqb_refl. simpl in Hq.
        rewrite (Hb q Hq). destruct (assoc c es); [reflexivity|].
        apply lookup_empty_dir. intros ->. discriminate Hq.
      * rewrite str_eqb_sym, Ex. reflexivity.
Qed.

Lemma mkdir_succeeds (d : path) (fs : node) :
  (forall q, is_prefix q d = true -> is_file fs q = false) ->
  exists fs', mkdir fs d = Ok fs'.
Proof.
  revert fs. induction d as [|c d IH]; intros fs H.
  - destruct fs as [|es]; [discriminate (H [] eq_refl)|]. simpl. eauto.
  - destruct fs as [|es]; [discriminate (H [] eq_refl)|]. simpl.
    destruct (IH (match assoc c es with Some x => x | None => Dir [] end)) as [x' E].
    + intros q Hq. specialize (H (c :: q)). simpl in H. rewrite str_eqb_refl in H.
      specialize (H Hq). unfold is_file in H |- *. simpl in H.
      destruct (assoc c es); [exact H|]. destruct q; reflexivity.
    + rewrite E. eauto.
Qed.

(** An existing directory is left as it is. *)
Lemma mkdir_existing (d : path) (fs : node) :
  is_dir fs d = true -> mkdir fs d = Ok fs.
Proof.
  revert fs. induction d as [|c d IH]; intros fs H.
  - destruct fs; [discriminate H | reflexivity].
  - unfold is_dir in H. destruct fs as [|es]; [discriminate H|]. simpl in H |- *.
    destruct (assoc c es) as [x|] eqn:E; [|discriminate H].
    rewrite IH by exact H. rewrite put_same by assumption. reflexivity.
Qed.

(** *** [write_text] *)

Lemma write_text_result (p : path) (c : pystr) (fs fs' : node) :
  write_text fs p c = Ok fs' ->
  lookup fs' p = Some (File c)
  /\ (forall q, is_prefix q p = false -> lookup fs' q = lookup fs q)
  /\ (forall q, is_prefix q p = true -> q <> p -> is_dir fs' q = true)
  /\ is_dir fs p = false.
Proof.
  revert fs fs'. induction p as [|n p IH]; intros fs fs' H.
  - destruct fs; discriminate H.
  - destruct fs as [|es]; [discriminate H|]. cbn [write_text] in H.
    destruct p as [|n2 p2].
    + assert (Hnd : match assoc n es with Some (Dir _) => False | _ => True end
                    /\ fs' = Dir (put n (File c) es)).
      { destruct (assoc n es) as [[?|?]|]; try discriminate H; injection H as <-; auto. }
      destruct Hnd as [Hnd ->]. clear H. repeat split.
      * simpl. rewrite assoc_put, str_eqb_refl. reflexivity.
      * intros [|x q] Hq; [discriminate Hq|]. simpl in Hq |- *. rewrite assoc_put.
        destruct (str_eqb x n) eqn:Ex.
        -- apply str_eqb_eq in Ex. subst x. rewrite str_eqb_refl.
           destruct q as [|z q]; [discriminate Hq|].
           destruct (assoc n es) as [[?|?]|]; try reflexivity. contradiction.
        -- rewrite str_eqb_sym, Ex. reflexivity.
      * intros [|x q] Hq Hne; [reflexivity|]. simpl in Hq.
        apply andb_prop in Hq. destruct Hq as [Hx Hq]. apply str_eqb_eq in Hx.
        apply is_prefix_nil in Hq. subst. congruence.
      * unfold is_dir. simpl. destruct (assoc n es) as [[?|?]|]; try reflexivity. contradiction.
    + destruct (assoc n es) as [x|] eqn:En; [|discriminate H].
      destruct (write_text x (n2 :: p2) c) as [y|e] eqn:E; [|discriminate H].
      injection H as <-. destruct (IH _ _ E) as (H1 & H2 & H3 & H4). repeat split.
      * cbn [lookup]. rewrite assoc_put, str_eqb_refl. exact H1.
      * intros [|z q] Hq; [discriminate Hq|]. cbn [lookup]. rewrite assoc_put.
        cbn [is_prefix] in Hq. destruct (str_eqb z n) eqn:Ez.
        -- apply str_eqb_eq in Ez. subst z. rewrite str_eqb_refl, En. apply H2. exact Hq.
        -- rewrite str_eqb_sym, Ez. reflexivity.
      * intros [|z q] Hq Hne; [reflexivity|]. cbn [is_prefix] in Hq.
        apply andb_prop in Hq. destruct Hq as [Hz Hq]. apply str_eqb_eq in Hz. subst z.
        unfold is_dir. cbn [lookup]. rewrite assoc_put, str_eqb_refl.
        apply H3; [assumption | congruence].
      * unfold is_dir. cbn [lookup]. rewrite En. exact H4.
Qed.

Lemma write_text_succeeds (d : path) (n c : pystr) (fs : node) :
  (forall q, is_prefix q d = true -> is_dir fs q = true) ->
  is_dir fs (d // n) = false ->
  exists fs', write_text fs (d // n) c = Ok fs'.
Proof.
  unfold child. revert fs. induction d as [|k d IH]; intros fs Hd Hp.
  - pose proof (Hd [] eq_refl) as H0. destruct fs as [|es]; [discriminate H0|].
    simpl. unfold is_dir in Hp. simpl in Hp.
    destruct (assoc n es) as [[?|?]|]; try discriminate Hp; eauto.
  - pose proof (Hd [] eq_refl) as H0. destruct fs as [|es]; [discriminate H0|].
    pose proof (Hd [k]) as Hk. simpl in Hk. rewrite str_eqb_refl in Hk.
    specialize (Hk eq_refl). unfold is_dir in Hk. simpl in Hk.
    destruct (assoc k es) as [x|] eqn:Ek; [|discriminate Hk].
    destruct (IH x) as [y Hy].
    + intros q Hq. specialize (Hd (k :: q)). simpl in Hd. rewrite str_eqb_refl in Hd.
      specialize (Hd Hq). unfold is_dir in Hd |- *. simpl in Hd. rewrite Ek in Hd. exact Hd.
    + unfold is_dir in Hp |- *. simpl in Hp. rewrite Ek in Hp. exact Hp.
    + change ((k :: d) ++ [n]) with (k :: (d ++ [n])). cbn [write_text].
      rewrite Ek, Hy. destruct (d ++ [n]) eqn:Edn; [destruct d; discriminate Edn|]. eauto.
Qed.

(** *** [write_html] *)

Lemma write_html_nonempty (p : path) (c : pystr) (fs fs' : node) :
  write_html p c fs = Ok (tt, fs') -> exists d n, p = d // n.
Proof.
  intros H. destruct p as [|x p].
  - unfold write_html, bind, writing in H. simpl in H.
    destruct fs; simpl in H; discriminate H.
  - destruct (exists_last (l := x :: p)) as (d & n & E); [discriminate|].
    exists d, n. exact E.
Qed.

Lemma write_html_result (p : path) (c : pystr) (fs fs' : node) :
  write_html p c fs = Ok (tt, fs') ->
  lookup fs' p = Some (File c)
  /\ (forall q, is_prefix q p = false -> lookup fs' q = lookup fs q)
  /\ (forall q, is_prefix q p = true -> q <> p ->
                is_dir fs' q = true /\ is_file fs q = false)
  /\ is_dir fs p = false.
Proof.
  intros H. destruct (write_html_nonempty _ _ _ _ H) as (d & n & ->).
  unfold write_html, bind, writing in H. rewrite parent_child in H.
  destruct (mkdir fs d) as [fs1|e] eqn:E1; [|discriminate H].
  destruct (write_text fs1 (d // n) c) as [fs2|e] eqn:E2; [|discriminate H].
  injection H as <-.
  destruct (mkdir_result _ _ _ E1) as [Ma Mb].
  destruct (write_text_result _ _ _ _ E2) as (W1 & W2 & W3 & W4).
  assert (Hnp : forall q, is_prefix q (d // n) = false -> is_prefix q d = false).
  { intros q Hq. destruct (is_prefix q d) eqn:Eq; [|reflexivity].
    apply (is_prefix_parent _ _ n) in Eq. destruct Eq as [Eq _]. congruence. }
  repeat split.
  - exact W1.
  - intros q Hq. rewrite (W2 q Hq). apply Mb. apply Hnp. exact Hq.
  - apply W3; assumption.
  - apply (Ma q). eapply is_prefix_child; eassumption.
  - unfold is_dir in W4 |- *. rewrite <- (Mb (d // n)); [exact W4|].
    destruct (is_prefix (d // n) d) eqn:Eq; [|reflexivity].
    apply (is_prefix_parent _ _ n) in Eq. destruct Eq as [_ Eq]. congruence.
Qed.

Lemma write_html_succeeds (d : path) (n c : pystr) (fs : node) :
  (forall q, is_prefix q d = true -> is_file fs q = false) ->
  is_dir fs (d // n) = false ->
  exists fs', write_html (d // n) c fs = Ok (tt, fs').
Proof.
  intros Hd Hp. unfold write_html, bind, writing. rewrite parent_child.
  destruct (mkdir_succeeds d fs Hd) as [fs1 E1]. rewrite E1.
  destruct (mkdir_result _ _ _ E1) as [Ma Mb].
  destruct (write_text_succeeds d n c fs1) as [fs2 E2].
  - intros q Hq. apply (Ma q Hq).
  - unfold is_dir. rewrite Mb; [exact Hp|].
    destruct (is_prefix (d // n) d) eqn:Eq; [|reflexivity].
    apply (is_prefix_parent _ _ n) in Eq. destruct Eq as [_ Eq]. congruence.
  - rewrite E2. eauto.
Qed.

(** What [read_text] says about a path is what [lookup] finds there. *)
Lemma read_text_lookup (fs fs' : node) (q q' : path) :
  lookup fs q = lookup fs' q' -> read_text fs q = read_text fs' q'.
Proof. unfold read_text. intros ->. reflexivity. Qed.

Lemma read_text_is_dir (fs : node) (q : path) :
  is_dir fs q = true <-> read_text fs q = Raise IsADirectoryError.
Proof.
  unfold is_dir, read_text. destruct (lookup fs q) as [[?|?]|]; split; congruence.
Qed.

Lemma read_text_is_file (fs : node) (q : path) :
  is_file fs q = true <-> exists c, read_text fs q = Ok c.
Proof.
  unfold is_file, read_text. destruct (lookup fs q) as [[?|?]|]; split;
    try congruence; try (intros [c H]; discriminate H). eauto.
Qed.

(** Whatever lies above an existing entry is a directory. *)
Lemma ancestors_are_dirs (fs : node) (q p : path) :
  is_prefix q p = true -> q <> p -> lookup fs p <> None -> is_dir fs q = true.
Proof.
  revert fs p. induction q as [|x q IH]; intros fs p Hq Hne Hp.
  - destruct p as [|y p]; [congruence|]. destruct fs; [|reflexivity].
    simpl in Hp. congruence.
  - destruct p as [|y p]; [discriminate Hq|]. simpl in Hq.
    apply andb_prop in Hq. destruct Hq as [Hx Hq]. apply str_eqb_eq in Hx. subst y.
    unfold is_dir. destruct fs as [|es]; simpl in Hp |- *; [congruence|].
    destruct (assoc x es) as [n|]; [|congruence].
    apply (IH n p); [assumption | congruence | assumption].
Qed.

(** * The lister *)

(** *** The order of [sorted] *)

Lemma str_ltb_asym (a b : pystr) : str_ltb a b = true -> str_ltb b a = false.
Proof.
  revert b. induction a as [|x a IH]; intros [|y b] H; simpl in *; try reflexivity;
    try discriminate.
  destruct (N.ltb_spec x y), (N.ltb_spec y x); try reflexivity; try discriminate; try lia.
  apply IH. exact H.
Qed.

(** If [c < a], then every [b] is above [c] or below [a]. *)
Lemma str_ltb_between (a b c : pystr) :
  str_ltb c a = true -> str_ltb b a = true \/ str_ltb c b = true.
Proof.
  revert a b. induction c as [|z c IH]; intros [|x a] [|y b] H; simpl in *;
    try discriminate; auto.
  destruct (N.ltb_spec z x), (N.ltb_spec x z), (N.ltb_spec y x), (N.ltb_spec x y),
    (N.ltb_spec z y), (N.ltb_spec y z); try discriminate; auto; try lia.
Qed.

Section Sorted.

Context {A : Type} (key : A -> pystr).

Lemma key_le_trans (a b c : A) : key_le key a b -> key_le key b c -> key_le key a c.
Proof.
  unfold key_le. intros Hab Hbc. destruct (str_ltb (key c) (key a)) eqn:E; [|reflexivity].
  destruct (str_ltb_between (key a) (key b) (key c) E); congruence.
Qed.

Lemma insert_by_perm (x : A) (l : list A) : Permutation (insert_by key x l) (x :: l).
Proof.
  induction l as [|y t IH]; simpl.
  - reflexivity.
  - destruct (str_ltb (key y) (key x)).
    + rewrite IH. apply perm_swap.
    + reflexivity.
Qed.

Lemma sorted_perm (l : list A) : Permutation (sorted key l) l.
Proof.
  induction l as [|x t IH]; simpl.
  - reflexivity.
  - rewrite insert_by_perm. constructor. exact IH.
Qed.

Lemma insert_by_sorted (x : A) (l : list A) :
  StronglySorted (key_le key) l -> StronglySorted (key_le key) (insert_by key x l).
Proof.
  induction 1 as [|y t Ht IH Hy]; simpl.
  - repeat constructor.
  - destruct (str_ltb (key y) (key x)) eqn:E.
    + constructor; [exact IH|].
      apply (Permutation_Forall (x := x :: t)); [symmetry; apply insert_by_perm|].
      constructor; [|exact Hy]. unfold key_le. apply str_ltb_asym. exact E.
    + constructor; [constructor; assumption|].
      constructor; [exact E|].
      eapply Forall_impl; [|exact Hy]. intros z Hz. eapply key_le_trans; [exact E | exact Hz].
Qed.

Lemma sorted_sorted (l : list A) : StronglySorted (key_le key) (sorted key l).
Proof.
  induction l as [|x t IH]; simpl.
  - constructor.
  - apply insert_by_sorted. exact IH.
Qed.

Lemma sorted_In (x : A) (l : list A) : In x (sorted key l) <-> In x l.
Proof.
  split; apply Permutation_in; [|symmetry]; apply sorted_perm.
Qed.

End Sorted.
Lemma filter_map_comm {A B : Type} (f : B -> bool) (g : A -> B) (l : list A) :
  filter f (map g l) = map g (filter (fun x => f (g x)) l).
Proof.
  induction l as [|x t IH]; simpl; [reflexivity|].
  destruct (f (g x)); simpl; rewrite IH; reflexivity.
Qed.

Lemma sorted_map {A B : Type} (key : B -> pystr) (g : A -> B) (l : list A) :
  sorted key (map g l) = map g (sorted (fun x => key (g x)) l).
Proof.
  induction l as [|x t IH]; simpl; [reflexivity|]. rewrite IH.
  generalize (sorted (fun x => key (g x)) t). intros s.
  induction s as [|y s IHs]; simpl; [reflexivity|].
  destruct (str_ltb (key (g y)) (key (g x))); simpl; [rewrite IHs|]; reflexivity.
Qed.

Lemma sorted_ext {A : Type} (key key' : A -> pystr) (l : list A) :
  (forall x, key x = key' x) -> sorted key l = sorted key' l.
Proof.
  intros H. induction l as [|x t IH]; simpl; [reflexivity|]. rewrite IH.
  generalize (sorted key' t). intros s.
  induction s as [|y s IHs]; simpl; [reflexivity|].
  rewrite !H, IHs. reflexivity.
Qed.

Lemma perm3 {A : Type} (a b c : A) (l : list A) :
  Permutation l [a; b; c] ->
  l = [a; b; c] \/ l = [a; c; b] \/ l = [b; a; c]
  \/ l = [b; c; a] \/ l = [c; a; b] \/ l = [c; b; a].
Proof.
  intros H. destruct (Permutation_vs_cons_inv H) as (l1 & l2 & ->).
  apply Permutation_sym, Permutation_cons_app_inv, Permutation_length_2_inv in H.
  destruct l1 as [|x [|y [|z l1]]]; simpl in *;
    destruct H as [H|H]; inversion H; subst; auto 7.
Qed.

Section Lister.

Variable U : unicode_db.

Lemma suffix_child (folder : path) (n : pystr) : suffix (folder // n) = suffix [n].
Proof. unfold suffix. rewrite name_child. reflexivity. Qed.

Lemma lookup_child (fs : node) (folder : path) (es : list (pystr * node)) (n : pystr) :
  lookup fs folder = Some (Dir es) -> lookup fs (folder // n) = assoc n es.
Proof.
  intros H. unfold child. rewrite lookup_app, H. simpl. destruct (assoc n es); reflexivity.
Qed.

(** The two listers in terms of the names of the entries. *)
Lemma list_video_files_names (fs : node) (folder : path) (es : list (pystr * node)) :
  lookup fs folder = Some (Dir es) ->
  list_video_files U folder fs =
  Ok (map (child folder)
        (sorted (lower U)
           (filter (fun n => match assoc n es with Some (File _) => true | _ => false end
                             && in_set (lower U (suffix [n])) VIDEO_EXTS)
                   (map fst es)))).
Proof.
  intros H. unfold list_video_files, path_exists, iterdir. rewrite H. cbn [negb]. f_equal.
  rewrite <- (map_map fst (child folder)), filter_map_comm, sorted_map. f_equal.
  erewrite sorted_ext; [|intros n; rewrite name_child; reflexivity]. f_equal.
  apply filter_ext. intros n. unfold is_video, is_file.
  rewrite (lookup_child _ _ _ _ H), suffix_child. reflexivity.
Qed.

Lemma list_subfolders_names (fs : node) (folder : path) (es : list (pystr * node)) :
  lookup fs folder = Some (Dir es) ->
  list_subfolders U folder fs =
  Ok (map (child folder)
        (sorted (lower U)
           (filter (fun n => match assoc n es with Some (Dir _) => true | _ => false end)
                   (map fst es)))).
Proof.
  intros H. unfold list_subfolders, path_exists, iterdir. rewrite H. cbn [negb]. f_equal.
  rewrite <- (map_map fst (child folder)), filter_map_comm, sorted_map. f_equal.
  erewrite sorted_ext; [|intros n; rewrite name_child; reflexivity]. f_equal.
  apply filter_ext. intros n. unfold is_dir.
  rewrite (lookup_child _ _ _ _ H). reflexivity.
Qed.

(** C5.  On an existing folder [list_video_files] returns the entries
    that are regular files and whose suffix, in lower case, is one of
    [VIDEO_EXTS]: all of them, each as often as the folder lists it, in
    ascending order of the lower-cased name.  A folder that holds the
    files [B.mp4], [a.MP4] and [c.txt], in whatever directory order, gives
    [a.MP4] and then [B.mp4]. *)
Theorem list_video_files_sorted_media (fs : node) (folder : path)
    (es : list (pystr * node)) :
  lookup fs folder = Some (Dir es) ->
  exists l,
    list_video_files U folder fs = Ok l
    /\ (forall f, In f l <->
                  In f (map (fun e => folder // fst e) es)
                  /\ is_file fs f = true
                  /\ in_set (lower U (suffix f)) VIDEO_EXTS = true)
    /\ Permutation l (filter (is_video U fs) (map (fun e => folder // fst e) es))
    /\ StronglySorted (key_le (fun x => lower U (name x))) l
    /\ (forall c1 c2 c3,
          Permutation es [ (str "B.mp4", File c1); (str "a.MP4", File c2);
                           (str "c.txt", File c3) ] ->
          l = [folder // str "a.MP4"; folder // str "B.mp4"]).
Proof.
  intros H. eexists. split; [|split; [|split; [|split]]].
  - unfold list_video_files, path_exists, iterdir. rewrite H. cbn [negb]. reflexivity.
  - intros f. rewrite sorted_In, filter_In. unfold is_video.
    rewrite andb_true_iff. tauto.
  - apply sorted_perm.
  - apply sorted_sorted.
  - intros c1 c2 c3 Hp.
    pose proof (list_video_files_names fs folder es H) as Hn.
    unfold list_video_files, path_exists, iterdir in Hn. rewrite H in Hn. cbn [negb] in Hn.
    injection Hn as ->.
    destruct (perm3 _ _ _ _ Hp) as [-> | [-> | [-> | [-> | [-> | ->]]]]]; vm_compute; reflexivity.
Qed.

(** C7.  On a path that does not exist both listers return the empty
    list; no exception is raised. *)
Theorem listers_empty_on_missing (fs : node) (folder : path) :
  path_exists fs folder = false ->
  list_video_files U folder fs = Ok [] /\ list_subfolders U folder fs = Ok [].
Proof.
  intros H. unfold list_video_files, list_subfolders. rewrite H. split; reflexivity.
Qed.

End Lister.

Lemma list_video_files_sorted_media_witness :
  exists l,
    list_video_files latin1_db [str "clips"] media_fs = Ok l
    /\ l = [[str "clips"; str "a.MP4"]; [str "clips"; str "B.mp4"]].
Proof.
  destruct (list_video_files_sorted_media latin1_db media_fs [str "clips"] _ eq_refl)
    as (l & Hl & _ & _ & _ & Hex).
  exists l. split; [exact Hl|]. apply (Hex [] [] []). reflexivity.
Defined.

Lemma listers_empty_on_missing_witness :
  path_exists media_fs [str "nowhere"] = false
  /\ list_video_files latin1_db [str "nowhere"] media_fs = Ok []
  /\ list_subfolders latin1_db [str "nowhere"] media_fs = Ok [].
Proof.
  split; [reflexivity|].
  apply (listers_empty_on_missing latin1_db media_fs [str "nowhere"]). reflexivity.
Defined.

(** * The page renderer *)



Section Renderer.

Variable U : unicode_db.

(** What a lister returns on a path that is not a regular file. *)
Lemma list_subfolders_total (fs : node) (folder : path) :
  is_file fs folder = false ->
  exists l, list_subfolders U folder fs = Ok l
    /\ forall d, In d l <->
                 exists ch, iterdir fs folder = Ok ch /\ In d ch /\ is_dir fs d = true.
Proof.
  intros Hf. unfold list_subfolders, path_exists, iterdir, is_file in *.
  destruct (lookup fs folder) as [[c|es]|]; [discriminate Hf| |]; cbn [negb].
  - eexists. split; [reflexivity|]. intros d. rewrite sorted_In, filter_In. split.
    + intros [H1 H2]. eexists. split; [reflexivity|]. split; assumption.
    + intros (ch & [= <-] & H1 & H2). split; assumption.
  - exists []. split; [reflexivity|]. intros d. split; [intros []|].
    intros (ch & H & _). discriminate H.
Qed.

Lemma list_video_files_total (fs : node) (folder : path) :
  is_file fs folder = false ->
  exists l, list_video_files U folder fs = Ok l
    /\ forall f, In f l <->
                 exists ch, iterdir fs folder = Ok ch /\ In f ch /\ is_video U fs f = true.
Proof.
  intros Hf. unfold list_video_files, path_exists, iterdir, is_file in *.
  destruct (lookup fs folder) as [[c|es]|]; [discriminate Hf| |]; cbn [negb].
  - eexists. split; [reflexivity|]. intros d. rewrite sorted_In, filter_In. split.
    + intros [H1 H2]. eexists. split; [reflexivity|]. split; assumption.
    + intros (ch & [= <-] & H1 & H2). split; assumption.
  - exists []. split; [reflexivity|]. intros d. split; [intros []|].
    intros (ch & H & _). discriminate H.
Qed.


End Renderer.

(** * The site builder *)

(** C4.  With the categories [[("plaxis", "PLAXIS")]] and the directory
    [assets/videos/plaxis/] holding the one subfolder [Tunnel Excavation]
    with the one file [stage1.mp4], a run writes [docs/plaxis.html] with
    a link to [/animations/plaxis/tunnel-excavation.html] labelled
    [Tunnel Excavation], and [docs/plaxis/tunnel-excavation.html] with a
    video block whose source is
    [/animations/assets/videos/plaxis/Tunnel Excavation/stage1.mp4] and
    whose caption is [Animation: Stage1]; whatever the templates and the
    video hold. *)
Theorem tunnel_excavation_site (U : unicode_db) (top bottom video : pystr) :
  exists fs',
    main U [(str "plaxis", str "PLAXIS")] (tunnel_fs top bottom video) = Ok (tt, fs')
    /\ (exists pre post,
          read_text fs' [str "docs"; str "plaxis.html"]
          = Ok (pre
                ++ (str "<li><a href=" ++ dq
                    ++ str "/animations/plaxis/tunnel-excavation.html" ++ dq
                    ++ str ">Tunnel Excavation</a></li>")
                ++ post))
    /\ (exists pre post,
          read_text fs' [str "docs"; str "plaxis"; str "tunnel-excavation.html"]
          = Ok (pre
                ++ (str "
<section>
    <video controls>
        <source src=" ++ dq
                    ++ str "/animations/assets/videos/plaxis/Tunnel Excavation/stage1.mp4"
                    ++ dq ++ str ">
    </video>
    <p>Animation: Stage1</p>
</section>
")
                ++ post)).
Proof.
  eexists. split; [vm_compute; reflexivity|]. split.
  - exists (top ++ str "
<h1>PLAXIS</h1>

<ul>
    ").
    exists (str "
</ul>

<p><a href=" ++ dq ++ str "/animations/index.html" ++ dq ++ str ">Back to home</a></p>
" ++ bottom).
    rewrite <- app_assoc. vm_compute. reflexivity.
  - exists (top ++ str "
<h1>Tunnel Excavation</h1>
<p>Category: PLAXIS</p>

").
    exists (str "

<p>
    <a href=" ++ dq ++ str "/animations/plaxis.html" ++ dq ++ str ">Back to PLAXIS</a> |
    <a href=" ++ dq ++ str "/animations/index.html" ++ dq ++ str ">Home</a>
</p>
" ++ bottom).
    rewrite <- app_assoc. vm_compute. reflexivity.
Qed.
(** ** Writing the same pages again *)

Lemma same_path (p q : path) : is_prefix p q && is_prefix q p = true <-> p = q.
Proof.
  rewrite andb_true_iff. split.
  - intros [H1 H2]. apply is_prefix_antisym; assumption.
  - intros ->. split; apply is_prefix_refl.
Qed.

Lemma path_eq_dec (p q : path) : {p = q} + {p <> q}.
Proof. apply list_eq_dec, list_eq_dec, N.eq_dec. Qed.

(** One write, as [read_text] sees it. *)
Lemma write_html_read (p : path) (c : pystr) (fs fs' : node) :
  write_html p c fs = Ok (tt, fs') ->
  read_text fs' p = Ok c
  /\ (forall q, is_prefix q p = true -> q <> p ->
                read_text fs' q = Raise IsADirectoryError
                /\ forall c0, read_text fs q <> Ok c0)
  /\ (forall q, is_prefix q p = false -> read_text fs' q = read_text fs q)
  /\ read_text fs p <> Raise IsADirectoryError.
Proof.
  intros H. destruct (write_html_result _ _ _ _ H) as (H1 & H2 & H3 & H4).
  repeat split.
  - unfold read_text. rewrite H1. reflexivity.
  - apply read_text_is_dir. apply H3; assumption.
  - intros c0 Hc. destruct (H3 q) as [_ Hf]; [assumption | assumption|].
    assert (is_file fs q = true) by (apply read_text_is_file; eauto). congruence.
  - intros q Hq. apply read_text_lookup. apply H2. exact Hq.
  - intros Hd. apply read_text_is_dir in Hd. congruence.
Qed.

Lemma write_html_keeps_dir (p q : path) (c : pystr) (fs fs' : node) :
  write_html p c fs = Ok (tt, fs') ->
  read_text fs q = Raise IsADirectoryError ->
  read_text fs' q = Raise IsADirectoryError.
Proof.
  intros H Hd. destruct (write_html_read _ _ _ _ H) as (_ & H2 & H3 & H4).
  destruct (is_prefix q p) eqn:Eq.
  - destruct (path_eq_dec q p) as [->|Hne]; [congruence|]. apply H2; assumption.
  - rewrite H3; assumption.
Qed.

Lemma write_html_keeps_file (p q : path) (c c0 : pystr) (fs fs' : node) :
  write_html p c fs = Ok (tt, fs') ->
  q <> p ->
  read_text fs q = Ok c0 ->
  read_text fs' q = Ok c0.
Proof.
  intros H Hne Hf. destruct (write_html_read _ _ _ _ H) as (_ & H2 & H3 & _).
  destruct (is_prefix q p) eqn:Eq.
  - destruct (H2 q Eq Hne) as [_ Hn]. elim (Hn c0). exact Hf.
  - rewrite H3; assumption.
Qed.

Lemma apply_writes_cons (p : path) (c : pystr) (W : list (path * pystr)) (fs : node) :
  apply_writes ((p, c) :: W) fs =
  match write_html p c fs with
  | Ok (_, fs') => apply_writes W fs'
  | Raise e => Raise e
  end.
Proof. reflexivity. Qed.

Lemma apply_writes_keeps_dir (W : list (path * pystr)) (q : path) (fs fs' : node) :
  apply_writes W fs = Ok (tt, fs') ->
  read_text fs q = Raise IsADirectoryError ->
  read_text fs' q = Raise IsADirectoryError.
Proof.
  revert fs. induction W as [|[p c] W IH]; intros fs H Hd.
  - injection H as <-. exact Hd.
  - rewrite apply_writes_cons in H.
    destruct (write_html p c fs) as [[[] fs1]|e] eqn:E; [|discriminate H].
    apply (IH fs1 H). eapply write_html_keeps_dir; eassumption.
Qed.

Lemma last_write_cons (p : path) (c : pystr) (W : list (path * pystr)) (q : path) :
  last_write ((p, c) :: W) q =
  match last_write W q with
  | Some c' => Some c'
  | None => if path_eq_dec p q then Some c else None
  end.
Proof.
  simpl. destruct (last_write W q); [reflexivity|].
  destruct (path_eq_dec p q) as [->|Hne].
  - rewrite !is_prefix_refl. reflexivity.
  - destruct (is_prefix p q && is_prefix q p) eqn:E; [|reflexivity].
    apply same_path in E. contradiction.
Qed.

(** A file stays a file, with its content unless the run writes it. *)
Lemma apply_writes_keeps_file (W : list (path * pystr)) (q : path) (c0 : pystr)
    (fs fs' : node) :
  apply_writes W fs = Ok (tt, fs') ->
  read_text fs q = Ok c0 ->
  read_text fs' q = Ok (match last_write W q with Some c => c | None => c0 end).
Proof.
  revert fs c0. induction W as [|[p c] W IH]; intros fs c0 H Hf.
  - injection H as <-. exact Hf.
  - rewrite apply_writes_cons in H.
    destruct (write_html p c fs) as [[[] fs1]|e] eqn:E; [|discriminate H].
    rewrite last_write_cons. destruct (path_eq_dec p q) as [->|Hne].
    + destruct (write_html_read _ _ _ _ E) as (Hq & _).
      rewrite (IH fs1 c H Hq). destruct (last_write W q); reflexivity.
    + assert (Hq : read_text fs1 q = Ok c0).
      { eapply write_html_keeps_file; [exact E | congruence | exact Hf]. }
      rewrite (IH fs1 c0 H Hq). destruct (last_write W q); reflexivity.
Qed.

Lemma last_write_In (W : list (path * pystr)) (q : path) (c : pystr) :
  last_write W q = Some c -> In (q, c) W.
Proof.
  induction W as [|[p c1] W IH]; [discriminate|].
  rewrite last_write_cons. destruct (last_write W q) as [c'|].
  - intros [= ->]. right. apply IH. reflexivity.
  - destruct (path_eq_dec p q) as [->|_]; [|discriminate].
    intros [= ->]. left. reflexivity.
Qed.

Lemma In_last_write (W : list (path * pystr)) (q : path) (c : pystr) :
  In (q, c) W -> exists c', last_write W q = Some c'.
Proof.
  induction W as [|[p c1] W IH]; [intros []|].
  rewrite last_write_cons. intros [[= -> ->]|H].
  - destruct (last_write W q); [eauto|].
    destruct (path_eq_dec q q); [eauto | congruence].
  - destruct (IH H) as [c' ->]. eauto.
Qed.

(** What the first run leaves. *)
Lemma apply_writes_saturates (W : list (path * pystr)) (fs fs' : node) :
  apply_writes W fs = Ok (tt, fs') ->
  saturated W fs'
  /\ forall q c, last_write W q = Some c -> read_text fs' q = Ok c.
Proof.
  revert fs. induction W as [|[p c] W IH]; intros fs H.
  - split; [intros p c []|discriminate].
  - rewrite apply_writes_cons in H.
    destruct (write_html p c fs) as [[[] fs1]|e] eqn:E; [|discriminate H].
    destruct (IH fs1 H) as [Hsat Hlast].
    destruct (write_html_read _ _ _ _ E) as (Hp & Hanc & _ & _).
    split.
    + intros p' c' [[= <- <-]|Hin]; [|exact (Hsat p' c' Hin)].
      split; [|split].
      * destruct (write_html_nonempty _ _ _ _ E) as (d & n & ->).
        unfold child. destruct d; discriminate.
      * rewrite (apply_writes_keeps_file W p c fs1 fs' H Hp). eauto.
      * intros q Hq Hne. apply (apply_writes_keeps_dir W q fs1 fs' H).
        apply Hanc; assumption.
    + intros q c'. rewrite last_write_cons.
      destruct (last_write W q) as [c2|] eqn:El.
      * intros [= <-]. apply Hlast. exact El.
      * destruct (path_eq_dec p q) as [->|_]; [|discriminate]. intros [= <-].
        rewrite (apply_writes_keeps_file W q c fs1 fs' H Hp), El. reflexivity.
Qed.

(** The second run: on a saturated file system every write succeeds and
    changes the content of its own path only. *)
Lemma apply_writes_saturated (W : list (path * pystr)) (fs : node) :
  saturated W fs ->
  exists fs', apply_writes W fs = Ok (tt, fs')
    /\ forall q, read_text fs' q =
                 match last_write W q with
                 | Some c => Ok c
                 | None => read_text fs q
                 end.
Proof.
  revert fs. induction W as [|[p c] W IH]; intros fs Hsat.
  - exists fs. split; reflexivity.
  - destruct (Hsat p c (or_introl eq_refl)) as (Hne & [c' Hf] & Hanc).
    destruct (exists_last Hne) as (d & n & E). change (p = d // n) in E. subst p.
    destruct (write_html_succeeds d n c fs) as [fs1 E1].
    { intros q Hq. apply (is_prefix_parent _ _ n) in Hq. destruct Hq as [Hq Hqne].
      specialize (Hanc q Hq Hqne). apply read_text_is_dir in Hanc.
      unfold is_dir in Hanc. unfold is_file. destruct (lookup fs q) as [[?|?]|]; congruence. }
    { assert (Hfile : is_file fs (d // n) = true) by (apply read_text_is_file; eauto).
      unfold is_file in Hfile. unfold is_dir.
      destruct (lookup fs (d // n)) as [[?|?]|]; congruence. }
    destruct (write_html_read _ _ _ _ E1) as (Hp & Hanc1 & Hframe & _).
    assert (Hsame : forall q, q <> d // n -> read_text fs1 q = read_text fs q).
    { intros q Hq. destruct (is_prefix q (d // n)) eqn:Eq.
      - rewrite (Hanc q Eq Hq). apply Hanc1; assumption.
      - apply Hframe. exact Eq. }
    destruct (IH fs1) as (fs' & E' & Hread).
    { intros p' c'' Hin. destruct (Hsat p' c'' (or_intror Hin)) as (Hne' & [c0 Hf'] & Hanc').
      split; [exact Hne'|]. split.
      - destruct (path_eq_dec p' (d // n)) as [->|Hd]; [eauto|].
        rewrite Hsame by assumption. eauto.
      - intros q Hq Hqne. eapply write_html_keeps_dir; [exact E1|]. apply Hanc'; assumption. }
    exists fs'. split.
    + rewrite apply_writes_cons, E1. exact E'.
    + intros q. rewrite Hread, last_write_cons.
      destruct (last_write W q); [reflexivity|].
      destruct (path_eq_dec (d // n) q) as [<-|Hq]; [exact Hp|].
      apply Hsame. congruence.
Qed.

(** Running the writes of a run again changes no file. *)
Lemma apply_writes_twice (W : list (path * pystr)) (fs fs1 : node) :
  apply_writes W fs = Ok (tt, fs1) ->
  exists fs2, apply_writes W fs1 = Ok (tt, fs2)
              /\ forall q, read_text fs2 q = read_text fs1 q.
Proof.
  intros H. destruct (apply_writes_saturates _ _ _ H) as [Hsat Hlast].
  destruct (apply_writes_saturated W fs1 Hsat) as (fs2 & E & Hread).
  exists fs2. split; [exact E|]. intros q. rewrite Hread.
  destruct (last_write W q) as [c|] eqn:El; [|reflexivity].
  symmetry. apply Hlast. exact El.
Qed.
(** ** Runs as lists of writes *)

Lemma same_inputs_refl (fs : node) : same_inputs fs fs.
Proof. split; reflexivity. Qed.

Lemma same_inputs_trans (a b c : node) :
  same_inputs a b -> same_inputs b c -> same_inputs a c.
Proof.
  intros [H1 H2] [H3 H4]. split; [congruence|].
  intros n Hn. rewrite H2, H4 by assumption. reflexivity.
Qed.

Lemma same_inputs_assets (fs fs' : node) (rest : path) :
  same_inputs fs fs' ->
  lookup fs (str "assets" :: rest) = lookup fs' (str "assets" :: rest).
Proof.
  intros [H _]. change (str "assets" :: rest) with ([str "assets"] ++ rest).
  rewrite !lookup_app, H. reflexivity.
Qed.

Lemma write_html_same_inputs (p : path) (c : pystr) (fs fs' : node) :
  write_html p c fs = Ok (tt, fs') -> safe_path p = true -> same_inputs fs fs'.
Proof.
  intros H Hs. destruct p as [|d [|n p]]; try discriminate Hs. unfold safe_path in Hs.
  apply andb_prop in Hs. destruct Hs as [Hd Hn]. apply str_eqb_eq in Hd. subst d.
  apply negb_true_iff in Hn. split.
  - symmetry. destruct (write_html_result _ _ _ _ H) as (_ & H2 & _). apply H2. reflexivity.
  - intros t Ht. symmetry.
    destruct (write_html_read _ _ _ _ H) as (_ & _ & H3 & _). apply H3.
    unfold DOCS_DIR, child. cbn [app is_prefix]. rewrite str_eqb_refl. cbn [andb].
    destruct (str_eqb t n) eqn:E; [|reflexivity]. apply str_eqb_eq in E. subst t.
    exfalso. rewrite <- not_true_iff_false in Hn. apply Hn.
    apply existsb_exists. exists n. split; [exact Ht | apply str_eqb_refl].
Qed.

Lemma apply_writes_same_inputs (W : list (path * pystr)) (fs fs' : node) :
  apply_writes W fs = Ok (tt, fs') ->
  forallb safe_path (map fst W) = true ->
  same_inputs fs fs'.
Proof.
  revert fs. induction W as [|[p c] W IH]; intros fs H Hs.
  - injection H as <-. apply same_inputs_refl.
  - rewrite apply_writes_cons in H. simpl in Hs. apply andb_prop in Hs.
    destruct Hs as [Hp Hs].
    destruct (write_html p c fs) as [[[] fs1]|e] eqn:E; [|discriminate H].
    eapply same_inputs_trans; [eapply write_html_same_inputs; eassumption|].
    apply IH; assumption.
Qed.

Lemma run_plan_app (W1 W2 : list (path * pystr)) (tail : option exn) (fs : node) :
  run_plan (W1 ++ W2) tail fs =
  match apply_writes W1 fs with
  | Ok (_, fs') => run_plan W2 tail fs'
  | Raise e => Raise e
  end.
Proof.
  revert fs. induction W1 as [|[p c] W1 IH]; intros fs.
  - reflexivity.
  - change ((((p, c) :: W1) ++ W2)) with ((p, c) :: (W1 ++ W2)).
    unfold run_plan at 1. unfold bind. rewrite !apply_writes_cons.
    destruct (write_html p c fs) as [[[] fs1]|e]; [|reflexivity].
    specialize (IH fs1). unfold run_plan at 1 in IH. unfold bind in IH. exact IH.
Qed.

Lemma run_plan_writes (W : list (path * pystr)) (fs : node) :
  run_plan W None fs = apply_writes W fs.
Proof.
  unfold run_plan, bind. destruct (apply_writes W fs) as [[[] fs']|e]; reflexivity.
Qed.

Lemma run_plan_ok (W : list (path * pystr)) (tail : option exn) (fs fs' : node) :
  run_plan W tail fs = Ok (tt, fs') -> tail = None /\ apply_writes W fs = Ok (tt, fs').
Proof.
  unfold run_plan, bind. destruct (apply_writes W fs) as [[[] fs1]|e]; [|discriminate].
  destruct tail; [discriminate|]. intros [= <-]. auto.
Qed.

(** *** How generators are built *)

Lemma gen_ret : generator (ret tt).
Proof.
  intros fs0. exists [], None. split; [reflexivity|]. intros fs _. reflexivity.
Qed.

Lemma gen_write (p : path) (c : pystr) :
  safe_path p = true -> generator (write_html p c).
Proof.
  intros Hs fs0. exists [(p, c)], None. split; [simpl; rewrite Hs; reflexivity|].
  intros fs _. rewrite run_plan_writes, apply_writes_cons. unfold apply_writes. simpl.
  destruct (write_html p c fs) as [[[] fs']|e]; reflexivity.
Qed.

Lemma gen_bind_read {A : Type} (m : M A) (k : A -> M unit) :
  reads_inputs m ->
  (forall a fs, m fs = Ok (a, fs) -> generator (k a)) ->
  generator (bind m k).
Proof.
  intros [Hst Hval] Hk fs0. destruct (m fs0) as [[a fs0']|e] eqn:E0.
  - pose proof (Hst _ _ _ E0) as ->.
    destruct (Hk a fs0 E0 fs0) as (W & tail & Hs & Hrun).
    exists W, tail. split; [exact Hs|]. intros fs Hin.
    specialize (Hval fs0 fs Hin). rewrite E0 in Hval. unfold bind.
    destruct (m fs) as [[a' fs']|e] eqn:E; simpl in Hval; [|discriminate Hval].
    injection Hval as <-. pose proof (Hst _ _ _ E) as ->. apply Hrun. exact Hin.
  - exists [], (Some e). split; [reflexivity|]. intros fs Hin.
    specialize (Hval fs0 fs Hin). rewrite E0 in Hval. unfold bind.
    destruct (m fs) as [[a' fs']|e'] eqn:E; simpl in Hval; [discriminate Hval|].
    injection Hval as <-. reflexivity.
Qed.

Lemma gen_seq (m k : M unit) :
  generator m -> generator k -> generator (m ;; k).
Proof.
  intros Hm Hk fs0. destruct (Hm fs0) as (W1 & t1 & Hs1 & Hr1).
  destruct t1 as [e|].
  - exists W1, (Some e). split; [exact Hs1|]. intros fs Hin. unfold bind.
    rewrite (Hr1 fs Hin). unfold run_plan, bind.
    destruct (apply_writes W1 fs) as [[[] fs']|e']; reflexivity.
  - destruct (Hk fs0) as (W2 & t2 & Hs2 & Hr2).
    exists (W1 ++ W2), t2. split.
    + rewrite map_app, forallb_app, Hs1, Hs2. reflexivity.
    + intros fs Hin. unfold bind. rewrite (Hr1 fs Hin), run_plan_writes, run_plan_app.
      destruct (apply_writes W1 fs) as [[[] fs']|e'] eqn:E; [|reflexivity].
      apply Hr2. eapply same_inputs_trans; [exact Hin|].
      eapply apply_writes_same_inputs; eassumption.
Qed.

Lemma gen_for_each {A : Type} (l : list A) (body : A -> M unit) :
  (forall x, In x l -> generator (body x)) -> generator (for_each l body).
Proof.
  induction l as [|x t IH]; intros H; simpl.
  - apply gen_ret.
  - apply gen_seq; [apply H; left; reflexivity|]. apply IH.
    intros y Hy. apply H. right. exact Hy.
Qed.

Lemma reads_ret {A : Type} (a : A) : reads_inputs (ret a).
Proof. split; [intros fs b fs' [= _ <-]; reflexivity | reflexivity]. Qed.

Lemma reads_reading {A : Type} (f : node -> result A) :
  (forall fs fs', same_inputs fs fs' -> f fs = f fs') -> reads_inputs (reading f).
Proof.
  intros Hf. unfold reading. split.
  - intros fs a fs' H. destruct (f fs); [|discriminate H]. injection H as _ <-. reflexivity.
  - intros fs fs' Hin. rewrite (Hf fs fs' Hin). destruct (f fs'); reflexivity.
Qed.

Lemma reads_bind {A B : Type} (m : M A) (k : A -> M B) :
  reads_inputs m -> (forall a, reads_inputs (k a)) -> reads_inputs (bind m k).
Proof.
  intros [Hst Hval] Hk. unfold bind. split.
  - intros fs b fs' H. destruct (m fs) as [[a fs1]|e] eqn:E; [|discriminate H].
    pose proof (Hst _ _ _ E) as ->. apply (proj1 (Hk a)) in H. exact H.
  - intros fs fs' Hin. specialize (Hval fs fs' Hin).
    destruct (m fs) as [[a fs1]|e] eqn:E, (m fs') as [[a' fs1']|e'] eqn:E';
      simpl in Hval; try discriminate Hval.
    + injection Hval as <-. pose proof (Hst _ _ _ E) as ->.
      pose proof (Hst _ _ _ E') as ->. apply (proj2 (Hk a)). exact Hin.
    + simpl. injection Hval as <-. reflexivity.
Qed.
(** ** The reads of the generator depend on the inputs only *)

Section Builder.

Variable U : unicode_db.

Lemma list_subfolders_respects (rest : path) (fs fs' : node) :
  same_inputs fs fs' ->
  list_subfolders U (str "assets" :: rest) fs
  = list_subfolders U (str "assets" :: rest) fs'.
Proof.
  intros Hin. unfold list_subfolders, path_exists, iterdir.
  rewrite <- (same_inputs_assets _ _ rest Hin).
  destruct (lookup fs (str "assets" :: rest)) as [[c|es]|]; cbn [negb]; try reflexivity.
  f_equal. f_equal. apply filter_ext_in. intros d Hd.
  apply in_map_iff in Hd. destruct Hd as (e & <- & _). unfold is_dir, child.
  change ((str "assets" :: rest) ++ [fst e]) with (str "assets" :: (rest ++ [fst e])).
  rewrite (same_inputs_assets _ _ _ Hin). reflexivity.
Qed.

Lemma list_video_files_respects (rest : path) (fs fs' : node) :
  same_inputs fs fs' ->
  list_video_files U (str "assets" :: rest) fs
  = list_video_files U (str "assets" :: rest) fs'.
Proof.
  intros Hin. unfold list_video_files, path_exists, iterdir.
  rewrite <- (same_inputs_assets _ _ rest Hin).
  destruct (lookup fs (str "assets" :: rest)) as [[c|es]|]; cbn [negb]; try reflexivity.
  f_equal. f_equal. apply filter_ext_in. intros d Hd.
  apply in_map_iff in Hd. destruct Hd as (e & <- & _). unfold is_video, is_file, child.
  change ((str "assets" :: rest) ++ [fst e]) with (str "assets" :: (rest ++ [fst e])).
  rewrite (same_inputs_assets _ _ _ Hin). reflexivity.
Qed.

(** The subfolders that the lister returns are entries of the folder. *)
Lemma list_subfolders_children (fs : node) (folder : path) (l : list path) :
  list_subfolders U folder fs = Ok l ->
  forall d, In d l -> exists n, d = folder // n.
Proof.
  unfold list_subfolders, path_exists, iterdir.
  destruct (lookup fs folder) as [[c|es]|]; cbn [negb]; intros H; [discriminate H| |].
  - injection H as <-. intros d Hd. apply sorted_In, filter_In in Hd.
    destruct Hd as [Hd _]. apply in_map_iff in Hd. destruct Hd as (e & <- & _). eauto.
  - injection H as <-. intros d [].
Qed.

Lemma reads_template (n : pystr) :
  In n template_names -> reads_inputs (read_template n).
Proof.
  intros Hn. apply reads_reading. intros fs fs' [_ H]. apply H. exact Hn.
Qed.

Lemma reads_exists (rest : path) :
  reads_inputs (reading (fun fs => Ok (path_exists fs (str "assets" :: rest)))).
Proof.
  apply reads_reading. intros fs fs' Hin. unfold path_exists.
  rewrite (same_inputs_assets _ _ rest Hin). reflexivity.
Qed.

(** *** The three page makers are generators *)

Lemma gen_make_index_page (cats : list (pystr * pystr)) :
  generator (make_index_page cats).
Proof.
  unfold make_index_page.
  apply gen_bind_read; [apply reads_template; left; reflexivity|]. intros top _ _.
  apply gen_bind_read; [apply reads_template; right; left; reflexivity|]. intros bottom _ _.
  apply gen_bind_read.
  { apply reads_reading. intros fs fs' Hin. do 2 f_equal. apply filter_ext. intros c.
    unfold path_exists.
    change (VIDEOS_ROOT // fst c) with (str "assets" :: [str "videos"; fst c]).
    rewrite (same_inputs_assets _ _ _ Hin). reflexivity. }
  intros links _ _. apply gen_write. reflexivity.
Qed.

Lemma gen_make_category_page (cat_slug cat_title : pystr) :
  in_set (cat_slug ++ str ".html") template_names = false ->
  generator (make_category_page U cat_slug cat_title).
Proof.
  intros Hs. unfold make_category_page.
  apply gen_bind_read; [apply reads_template; left; reflexivity|]. intros top _ _.
  apply gen_bind_read; [apply reads_template; right; left; reflexivity|]. intros bottom _ _.
  cbv zeta. change (VIDEOS_ROOT // cat_slug) with (str "assets" :: [str "videos"; cat_slug]).
  apply gen_bind_read.
  { apply reads_reading. apply list_subfolders_respects. }
  intros subs _ _. apply gen_bind_read.
  { destruct subs as [|sub subs]; [|apply reads_ret].
    apply reads_bind; [|intros videos; apply reads_ret].
    apply reads_reading. apply list_video_files_respects. }
  intros body _ _. apply gen_write.
  unfold safe_path, DOCS_DIR, child. cbn [app]. rewrite str_eqb_refl, Hs. reflexivity.
Qed.

Lemma gen_make_subcategory_page (cat_slug cat_title : pystr) (rest : path) :
  in_set cat_slug template_names = false ->
  generator (make_subcategory_page U cat_slug cat_title (str "assets" :: rest)).
Proof.
  intros Hs. unfold make_subcategory_page.
  apply gen_bind_read; [apply reads_template; left; reflexivity|]. intros top _ _.
  apply gen_bind_read; [apply reads_template; right; left; reflexivity|]. intros bottom _ _.
  cbv zeta. apply gen_bind_read.
  { apply reads_reading. apply list_video_files_respects. }
  intros videos _ _. apply gen_write.
  unfold safe_path, DOCS_DIR, child. cbn [app]. rewrite str_eqb_refl, Hs. reflexivity.
Qed.

Lemma gen_pages (cats : list (pystr * pystr)) :
  keeps_templates cats = true -> generator (pages U cats).
Proof.
  intros Hk. unfold pages. apply gen_seq; [apply gen_make_index_page|].
  apply gen_for_each. intros c Hc. cbv zeta.
  unfold keeps_templates in Hk. rewrite forallb_forall in Hk. specialize (Hk c Hc).
  apply andb_prop in Hk. destruct Hk as [Hk1 Hk2].
  apply negb_true_iff in Hk1. apply negb_true_iff in Hk2.
  change (VIDEOS_ROOT // fst c) with (str "assets" :: [str "videos"; fst c]).
  apply gen_bind_read; [apply reads_exists|]. intros present _ _.
  destruct present; cbn [negb]; [|apply gen_ret].
  apply gen_seq; [apply gen_make_category_page; exact Hk2|].
  apply gen_bind_read; [apply reads_reading, list_subfolders_respects|].
  intros subs fs Hsubs. apply gen_for_each. intros sub Hsub.
  unfold reading in Hsubs.
  destruct (list_subfolders U (str "assets" :: [str "videos"; fst c]) fs) as [l|e] eqn:El;
    [|discriminate Hsubs].
  injection Hsubs as ->.
  destruct (list_subfolders_children _ _ _ El sub Hsub) as [n ->].
  apply (gen_make_subcategory_page (fst c) (snd c) ([str "videos"; fst c] ++ [n])).
  exact Hk1.
Qed.

(** *** [main] and its first statement *)

Lemma main_with_docs (cats : list (pystr * pystr)) (fs : node) :
  path_exists fs DOCS_DIR = true -> main U cats fs = pages U cats fs.
Proof.
  intros H. unfold main, bind at 1, reading. rewrite H. reflexivity.
Qed.

Lemma pages_need_template (cats : list (pystr * pystr)) (fs : node) (r : unit * node) :
  pages U cats fs = Ok r ->
  exists top, read_text fs (DOCS_DIR // str "_template_top.html") = Ok top.
Proof.
  unfold pages, bind at 1, make_index_page, bind at 1, read_template, reading.
  destruct (read_text fs (DOCS_DIR // str "_template_top.html")) as [top|e];
    [eauto | discriminate].
Qed.

Lemma template_needs_docs (fs : node) (top : pystr) :
  read_text fs (DOCS_DIR // str "_template_top.html") = Ok top ->
  path_exists fs DOCS_DIR = true.
Proof.
  unfold read_text, path_exists, child. rewrite lookup_app.
  destruct (lookup fs DOCS_DIR); [reflexivity | discriminate].
Qed.

Lemma main_needs_docs (cats : list (pystr * pystr)) (fs : node) (r : unit * node) :
  main U cats fs = Ok r -> path_exists fs DOCS_DIR = true.
Proof.
  intros H. destruct (path_exists fs DOCS_DIR) eqn:E; [reflexivity|]. exfalso.
  unfold main, bind at 1, reading in H. rewrite E in H. cbn [negb] in H.
  unfold bind at 1, writing in H.
  destruct (mkdir fs DOCS_DIR) as [fs1|e] eqn:Em; [|discriminate H].
  change (pages U cats fs1 = Ok r) in H.
  destruct (pages_need_template _ _ _ H) as [top Htop].
  destruct (mkdir_result _ _ _ Em) as [_ Hb].
  unfold read_text in Htop. rewrite Hb in Htop by reflexivity.
  unfold path_exists in E. unfold child in Htop. rewrite lookup_app in Htop.
  destruct (lookup fs DOCS_DIR); discriminate.
Qed.

(** A configuration that keeps the templates can be run again: the second
    run succeeds and leaves every file as the first run left it. *)
Lemma main_twice (cats : list (pystr * pystr)) (fs fs1 : node) :
  keeps_templates cats = true ->
  main U cats fs = Ok (tt, fs1) ->
  exists fs2, main U cats fs1 = Ok (tt, fs2)
              /\ forall q, read_text fs2 q = read_text fs1 q.
Proof.
  intros Hk H. pose proof (main_needs_docs _ _ _ H) as Hdocs.
  rewrite main_with_docs in H by exact Hdocs.
  destruct (gen_pages cats Hk fs) as (W & tail & Hsafe & Hrun).
  pose proof (Hrun fs (same_inputs_refl fs)) as H0. rewrite H in H0. symmetry in H0.
  apply run_plan_ok in H0. destruct H0 as [-> HW].
  pose proof (apply_writes_same_inputs _ _ _ HW Hsafe) as Hin.
  destruct (apply_writes_twice _ _ _ HW) as (fs2 & H2 & Hq).
  exists fs2. split; [|exact Hq].
  destruct (pages_need_template _ _ _ H) as [top Htop].
  rewrite main_with_docs.
  - rewrite (Hrun fs1 Hin), run_plan_writes. exact H2.
  - apply (template_needs_docs fs1 top). destruct Hin as [_ Hin].
    rewrite <- Hin; [exact Htop | left; reflexivity].
Qed.

(** C9.  Running the generator a second time, on the file system that
    the first run left, succeeds and leaves every file, and so every
    generated page, with the content it had. *)
Theorem regenerating_changes_nothing (fs fs1 : node) :
  main U CATEGORIES fs = Ok (tt, fs1) ->
  exists fs2, main U CATEGORIES fs1 = Ok (tt, fs2)
              /\ forall q, read_text fs2 q = read_text fs1 q.
Proof. apply main_twice. reflexivity. Qed.

End Builder.
Lemma regenerating_changes_nothing_witness :
  main latin1_db CATEGORIES clash_fs = Ok (tt, clash_site)
  /\ exists fs2, main latin1_db CATEGORIES clash_site = Ok (tt, fs2)
                 /\ forall q, read_text fs2 q = read_text clash_site q.
Proof.
  split; [vm_compute; reflexivity|].
  apply (regenerating_changes_nothing latin1_db clash_fs clash_site).
  vm_compute. reflexivity.
Defined.

(** ** Subfolders whose names have the same slug *)

Lemma same_inputs_sym (a b : node) : same_inputs a b -> same_inputs b a.
Proof.
  intros [H1 H2]. split; [congruence|]. intros n Hn. symmetry. apply H2. exact Hn.
Qed.

Section Collision.

Variable U : unicode_db.

(** A subfolder page that was written is one [write_html], with the same
    content on every file system with the same inputs. *)
Lemma subpage_is_write (cat_slug cat_title : pystr) (rest : path) (fs fs' : node) :
  make_subcategory_page U cat_slug cat_title (str "assets" :: rest) fs = Ok (tt, fs') ->
  (forall n, In n template_names -> exists t, read_text fs (DOCS_DIR // n) = Ok t)
  /\ exists content,
       forall fsx, same_inputs fs fsx ->
         make_subcategory_page U cat_slug cat_title (str "assets" :: rest) fsx
         = write_html (DOCS_DIR // cat_slug
                       // (slug_from_name U (name (str "assets" :: rest)) ++ str ".html"))
                      content fsx.
Proof.
  intros H. unfold make_subcategory_page, bind, read_template, reading in H |- *.
  destruct (read_text fs (DOCS_DIR // str "_template_top.html")) as [top|e] eqn:E1;
    [|discriminate H].
  destruct (read_text fs (DOCS_DIR // str "_template_bottom.html")) as [bottom|e] eqn:E2;
    [|discriminate H].
  destruct (list_video_files U (str "assets" :: rest) fs) as [videos|e] eqn:E3;
    [|discriminate H].
  split.
  - intros n [<-|[<-|[]]]; eauto.
  - eexists. intros fsx Hin.
    pose proof (list_video_files_respects U rest fs fsx Hin) as Hv.
    destruct Hin as [_ Hin].
    rewrite <- (Hin (str "_template_top.html")), E1 by (left; reflexivity).
    cbv beta iota.
    rewrite <- (Hin (str "_template_bottom.html")), E2 by (right; left; reflexivity).
    cbv beta iota. rewrite <- Hv, E3. reflexivity.
Qed.

Lemma second_subpage_overwrites (cat_slug cat_title : pystr) (rest1 rest2 : path)
    (fs fs1 fs2 : node) :
  slug_from_name U (name (str "assets" :: rest1))
  = slug_from_name U (name (str "assets" :: rest2)) ->
  make_subcategory_page U cat_slug cat_title (str "assets" :: rest1) fs = Ok (tt, fs1) ->
  make_subcategory_page U cat_slug cat_title (str "assets" :: rest2) fs1 = Ok (tt, fs2) ->
  exists fs2',
    make_subcategory_page U cat_slug cat_title (str "assets" :: rest2) fs = Ok (tt, fs2')
    /\ read_text fs2 (DOCS_DIR // cat_slug
         // (slug_from_name U (name (str "assets" :: rest1)) ++ str ".html"))
       = read_text fs2' (DOCS_DIR // cat_slug
         // (slug_from_name U (name (str "assets" :: rest2)) ++ str ".html")).
Proof.
  intros Hslug H1 H2.
  destruct (subpage_is_write _ _ _ _ _ H1) as (Htpl & c1 & W1).
  pose proof (W1 fs (same_inputs_refl fs)) as E1. rewrite H1 in E1. symmetry in E1.
  set (out := DOCS_DIR // cat_slug
              // (slug_from_name U (name (str "assets" :: rest1)) ++ str ".html")) in *.
  destruct (write_html_result _ _ _ _ E1) as (_ & _ & Hanc & Hnd).
  assert (Hsafe : safe_path out = true).
  { unfold out, safe_path, DOCS_DIR, child. cbn [app]. rewrite str_eqb_refl. cbn [andb].
    apply negb_true_iff. destruct (in_set cat_slug template_names) eqn:Et; [|reflexivity].
    exfalso. apply existsb_exists in Et. destruct Et as (t & Ht & Heq).
    apply str_eqb_eq in Heq. subst t. destruct (Htpl cat_slug Ht) as [t Hread].
    destruct (Hanc (DOCS_DIR // cat_slug)) as [_ Hnf].
    - apply is_prefix_app.
    - unfold out, child. intros Heq. apply (f_equal (@length _)) in Heq.
      rewrite !length_app in Heq. simpl in Heq. lia.
    - assert (is_file fs (DOCS_DIR // cat_slug) = true) by (apply read_text_is_file; eauto).
      congruence. }
  pose proof (write_html_same_inputs _ _ _ _ E1 Hsafe) as Hin.
  destruct (subpage_is_write _ _ _ _ _ H2) as (_ & c2 & W2).
  pose proof (W2 fs1 (same_inputs_refl fs1)) as E2. rewrite H2 in E2. symmetry in E2.
  rewrite <- Hslug in W2, E2. fold out in W2, E2.
  destruct (write_html_succeeds (DOCS_DIR // cat_slug)
              (slug_from_name U (name (str "assets" :: rest1)) ++ str ".html") c2 fs)
    as [fs2' E2'].
  - intros q Hq. apply (is_prefix_parent _ _
      (slug_from_name U (name (str "assets" :: rest1)) ++ str ".html")) in Hq.
    destruct Hq as [Hq Hne]. apply (Hanc q Hq Hne).
  - exact Hnd.
  - exists fs2'. split.
    + rewrite (W2 fs (same_inputs_sym _ _ Hin)). exact E2'.
    + rewrite <- Hslug.
      destruct (write_html_read _ _ _ _ E2) as (Hr & _).
      destruct (write_html_read _ _ _ _ E2') as (Hr' & _).
      subst out. rewrite Hr, Hr'. reflexivity.
Qed.

(** C10.  [slug_from_name] is not injective: [My Sub] and [my-sub] are
    different names with the same slug.  Two subfolders of one category
    whose names have the same slug are written to the same path, and
    after both pages were written the file holds what the second
    subfolder alone gives.  In the sample category with the folders
    [my-sub] and [My Sub] the lister puts [My Sub] first, the run raises
    nothing, and [docs/plaxis/my-sub.html] ends as the page of [my-sub],
    which differs from the page of [My Sub]. *)
Theorem colliding_slugs_overwrite :
  str "My Sub" <> str "my-sub"
  /\ slug_from_name U (str "My Sub") = slug_from_name U (str "my-sub")
  /\ (forall cat_slug cat_title rest1 rest2 fs fs1 fs2,
        slug_from_name U (name (str "assets" :: rest1))
        = slug_from_name U (name (str "assets" :: rest2)) ->
        make_subcategory_page U cat_slug cat_title (str "assets" :: rest1) fs
        = Ok (tt, fs1) ->
        make_subcategory_page U cat_slug cat_title (str "assets" :: rest2) fs1
        = Ok (tt, fs2) ->
        exists fs2',
          make_subcategory_page U cat_slug cat_title (str "assets" :: rest2) fs
          = Ok (tt, fs2')
          /\ read_text fs2 (DOCS_DIR // cat_slug
               // (slug_from_name U (name (str "assets" :: rest1)) ++ str ".html"))
             = read_text fs2' (DOCS_DIR // cat_slug
               // (slug_from_name U (name (str "assets" :: rest2)) ++ str ".html")))
  /\ list_subfolders U (VIDEOS_ROOT // str "plaxis") clash_fs
     = Ok [VIDEOS_ROOT // str "plaxis" // str "My Sub";
           VIDEOS_ROOT // str "plaxis" // str "my-sub"]
  /\ exists site alone1 alone2,
       main U CATEGORIES clash_fs = Ok (tt, site)
       /\ make_subcategory_page U (str "plaxis") (str "PLAXIS")
            (VIDEOS_ROOT // str "plaxis" // str "My Sub") clash_fs = Ok (tt, alone1)
       /\ make_subcategory_page U (str "plaxis") (str "PLAXIS")
            (VIDEOS_ROOT // str "plaxis" // str "my-sub") clash_fs = Ok (tt, alone2)
       /\ read_text site [str "docs"; str "plaxis"; str "my-sub.html"]
          = read_text alone2 [str "docs"; str "plaxis"; str "my-sub.html"]
       /\ read_text site [str "docs"; str "plaxis"; str "my-sub.html"]
          <> read_text alone1 [str "docs"; str "plaxis"; str "my-sub.html"].
Proof.
  split; [discriminate|]. split; [vm_compute; reflexivity|].
  split; [apply second_subpage_overwrites|].
  split; [vm_compute; reflexivity|].
  eexists. eexists. eexists.
  split; [vm_compute; reflexivity|]. split; [vm_compute; reflexivity|].
  split; [vm_compute; reflexivity|].
  split; [vm_compute; reflexivity|]. vm_compute. discriminate.
Qed.

End Collision.

Lemma colliding_slugs_overwrite_witness :
  exists fs1 fs2,
    make_subcategory_page latin1_db (str "plaxis") (str "PLAXIS")
      (VIDEOS_ROOT // str "plaxis" // str "My Sub") clash_fs = Ok (tt, fs1)
    /\ make_subcategory_page latin1_db (str "plaxis") (str "PLAXIS")
         (VIDEOS_ROOT // str "plaxis" // str "my-sub") fs1 = Ok (tt, fs2)
    /\ exists fs2',
         make_subcategory_page latin1_db (str "plaxis") (str "PLAXIS")
           (VIDEOS_ROOT // str "plaxis" // str "my-sub") clash_fs = Ok (tt, fs2')
         /\ read_text fs2 [str "docs"; str "plaxis"; str "my-sub.html"]
            = read_text fs2' [str "docs"; str "plaxis"; str "my-sub.html"].
Proof.
  eexists. eexists.
  split; [vm_compute; reflexivity|]. split; [vm_compute; reflexivity|].
  destruct (colliding_slugs_overwrite latin1_db) as (_ & _ & H & _).
  eapply (H (str "plaxis") (str "PLAXIS")
            [str "videos"; str "plaxis"; str "My Sub"]
            [str "videos"; str "plaxis"; str "my-sub"] clash_fs).
  - reflexivity.
  - vm_compute. reflexivity.
  - vm_compute. reflexivity.
Defined.

(** * More about the deriver *)

(** ** The hyphen loop in closed form *)

Lemma squeeze_cons_hd (c : char) (a b : pystr) :
  hd_error a = hd_error b -> squeeze a = squeeze b ->
  squeeze (c :: a) = squeeze (c :: b).
Proof.
  intros Hh Hs. destruct a as [|x a], b as [|y b]; try discriminate Hh; [reflexivity|].
  injection Hh as ->. cbn [squeeze] in Hs |- *. fold squeeze in Hs |- *.
  change (squeeze (y :: a) = squeeze (y :: b)) in Hs.
  destruct ((c =? 45) && (y =? 45))%N; [exact Hs | f_equal; exact Hs].
Qed.

Lemma replace_hyphens_step (s : pystr) :
  replace (str "--") (str "-") s =
  match s with
  | [] => []
  | c :: t =>
      match t with
      | d :: t' =>
          if ((45 =? c) && (45 =? d))%N
          then 45%N :: replace (str "--") (str "-") t'
          else c :: replace (str "--") (str "-") t
      | [] => [c]
      end
  end.
Proof.
  unfold replace. destruct s as [|c [|d t']]; [reflexivity| |].
  - cbn. rewrite andb_false_r. reflexivity.
  - change (str "--") with [45%N; 45%N]. change (str "-") with [45%N].
    cbn [replace_from startswith length Nat.sub app].
    rewrite andb_true_r. destruct ((45 =? c)%N && (45 =? d)%N); reflexivity.
Qed.

Lemma squeeze_replace_hyphens (n : nat) (s : pystr) :
  length s <= n ->
  squeeze (replace (str "--") (str "-") s) = squeeze s
  /\ hd_error (replace (str "--") (str "-") s) = hd_error s.
Proof.
  revert s. induction n as [|n IH]; intros s Hn.
  - destruct s; [split; reflexivity | simpl in Hn; lia].
  - rewrite replace_hyphens_step. destruct s as [|c [|d t']]; [split; reflexivity ..|].
    simpl in Hn. destruct (N.eqb_spec 45 c) as [<-|Hc]; cbn [andb].
    + destruct (N.eqb_spec 45 d) as [<-|Hd]; cbn [andb].
      * destruct (IH t') as [H1 H2]; [lia|]. split; [|reflexivity].
        change (squeeze (45%N :: 45%N :: t')) with (squeeze (45%N :: t')).
        apply squeeze_cons_hd; assumption.
      * destruct (IH (d :: t')) as [H1 H2]; [simpl; lia|]. split; [|reflexivity].
        apply squeeze_cons_hd; assumption.
    + destruct (IH (d :: t')) as [H1 H2]; [simpl; lia|]. split; [|reflexivity].
      apply squeeze_cons_hd; assumption.
Qed.

Lemma squeeze_without_runs (s : pystr) :
  str_in (str "--") s = false -> squeeze s = s.
Proof.
  induction s as [|c t IH]; intros H; [reflexivity|].
  cbn [str_in] in H. apply orb_false_iff in H. destruct H as [H1 H2].
  cbn [squeeze]. destruct t as [|d t']; [reflexivity|].
  change (str "--") with [45%N; 45%N] in H1. cbn [startswith] in H1.
  rewrite andb_true_r in H1. rewrite (N.eqb_sym c), (N.eqb_sym d), H1.
  f_equal. apply IH. exact H2.
Qed.

Lemma collapse_is_squeeze (base : pystr) : collapse_hyphens base = squeeze base.
Proof.
  rewrite <- (squeeze_without_runs (collapse_hyphens base)) by apply collapse_hyphens_none.
  funelim (collapse_hyphens base); [|reflexivity].
  match goal with IH : squeeze (collapse_hyphens _) = squeeze _ |- _ => rewrite IH end.
  apply (squeeze_replace_hyphens (length base) base). lia.
Qed.

(** X1.  The loop of [slug_from_name] replaces every run of hyphens by a
    single hyphen and leaves every other character where it is. *)
Theorem hyphen_loop_squeezes (base : pystr) :
  collapse_hyphens base = squeeze base.
Proof.
  funelim (collapse_hyphens base).
  - match goal with IH : collapse_hyphens _ = squeeze _ |- _ => rewrite IH end.
    apply (squeeze_replace_hyphens (length base) base). lia.
  - symmetry. apply squeeze_without_runs. assumption.
Qed.

(** ** The slug of an ASCII name in closed form *)

Lemma squeeze_map (g : char -> char) (s : pystr) :
  (forall c, (g c =? 45)%N = (c =? 45)%N) ->
  squeeze (map g s) = map g (squeeze s).
Proof.
  intros Hg. induction s as [|c t IH]; [reflexivity|].
  destruct t as [|d t']; [reflexivity|].
  change (map g (c :: d :: t')) with (g c :: map g (d :: t')).
  cbn [squeeze]. change (map g (d :: t')) with (g d :: map g t') at 1.
  cbv beta iota. rewrite !Hg. change (g d :: map g t') with (map g (d :: t')).
  destruct ((c =? 45) && (d =? 45))%N; [exact IH|].
  cbn [map]. f_equal. exact IH.
Qed.

Lemma join_map_single (k : char -> char) (f : char -> pystr) (s : pystr) :
  Forall (fun c => f c = [k c]) s -> join [] (map f s) = map k s.
Proof.
  intros Hs. rewrite join_nil. induction Hs as [|c t Hc Ht IH]; simpl.
  - reflexivity.
  - rewrite Hc, IH. reflexivity.
Qed.

Lemma slug_char_of_steps (c : char) :
  is_ascii c = true ->
  ascii_lower
    (if ascii_isalnum (if (c =? 32)%N then 45%N else c)
        || str_in [if (c =? 32)%N then 45%N else c] (str "-_")
     then (if (c =? 32)%N then 45%N else c) else 45%N)
  = slug_char_of c.
Proof.
  intros _. unfold slug_char_of.
  destruct (N.eqb_spec c 32) as [->|_]; [reflexivity|].
  destruct (ascii_isalnum c) eqn:Ea; [reflexivity|]. cbn [orb].
  change (str "-_") with [45%N; 95%N]. cbn [str_in startswith].
  rewrite !andb_true_r, orb_false_r.
  destruct (N.eqb_spec c 45) as [->|_]; [reflexivity|].
  cbn [orb]. destruct (c =? 95)%N; reflexivity.
Qed.

Section SlugClosedForm.

Variable U : unicode_db.

Lemma slug_ascii_closed (n : pystr) :
  Forall (fun c => is_ascii c = true) n ->
  slug_from_name U n =
  match squeeze (map slug_char_of (fst (splitext n))) with
  | [] => str "page"
  | (_ :: _) as r => r
  end.
Proof.
  intros Hn. pose proof (splitext_Forall _ _ Hn) as Hb.
  unfold slug_from_name. set (b := fst (splitext n)) in *.
  change (replace (str " ") (str "-") b) with (replace [32%N] [45%N] b).
  rewrite replace_char.
  set (sp := fun c : char => if (c =? 32)%N then 45%N else c).
  set (k := fun c : char =>
              if ascii_isalnum c || str_in [c] (str "-_") then c else 45%N).
  assert (Hsp : Forall (fun c => is_ascii c = true) (map sp b)).
  { apply Forall_map. eapply Forall_impl; [|exact Hb]. intros c Hc. unfold sp.
    destruct (c =? 32)%N; [reflexivity | exact Hc]. }
  rewrite (join_map_single k).
  2:{ eapply Forall_impl; [|exact Hsp]. intros c Hc. cbv beta.
      rewrite (isalnum_ascii U c Hc). unfold k.
      destruct (ascii_isalnum c || str_in [c] (str "-_")); reflexivity. }
  rewrite collapse_is_squeeze, lower_ascii.
  2:{ rewrite <- collapse_is_squeeze. apply collapse_hyphens_Forall; [reflexivity|].
      apply Forall_map. eapply Forall_impl; [|exact Hsp]. intros c Hc. unfold k.
      destruct (ascii_isalnum c || str_in [c] (str "-_")); [exact Hc | reflexivity]. }
  rewrite <- squeeze_map.
  2:{ intros c. rewrite N.eqb_sym, ascii_lower_hyphen, N.eqb_sym. reflexivity. }
  rewrite !map_map. rewrite (map_ext_in _ slug_char_of); [reflexivity|].
  intros c Hc. apply slug_char_of_steps.
  rewrite Forall_forall in Hb. apply Hb. exact Hc.
Qed.

(** X2.  For a name of ASCII characters the slug is the stem, character by
    character a lower-case letter, a digit or an underscore as it stands
    and a hyphen for anything else, with every run of hyphens squeezed
    to one; and [page] when that is empty. *)
Theorem slug_of_ascii_name (n : pystr) :
  forallb is_ascii n = true ->
  slug_from_name U n =
  match squeeze (map slug_char_of (fst (splitext n))) with
  | [] => str "page"
  | (_ :: _) as r => r
  end.
Proof.
  intros Hn. apply slug_ascii_closed. apply forallb_Forall. exact Hn.
Qed.

End SlugClosedForm.

Lemma slug_of_ascii_name_witness :
  forallb is_ascii (str "Stage 1 (final).MP4") = true
  /\ slug_from_name latin1_db (str "Stage 1 (final).MP4") = str "stage-1-final-".
Proof.
  split; [reflexivity|].
  rewrite (slug_of_ascii_name latin1_db (str "Stage 1 (final).MP4")); reflexivity.
Defined.
(** ** Names that differ in letter case *)

(** A property of ASCII characters that holds for each of the 128. *)
Lemma ascii_forall (P : char -> bool) :
  forallb P (map N.of_nat (seq 0 128)) = true ->
  forall c, is_ascii c = true -> P c = true.
Proof.
  intros H c Hc. rewrite forallb_forall in H. apply H.
  apply in_map_iff. exists (N.to_nat c). split; [apply N2Nat.id|].
  apply in_seq. unfold is_ascii in Hc. apply N.ltb_lt in Hc. lia.
Qed.

Lemma rfind_from_map (g : char -> char) (c : char) (s : pystr) (i best : Z) :
  (forall x, (g x =? c)%N = (x =? c)%N) ->
  rfind_from (map g s) c i best = rfind_from s c i best.
Proof.
  intros Hg. revert i best. induction s as [|x t IH]; intros i best; [reflexivity|].
  cbn [map rfind_from]. rewrite Hg. apply IH.
Qed.

Lemma existsb_map_same {A : Type} (f : A -> bool) (g : A -> A) (l : list A) :
  (forall x, f (g x) = f x) -> existsb f (map g l) = existsb f l.
Proof.
  intros H. induction l as [|x t IH]; simpl; [reflexivity|]. rewrite H, IH. reflexivity.
Qed.

(** [splitext] commutes with a renaming of the characters that keeps the
    dots and the slashes. *)
Lemma splitext_map (g : char -> char) (p : pystr) :
  (forall x, (g x =? extsep)%N = (x =? extsep)%N) ->
  (forall x, (g x =? sep)%N = (x =? sep)%N) ->
  splitext (map g p) = (map g (fst (splitext p)), map g (snd (splitext p))).
Proof.
  intros Hdot Hsep. unfold splitext, rfind, slice.
  rewrite !rfind_from_map by assumption.
  rewrite skipn_map, firstn_map, existsb_map_same.
  2:{ intros x. rewrite Hdot. reflexivity. }
  destruct (_ <? _)%Z; [|reflexivity].
  destruct (existsb _ _); [|reflexivity].
  cbn [fst snd]. rewrite skipn_map, firstn_map. reflexivity.
Qed.

Lemma ascii_lower_eqb (c k : char) :
  (k <? 65)%N = true -> (ascii_lower c =? k)%N = (c =? k)%N.
Proof.
  intros Hk. apply N.ltb_lt in Hk. unfold ascii_lower.
  destruct ((65 <=? c) && (c <=? 90))%N eqn:E; [|reflexivity].
  apply andb_prop in E. destruct E as [E1 E2]. apply N.leb_le in E1, E2.
  transitivity false; [apply N.eqb_neq; lia | symmetry; apply N.eqb_neq; lia].
Qed.

Section LetterCase.

Variable U : unicode_db.

Lemma slug_lowered (n : pystr) :
  Forall (fun c => is_ascii c = true) n ->
  slug_from_name U (map ascii_lower n) = slug_from_name U n.
Proof.
  intros Hn. rewrite !slug_ascii_closed.
  - rewrite splitext_map.
    + cbn [fst]. rewrite map_map, (map_ext_in _ slug_char_of); [reflexivity|].
      intros c Hc.
      pose proof (splitext_Forall _ _ Hn) as Hb. rewrite Forall_forall in Hb.
      apply N.eqb_eq.
      apply (ascii_forall (fun c => (slug_char_of (ascii_lower c) =? slug_char_of c)%N));
        [vm_compute; reflexivity | apply Hb; exact Hc].
    + intros x. apply ascii_lower_eqb. reflexivity.
    + intros x. apply ascii_lower_eqb. reflexivity.
  - exact Hn.
  - apply Forall_map. eapply Forall_impl; [|exact Hn]. intros c Hc.
    apply (ascii_forall (fun c => is_ascii (ascii_lower c))); [vm_compute; reflexivity|].
    exact Hc.
Qed.

(** X3.  [slug_from_name] ignores the case of ASCII letters: two names of
    ASCII characters that are equal after lower-casing have the same slug
    (and, as subfolders of one category, the same page path). *)
Theorem slug_ignores_case (n1 n2 : pystr) :
  forallb is_ascii n1 = true ->
  forallb is_ascii n2 = true ->
  map ascii_lower n1 = map ascii_lower n2 ->
  slug_from_name U n1 = slug_from_name U n2.
Proof.
  intros H1 H2 E. apply forallb_Forall in H1. apply forallb_Forall in H2.
  rewrite <- (slug_lowered n1 H1), <- (slug_lowered n2 H2), E. reflexivity.
Qed.

End LetterCase.

Lemma slug_ignores_case_witness :
  slug_from_name latin1_db (str "Tunnel_A.MP4") = slug_from_name latin1_db (str "tunnel_a.mp4").
Proof.
  apply (slug_ignores_case latin1_db (str "Tunnel_A.MP4") (str "tunnel_a.mp4"));
    reflexivity.
Defined.
(** ** The shape of a title *)

Lemma double_space_cons (c : char) (t : pystr) :
  str_in (str "  ") (c :: t) =
  ((32 =? c)%N && match t with d :: _ => (32 =? d)%N | [] => false end)
  || str_in (str "  ") t.
Proof.
  cbn [str_in]. f_equal. change (str "  ") with [32%N; 32%N]. cbn [startswith].
  destruct t as [|d t']; [reflexivity|]. rewrite andb_true_r. reflexivity.
Qed.

Lemma no_space_no_double (s : pystr) :
  ~ In 32%N s -> str_in (str "  ") s = false.
Proof.
  induction s as [|c t IH]; intros H; [reflexivity|].
  rewrite double_space_cons, IH by (intros Hin; apply H; right; exact Hin).
  destruct (N.eqb_spec 32 c) as [<-|_]; [|reflexivity].
  exfalso. apply H. left. reflexivity.
Qed.

Lemma double_space_app (w t : pystr) :
  ~ In 32%N w -> hd_error t <> Some 32%N -> str_in (str "  ") t = false ->
  str_in (str "  ") (w ++ 32%N :: t) = false.
Proof.
  intros Hw Hh Ht. induction w as [|c w IH]; cbn [app].
  - rewrite double_space_cons, Ht. destruct t as [|d t']; [reflexivity|].
    destruct (N.eqb_spec 32 d) as [<-|_]; [|reflexivity]. elim Hh. reflexivity.
  - rewrite double_space_cons, IH by (intros Hin; apply Hw; right; exact Hin).
    destruct (N.eqb_spec 32 c) as [<-|_]; [|reflexivity].
    exfalso. apply Hw. left. reflexivity.
Qed.

Lemma last_app_cons (w t : pystr) (x d : char) : last (w ++ x :: t) d = last (x :: t) d.
Proof.
  induction w as [|c w IH]; [reflexivity|].
  change ((c :: w) ++ x :: t) with (c :: (w ++ x :: t)).
  cbn [last]. destruct (w ++ x :: t) eqn:E; [destruct w; discriminate E|]. exact IH.
Qed.

Lemma last_Forall (P : char -> Prop) (s : pystr) (d : char) :
  s <> [] -> Forall P s -> P (last s d).
Proof.
  intros Hne Hs. induction Hs as [|c t Hc Ht IH]; [congruence|].
  destruct t as [|c' t']; [exact Hc|]. apply IH. discriminate.
Qed.

Lemma word_char_facts (c : char) :
  is_word_char c = true ->
  c <> 32%N /\ c <> 45%N /\ c <> 95%N /\ is_ascii c = true /\ ascii_isspace c = false.
Proof.
  unfold is_word_char. rewrite !andb_true_iff, !negb_true_iff, !N.eqb_neq.
  intros [[[H1 H2] H3] H4]. repeat split; try assumption.
  intros ->. discriminate H2.
Qed.

(** The words joined by single spaces. *)
Lemma join_words_shape (ws : list pystr) :
  Forall (fun w => w <> [] /\ Forall (fun c => is_word_char c = true) w) ws ->
  Forall (fun c => is_word_char c = true \/ c = 32%N) (join (str " ") ws)
  /\ hd_error (join (str " ") ws) <> Some 32%N
  /\ last (join (str " ") ws) 0%N <> 32%N
  /\ str_in (str "  ") (join (str " ") ws) = false
  /\ (ws <> [] -> join (str " ") ws <> []).
Proof.
  induction 1 as [|w ws [Hne Hw] Hws IH].
  - cbn [join]. split; [constructor|]. split; [discriminate|].
    split; [discriminate|]. split; [reflexivity|]. intros Hn. elim Hn. reflexivity.
  - assert (Hno : ~ In 32%N w).
    { intros Hin. rewrite Forall_forall in Hw. apply Hw in Hin.
      apply word_char_facts in Hin. destruct Hin as [Hin _]. congruence. }
    assert (Hhd : hd_error w <> Some 32%N).
    { destruct w as [|c w']; [congruence|]. intros [= ->]. apply Hno. left. reflexivity. }
    cbn [join]. destruct ws as [|w2 ws2].
    + repeat split.
      * eapply Forall_impl; [|exact Hw]. auto.
      * exact Hhd.
      * pose proof (last_Forall _ w 0%N Hne Hw) as Hl. apply word_char_facts in Hl.
        apply Hl.
      * apply no_space_no_double. exact Hno.
      * intros _. exact Hne.
    + destruct IH as (I1 & I2 & I3 & I4 & I5).
      change (str " ") with [32%N] in *. cbn [app].
      set (t := join [32%N] (w2 :: ws2)) in *.
      assert (Ht : t <> []) by (apply I5; discriminate).
      repeat split.
      * apply Forall_app. split; [eapply Forall_impl; [|exact Hw]; auto|].
        constructor; [right; reflexivity | exact I1].
      * destruct w as [|c w']; [congruence|]. exact Hhd.
      * rewrite last_app_cons. destruct t as [|c t']; [congruence|]. exact I3.
      * apply double_space_app; assumption.
      * intros _. destruct w; discriminate.
Qed.

Section TitleShape.

Variable U : unicode_db.

Lemma split_from_words (P : char -> Prop) (s word : pystr) :
  Forall P s -> Forall P word ->
  Forall (fun c => isspace U c = false) word ->
  Forall (fun w => w <> [] /\ Forall (fun c => P c /\ isspace U c = false) w)
         (split_from U word s).
Proof.
  intros Hs. revert word. induction Hs as [|c t Hc Ht IH]; intros word Hw Hn.
  - cbn [split_from]. destruct word as [|x word']; [constructor|].
    constructor; [|constructor]. split; [discriminate|].
    rewrite Forall_forall in *. intros y Hy. split; auto.
  - cbn [split_from]. destruct (isspace U c) eqn:Ec.
    + destruct word as [|x word'].
      * apply IH; constructor.
      * constructor; [|apply IH; constructor]. split; [discriminate|].
        rewrite Forall_forall in *. intros y Hy. split; auto.
    + apply IH; apply Forall_app; split; try assumption; repeat constructor; assumption.
Qed.

Lemma capitalize_word (w : pystr) :
  w <> [] -> Forall (fun c => is_word_char c = true) w ->
  capitalize U w <> [] /\ Forall (fun c => is_word_char c = true) (capitalize U w).
Proof.
  intros Hne Hw. destruct w as [|c t]; [congruence|].
  pose proof (Forall_inv Hw) as Hc. pose proof (Forall_inv_tail Hw) as Ht.
  cbv beta in Hc.
  assert (Hascii : forall x, is_word_char x = true -> is_ascii x = true).
  { intros x Hx. apply word_char_facts in Hx. apply Hx. }
  unfold capitalize, totitle_full. rewrite (Hascii c Hc).
  rewrite do_lower_ascii by (eapply Forall_impl; [|exact Ht]; exact Hascii).
  cbn [app]. split; [discriminate|]. constructor.
  - pose proof (Hascii c Hc) as Ha.
    pose proof (ascii_forall
      (fun c => implb (is_word_char c) (is_word_char (ascii_upper c)))) as H.
    specialize (H eq_refl c Ha). cbv beta in H. rewrite Hc in H. exact H.
  - apply Forall_map. eapply Forall_impl; [|exact Ht]. intros x Hx.
    pose proof (ascii_forall
      (fun c => implb (is_word_char c) (is_word_char (ascii_lower c)))) as H.
    specialize (H eq_refl x (Hascii x Hx)). cbv beta in H. rewrite Hx in H. exact H.
Qed.

(** X4.  The title of a name of ASCII characters has no hyphen and no
    underscore, no white space but the space, does not begin or end with
    a space and has no two spaces in a row. *)
Theorem title_of_ascii_name (n : pystr) :
  forallb is_ascii n = true ->
  Forall (fun c => is_word_char c = true \/ c = 32%N) (title_from_name U n)
  /\ ~ In 45%N (title_from_name U n)
  /\ ~ In 95%N (title_from_name U n)
  /\ hd_error (title_from_name U n) <> Some 32%N
  /\ last (title_from_name U n) 0%N <> 32%N
  /\ str_in (str "  ") (title_from_name U n) = false.
Proof.
  intros Hn. apply forallb_Forall in Hn.
  pose proof (splitext_Forall _ _ Hn) as Hb.
  unfold title_from_name. set (b := fst (splitext n)) in *.
  change (replace (str "-") (str " ") (replace (str "_") (str " ") b))
    with (replace [45%N] [32%N] (replace [95%N] [32%N] b)).
  rewrite !replace_char, map_map.
  set (m := fun x : char =>
              if ((if (x =? 95)%N then 32%N else x) =? 45)%N then 32%N
              else if (x =? 95)%N then 32%N else x).
  assert (Hm : Forall (fun c => is_ascii c = true /\ c <> 45%N /\ c <> 95%N) (map m b)).
  { apply Forall_map. eapply Forall_impl; [|exact Hb]. intros c Hc. unfold m.
    destruct (N.eqb_spec c 95) as [->|H95]; [repeat split; discriminate|].
    destruct (N.eqb_spec c 45) as [->|H45]; [repeat split; discriminate|].
    repeat split; assumption. }
  assert (Hwords : Forall (fun w => w <> [] /\ Forall (fun c => is_word_char c = true) w)
                     (map (capitalize U) (split U (map m b)))).
  { apply Forall_map.
    pose proof (split_from_words _ (map m b) [] Hm (Forall_nil _) (Forall_nil _)) as Hsp.
    eapply Forall_impl; [|exact Hsp]. intros w [Hne Hw]. apply capitalize_word; [exact Hne|].
    eapply Forall_impl; [|exact Hw]. intros c [(Ha & H45 & H95) Hs].
    unfold is_word_char. unfold isspace in Hs. rewrite Ha in Hs |- *. rewrite Hs.
    apply N.eqb_neq in H45, H95. rewrite H45, H95. reflexivity. }
  destruct (join_words_shape _ Hwords) as (J1 & J2 & J3 & J4 & _).
  assert (Hnot : forall x, x <> 32%N -> is_word_char x = false ->
                           ~ In x (join (str " ") (map (capitalize U) (split U (map m b))))).
  { intros x Hx Hw Hin. rewrite Forall_forall in J1. destruct (J1 x Hin); congruence. }
  repeat split; try assumption.
  - apply Hnot; [discriminate | reflexivity].
  - apply Hnot; [discriminate | reflexivity].
Qed.

End TitleShape.

Lemma title_of_ascii_name_witness :
  forallb is_ascii (str "  crack_propagation--v2 .mp4") = true
  /\ title_from_name latin1_db (str "  crack_propagation--v2 .mp4")
     = str "Crack Propagation V2"
  /\ str_in (str "  ") (title_from_name latin1_db (str "  crack_propagation--v2 .mp4"))
     = false.
Proof.
  split; [reflexivity|]. split; [reflexivity|].
  apply (title_of_ascii_name latin1_db (str "  crack_propagation--v2 .mp4")).
  reflexivity.
Defined.

(** ** Names with the same title *)

Section TitleCase.

Variable U : unicode_db.

Lemma space_or_lower_facts (c : char) :
  is_ascii c = true ->
  is_ascii (space_or_lower c) = true
  /\ ascii_isspace (space_or_lower c) = ascii_isspace c
  /\ (ascii_isspace c = false ->
      ascii_upper (space_or_lower c) = ascii_upper c
      /\ ascii_lower (space_or_lower c) = ascii_lower c).
Proof.
  intros Hc.
  pose proof (ascii_forall (fun c => is_ascii (space_or_lower c)) eq_refl c Hc) as H1.
  pose proof (ascii_forall
                (fun c => Bool.eqb (ascii_isspace (space_or_lower c)) (ascii_isspace c))
                eq_refl c Hc) as H2.
  pose proof (ascii_forall
                (fun c => implb (negb (ascii_isspace c))
                            ((ascii_upper (space_or_lower c) =? ascii_upper c)%N
                             && (ascii_lower (space_or_lower c) =? ascii_lower c)%N))
                eq_refl c Hc) as H3.
  cbv beta in H1, H2, H3. split; [exact H1|]. split; [apply eqb_prop; exact H2|].
  intros Hs. rewrite Hs in H3. cbn [negb implb] in H3.
  apply andb_prop in H3. destruct H3 as [H3 H4].
  apply N.eqb_eq in H3, H4. auto.
Qed.

Lemma capitalize_space_or_lower (w : pystr) :
  Forall (fun c => is_ascii c = true /\ ascii_isspace c = false) w ->
  capitalize U (map space_or_lower w) = capitalize U w.
Proof.
  intros Hw. destruct w as [|c t]; [reflexivity|].
  pose proof (Forall_inv Hw) as [Hc Hs]. pose proof (Forall_inv_tail Hw) as Ht.
  destruct (space_or_lower_facts c Hc) as (A1 & _ & A3). destruct (A3 Hs) as [A4 _].
  cbn [map]. unfold capitalize, totitle_full. rewrite A1, Hc, A4.
  rewrite !do_lower_ascii.
  - f_equal. rewrite map_map. apply map_ext_in. intros x Hx.
    rewrite Forall_forall in Ht. destruct (Ht x Hx) as [Hxa Hxs].
    destruct (space_or_lower_facts x Hxa) as (_ & _ & B3). apply B3. exact Hxs.
  - eapply Forall_impl; [|exact Ht]. intros x [Hx _]. exact Hx.
  - apply Forall_map. eapply Forall_impl; [|exact Ht]. intros x [Hx _].
    apply (space_or_lower_facts x Hx).
Qed.

Lemma split_from_space_or_lower (word s : pystr) :
  Forall (fun c => is_ascii c = true) s ->
  Forall (fun c => is_ascii c = true /\ ascii_isspace c = false) word ->
  map (capitalize U) (split_from U (map space_or_lower word) (map space_or_lower s))
  = map (capitalize U) (split_from U word s).
Proof.
  intros Hs. revert word. induction Hs as [|c t Hc Ht IH]; intros word Hw.
  - cbn [map split_from]. destruct word as [|x word']; [reflexivity|].
    cbn [map]. f_equal. apply (capitalize_space_or_lower (x :: word') Hw).
  - cbn [map split_from]. destruct (space_or_lower_facts c Hc) as (A1 & A2 & _).
    unfold isspace. rewrite A1, Hc, A2.
    destruct (ascii_isspace c) eqn:Es.
    + destruct word as [|x word'].
      * apply (IH [] (Forall_nil _)).
      * cbn [map]. f_equal; [apply (capitalize_space_or_lower (x :: word') Hw)|].
        apply (IH [] (Forall_nil _)).
    + change [space_or_lower c] with (map space_or_lower [c]). rewrite <- map_app. apply IH.
      apply Forall_app. split; [exact Hw|]. constructor; [auto | constructor].
Qed.

Lemma title_by_chars (n : pystr) :
  Forall (fun c => is_ascii c = true) n ->
  title_from_name U n
  = join (str " ") (map (capitalize U) (split U (map title_char_of (fst (splitext n))))).
Proof.
  intros Hn. pose proof (splitext_Forall _ _ Hn) as Hb.
  unfold title_from_name. set (b := fst (splitext n)) in *.
  change (replace (str "-") (str " ") (replace (str "_") (str " ") b))
    with (replace [45%N] [32%N] (replace [95%N] [32%N] b)).
  rewrite !replace_char, map_map.
  set (m := fun x : char =>
              if ((if (x =? 95)%N then 32%N else x) =? 45)%N then 32%N
              else if (x =? 95)%N then 32%N else x).
  f_equal. unfold split.
  transitivity (map (capitalize U)
                  (split_from U (map space_or_lower []) (map space_or_lower (map m b)))).
  - symmetry. apply split_from_space_or_lower; [apply Forall_map | constructor].
    eapply Forall_impl; [|exact Hb]. intros c Hc. unfold m.
    destruct (N.eqb_spec c 95) as [->|H95]; [reflexivity|].
    destruct (N.eqb_spec c 45) as [->|H45]; [reflexivity | exact Hc].
  - cbn [map]. rewrite map_map. do 2 f_equal. apply map_ext. intros c.
    unfold m, space_or_lower, title_char_of.
    destruct (N.eqb_spec c 95) as [->|H95]; [reflexivity|].
    destruct (N.eqb_spec c 45) as [->|H45]; [reflexivity|]. reflexivity.
Qed.

Lemma title_char_of_keeps (c k : char) :
  k = 46%N \/ k = 47%N -> (title_char_of c =? k)%N = (c =? k)%N.
Proof.
  intros Hk. unfold title_char_of.
  destruct (N.eqb_spec c 45) as [->|H45]; [destruct Hk; subst k; reflexivity|].
  destruct (N.eqb_spec c 95) as [->|H95]; [destruct Hk; subst k; reflexivity|].
  cbn [orb]. destruct (ascii_isspace c) eqn:Es.
  - unfold ascii_isspace in Es.
    destruct Hk; subst k; cbn; symmetry; apply N.eqb_neq; intros ->; discriminate Es.
  - apply ascii_lower_eqb. destruct Hk; subst k; reflexivity.
Qed.

(** X5.  [title_from_name] does not tell a hyphen from an underscore or
    from white space, nor a capital letter from a small one: two names of
    ASCII characters that are equal up to these have the same title. *)
Theorem title_ignores_case_and_separators (n1 n2 : pystr) :
  forallb is_ascii n1 = true ->
  forallb is_ascii n2 = true ->
  map title_char_of n1 = map title_char_of n2 ->
  title_from_name U n1 = title_from_name U n2.
Proof.
  intros H1 H2 E. apply forallb_Forall in H1, H2.
  rewrite (title_by_chars n1 H1), (title_by_chars n2 H2).
  assert (Hs : forall n, map title_char_of (fst (splitext n))
                         = fst (splitext (map title_char_of n))).
  { intros n. rewrite splitext_map; [reflexivity| |];
      intros x; apply title_char_of_keeps; auto. }
  rewrite !Hs, E. reflexivity.
Qed.

End TitleCase.

(** * More about the lister *)

(** ** Order, names and kinds of the listed entries *)

Lemma str_ltb_irrefl (a : pystr) : str_ltb a a = false.
Proof.
  destruct (str_ltb a a) eqn:E; [|reflexivity].
  pose proof (str_ltb_asym _ _ E). congruence.
Qed.

Section Stable.

Context {A : Type} (key : A -> pystr).

Lemma insert_by_stable (k : pystr) (x : A) (l : list A) :
  filter (fun y => str_eqb (key y) k) (insert_by key x l)
  = filter (fun y => str_eqb (key y) k) (x :: l).
Proof.
  induction l as [|y t IH]; [reflexivity|].
  cbn [insert_by]. destruct (str_ltb (key y) (key x)) eqn:E; [|reflexivity].
  cbn [filter] in *. rewrite IH.
  destruct (str_eqb (key y) k) eqn:Ey, (str_eqb (key x) k) eqn:Ex; try reflexivity.
  apply str_eqb_eq in Ey, Ex. rewrite Ey, Ex, str_ltb_irrefl in E. discriminate E.
Qed.

Lemma sorted_stable (k : pystr) (l : list A) :
  filter (fun y => str_eqb (key y) k) (sorted key l)
  = filter (fun y => str_eqb (key y) k) l.
Proof.
  induction l as [|x t IH]; [reflexivity|].
  cbn [sorted fold_right]. fold (sorted key t).
  rewrite insert_by_stable. cbn [filter]. rewrite IH. reflexivity.
Qed.

End Stable.

Lemma suffix_shape (n : pystr) :
  suffix [n] = []
  \/ exists stem e, n = stem ++ extsep :: e /\ suffix [n] = extsep :: e
                    /\ stem <> [] /\ e <> [] /\ ~ In extsep e.
Proof.
  unfold suffix, name. cbn [last]. unfold rfind.
  destruct (rfind_from_cases n extsep 0 (-1)) as [[E _]|(k & Hk & E & Hnth & Hn)].
  - rewrite E. left. reflexivity.
  - rewrite E.
    destruct ((0 <? 0 + Z.of_nat k) && (0 + Z.of_nat k <? Z.of_nat (length n) - 1))%Z eqn:B;
      [|left; reflexivity].
    right. apply andb_prop in B. destruct B as [B1 B2].
    apply Z.ltb_lt in B1, B2.
    replace (Z.to_nat (0 + Z.of_nat k)) with k by lia.
    pose proof (firstn_skipn k n) as Hsplit.
    destruct (skipn k n) as [|x e] eqn:Es.
    { exfalso. apply (f_equal (@length _)) in Es. rewrite length_skipn in Es.
      simpl in Es. lia. }
    assert (Hx : x = extsep).
    { rewrite <- Hsplit in Hnth. rewrite nth_error_app2 in Hnth by (rewrite length_firstn; lia).
      rewrite length_firstn in Hnth. replace (k - Nat.min k (length n)) with 0 in Hnth by lia.
      simpl in Hnth. congruence. }
    subst x. exists (firstn k n), e. split; [symmetry; exact Hsplit|].
    split; [reflexivity|]. split.
    + intros H0. apply (f_equal (@length _)) in H0. rewrite length_firstn in H0.
      simpl in H0. lia.
    + assert (He : skipn (S k) n = e).
      { change (S k) with (1 + k). rewrite <- skipn_skipn, Es. reflexivity. }
      rewrite He in Hn. split; [|exact Hn].
      intros ->. apply (f_equal (@length _)) in Es. rewrite length_skipn in Es.
      simpl in Es. lia.
Qed.

Section ListerFacts.

Variable U : unicode_db.

(** A folder that is a regular file passes the test [exists()], and
    [iterdir()] raises. *)
Lemma regular_file_listing (fs : node) (folder : path) :
  is_file fs folder = true ->
  list_video_files U folder fs = Raise NotADirectoryError
  /\ list_subfolders U folder fs = Raise NotADirectoryError.
Proof.
  unfold is_file, list_video_files, list_subfolders, path_exists, iterdir.
  destruct (lookup fs folder) as [[c|es]|]; try discriminate. intros _. split; reflexivity.
Qed.

(** X6.  The listings are stable: among the entries of a folder whose
    names are equal in lower case, the subfolders, and the video files,
    come in the order of the directory. *)
Theorem listings_are_stable (fs : node) (folder : path) (ch : list path) (k : pystr) :
  iterdir fs folder = Ok ch ->
  (exists l, list_subfolders U folder fs = Ok l
             /\ filter (fun d => str_eqb (lower U (name d)) k) l
                = filter (fun d => str_eqb (lower U (name d)) k) (filter (is_dir fs) ch))
  /\ (exists l, list_video_files U folder fs = Ok l
                /\ filter (fun f => str_eqb (lower U (name f)) k) l
                   = filter (fun f => str_eqb (lower U (name f)) k)
                            (filter (is_video U fs) ch)).
Proof.
  intros H. unfold list_subfolders, list_video_files, path_exists. rewrite H.
  unfold iterdir in H. destruct (lookup fs folder) as [[c|es]|]; try discriminate H.
  cbn [negb]. split; eexists; (split; [reflexivity|]);
    apply (sorted_stable (fun x => lower U (name x))).
Qed.

(** X7.  A listed video file is an entry of the folder, a regular file,
    and its name is a non-empty stem followed by a dot and an extension
    without a dot which, in lower case, is one of [VIDEO_EXTS]: names such
    as [.mp4], [clip.] and [mp4] are never listed. *)
Theorem listed_video_names (fs : node) (folder : path) (l : list path) (f : path) :
  list_video_files U folder fs = Ok l -> In f l ->
  is_file fs f = true
  /\ exists stem e,
       f = folder // (stem ++ extsep :: e)
       /\ stem <> [] /\ e <> [] /\ ~ In extsep e
       /\ in_set (lower U (extsep :: e)) VIDEO_EXTS = true.
Proof.
  intros Hl Hin. destruct (lookup fs folder) as [[c|es]|] eqn:E.
  - unfold list_video_files, path_exists, iterdir in Hl. rewrite E in Hl. discriminate Hl.
  - rewrite (list_video_files_names U _ _ _ E) in Hl. injection Hl as <-.
    apply in_map_iff in Hin. destruct Hin as (n & <- & Hn).
    apply sorted_In, filter_In in Hn. destruct Hn as [_ Hn].
    apply andb_prop in Hn. destruct Hn as [Hfile Hext]. split.
    + unfold is_file. rewrite (lookup_child _ _ _ _ E).
      destruct (assoc n es) as [[c|es']|]; try discriminate Hfile. reflexivity.
    + destruct (suffix_shape n) as [Hs|(stem & e & Hn & Hs & H1 & H2 & H3)].
      * rewrite Hs in Hext. discriminate Hext.
      * exists stem, e. rewrite Hs in Hext. subst n. auto.
  - unfold list_video_files, path_exists in Hl. rewrite E in Hl. cbn [negb] in Hl.
    injection Hl as <-. destruct Hin.
Qed.

(** X8.  Both listers return entries of the folder, and no entry is
    listed both as a subfolder and as a video file. *)
Theorem listings_are_disjoint (fs : node) (folder : path) (ds vs : list path) :
  list_subfolders U folder fs = Ok ds ->
  list_video_files U folder fs = Ok vs ->
  (forall p, In p ds -> exists n, p = folder // n /\ is_dir fs p = true)
  /\ (forall p, In p vs -> exists n, p = folder // n /\ is_file fs p = true)
  /\ (forall p, In p ds -> ~ In p vs).
Proof.
  intros Hd Hv.
  assert (Hf : is_file fs folder = false).
  { destruct (is_file fs folder) eqn:E; [|reflexivity].
    destruct (regular_file_listing fs folder E) as [_ H].
    rewrite H in Hd. discriminate Hd. }
  destruct (list_subfolders_total U fs folder Hf) as (ds' & Hd' & Hds).
  destruct (list_video_files_total U fs folder Hf) as (vs' & Hv' & Hvs).
  rewrite Hd in Hd'. rewrite Hv in Hv'. injection Hd' as <-. injection Hv' as <-.
  assert (Hch : forall ch p, iterdir fs folder = Ok ch -> In p ch -> exists n, p = folder // n).
  { intros ch p H Hp. unfold iterdir in H.
    destruct (lookup fs folder) as [[c|es]|]; try discriminate H. injection H as <-.
    apply in_map_iff in Hp. destruct Hp as (e & <- & _). eexists. reflexivity. }
  assert (Hvid : forall p, is_video U fs p = true -> is_file fs p = true).
  { intros p Hp. unfold is_video in Hp. apply andb_prop in Hp. apply Hp. }
  split; [|split].
  - intros p Hp. apply Hds in Hp. destruct Hp as (ch & H1 & H2 & H3).
    destruct (Hch _ _ H1 H2) as (n & ->). eauto.
  - intros p Hp. apply Hvs in Hp. destruct Hp as (ch & H1 & H2 & H3).
    destruct (Hch _ _ H1 H2) as (n & ->). eauto.
  - intros p Hp Hq. apply Hds in Hp. apply Hvs in Hq.
    destruct Hp as (_ & _ & _ & Hp). destruct Hq as (_ & _ & _ & Hq).
    apply Hvid in Hq. unfold is_dir in Hp. unfold is_file in Hq.
    destruct (lookup fs p) as [[c|es]|]; discriminate.
Qed.

End ListerFacts.

(** ** The listing of subfolders, and where the videos of a page are *)

Section Listing.

Variable U : unicode_db.

(** X9.  On an existing folder [list_subfolders] returns the entries
    that are directories: all of them, each as often as the folder lists
    it, in ascending order of the lower-cased name. *)
Theorem list_subfolders_sorted (fs : node) (folder : path) (es : list (pystr * node)) :
  lookup fs folder = Some (Dir es) ->
  exists l,
    list_subfolders U folder fs = Ok l
    /\ (forall d, In d l <->
                  In d (map (fun e => folder // fst e) es) /\ is_dir fs d = true)
    /\ Permutation l (filter (is_dir fs) (map (fun e => folder // fst e) es))
    /\ StronglySorted (key_le (fun x => lower U (name x))) l.
Proof.
  intros H. unfold list_subfolders, path_exists, iterdir. rewrite H. cbn [negb].
  eexists. split; [reflexivity|]. split; [|split].
  - intros d. rewrite sorted_In, filter_In. reflexivity.
  - apply sorted_perm.
  - apply sorted_sorted.
Qed.


End Listing.

(** * More about the page renderer *)

(** ** When [write_html] succeeds, and what it leaves *)

Lemma mkdir_of_file (d : path) (fs : node) :
  is_file fs d = true -> mkdir fs d = Raise FileExistsError.
Proof.
  revert fs. induction d as [|x d IH]; intros fs H; unfold is_file in H.
  - cbn [lookup] in H. destruct fs; [reflexivity | discriminate H].
  - cbn [lookup] in H. destruct fs as [c|es]; [discriminate H|].
    cbn [mkdir]. destruct (assoc x es) as [y|]; [|discriminate H].
    rewrite (IH y); [reflexivity|]. unfold is_file. exact H.
Qed.

Lemma mkdir_below_file (q r : path) (fs : node) :
  is_file fs q = true -> r <> [] -> mkdir fs (q ++ r) = Raise NotADirectoryError.
Proof.
  revert fs. induction q as [|x q IH]; intros fs H Hr; unfold is_file in H.
  - cbn [lookup] in H. destruct fs; [|discriminate H].
    destruct r; [congruence | reflexivity].
  - cbn [lookup] in H. destruct fs as [c|es]; [discriminate H|].
    cbn [app mkdir]. destruct (assoc x es) as [y|]; [|discriminate H].
    rewrite (IH y); [reflexivity | unfold is_file; exact H | exact Hr].
Qed.

Lemma write_text_on_dir (p : path) (c : pystr) (fs : node) :
  is_dir fs p = true -> write_text fs p c = Raise IsADirectoryError.
Proof.
  revert fs. induction p as [|x p IH]; intros fs H; unfold is_dir in H.
  - cbn [lookup] in H. destruct fs; [discriminate H | reflexivity].
  - cbn [lookup] in H. destruct fs as [c0|es]; [discriminate H|].
    cbn [write_text]. destruct (assoc x es) as [y|]; [|discriminate H].
    destruct p as [|x' p'].
    + cbn [lookup] in H. destruct y; [discriminate H | reflexivity].
    + rewrite (IH y); [reflexivity|]. unfold is_dir. exact H.
Qed.

Lemma path_cases (q p : path) :
  q = p \/ (is_prefix q p = true /\ q <> p) \/ is_prefix q p = false.
Proof.
  destruct (is_prefix q p) eqn:E; [|auto].
  destruct (path_eq_dec q p); auto.
Qed.


(** X12.  The exceptions of [write_html]: [FileExistsError] when the
    parent of the page is a regular file, [NotADirectoryError] when a
    higher ancestor is one, and [IsADirectoryError] when the page is a
    directory. *)
Theorem write_html_errors (d : path) (n c : pystr) (fs : node) :
  (is_file fs d = true -> write_html (d // n) c fs = Raise FileExistsError)
  /\ (forall q r, d = q ++ r -> r <> [] -> is_file fs q = true ->
                  write_html (d // n) c fs = Raise NotADirectoryError)
  /\ (is_dir fs (d // n) = true -> write_html (d // n) c fs = Raise IsADirectoryError).
Proof.
  unfold write_html, bind, writing. rewrite parent_child. split; [|split].
  - intros H. rewrite (mkdir_of_file _ _ H). reflexivity.
  - intros q r -> Hr H. rewrite (mkdir_below_file _ _ _ H Hr). reflexivity.
  - intros H.
    assert (Hd : is_dir fs d = true).
    { apply (ancestors_are_dirs fs d (d // n)).
      - apply is_prefix_parent. apply is_prefix_refl.
      - apply (is_prefix_parent d d n). apply is_prefix_refl.
      - unfold is_dir in H. destruct (lookup fs (d // n)); [discriminate | discriminate H]. }
    rewrite (mkdir_existing _ _ Hd), (write_text_on_dir _ _ _ H). reflexivity.
Qed.



(** ** The index page, the page of a subfolder, and runs that stop *)

Lemma docs_prefix_not_file (fs : node) (t : pystr) (q : path) :
  read_text fs (DOCS_DIR // str "_template_top.html") = Ok t ->
  is_prefix q DOCS_DIR = true -> is_file fs q = false.
Proof.
  intros Ht Hq.
  assert (Hd : is_dir fs q = true).
  { apply (ancestors_are_dirs fs q (DOCS_DIR // str "_template_top.html")).
    - apply is_prefix_parent. exact Hq.
    - apply (is_prefix_parent q DOCS_DIR). exact Hq.
    - unfold read_text in Ht.
      destruct (lookup fs (DOCS_DIR // str "_template_top.html"));
        [discriminate | discriminate Ht]. }
  unfold is_dir in Hd. unfold is_file. destruct (lookup fs q) as [[?|?]|]; congruence.
Qed.

Lemma make_index_page_eq (cats : list (pystr * pystr)) (fs : node) (top bottom : pystr) :
  read_text fs (DOCS_DIR // str "_template_top.html") = Ok top ->
  read_text fs (DOCS_DIR // str "_template_bottom.html") = Ok bottom ->
  make_index_page cats fs
  = write_html (DOCS_DIR // str "index.html")
      (top ++ index_body (map index_link
                (filter (fun c => path_exists fs (VIDEOS_ROOT // fst c)) cats)) ++ bottom) fs.
Proof.
  intros Ht Hb. unfold make_index_page, bind, read_template, reading.
  rewrite Ht, Hb. reflexivity.
Qed.

(** X15.  The index page is the top template, the heading, one link per
    configured category whose directory (or file) exists under
    [assets/videos], in the configured order, and the bottom template;
    a category without a directory is left out without an error. *)
Theorem index_page_content (cats : list (pystr * pystr)) (fs : node) (top bottom : pystr) :
  read_text fs (DOCS_DIR // str "_template_top.html") = Ok top ->
  read_text fs (DOCS_DIR // str "_template_bottom.html") = Ok bottom ->
  is_dir fs (DOCS_DIR // str "index.html") = false ->
  exists fs',
    make_index_page cats fs = Ok (tt, fs')
    /\ read_text fs' (DOCS_DIR // str "index.html")
       = Ok (top ++ str "
<h1>GeomechMotion " ++ [8212%N] ++ str " Numerical Modelling Animations</h1>
<p>Select a category to explore animations:</p>

<ul>
    " ++ concat (map (fun c => str "<li><a href=" ++ dq ++ BASE_URL ++ str "/" ++ fst c
                               ++ str ".html" ++ dq ++ str ">" ++ snd c ++ str "</a></li>")
                     (filter (fun c => path_exists fs (VIDEOS_ROOT // fst c)) cats))
    ++ str "
</ul>
" ++ bottom)
    /\ (forall q, q <> DOCS_DIR // str "index.html" -> read_text fs' q = read_text fs q).
Proof.
  intros Ht Hb Hi. rewrite (make_index_page_eq _ _ _ _ Ht Hb).
  destruct (write_html_succeeds DOCS_DIR (str "index.html")
              (top ++ index_body (map index_link
                 (filter (fun c => path_exists fs (VIDEOS_ROOT // fst c)) cats)) ++ bottom) fs)
    as [fs' Hw]; [intros q Hq; eapply docs_prefix_not_file; eassumption | exact Hi |].
  exists fs'. split; [exact Hw|].
  destruct (write_html_read _ _ _ _ Hw) as (R1 & R2 & R3 & _). split.
  - rewrite R1. unfold index_body. rewrite join_nil.
    repeat rewrite <- app_assoc. reflexivity.
  - intros q Hne. destruct (path_cases q (DOCS_DIR // str "index.html")) as [->|[[Hq _]|Hq]].
    + congruence.
    + destruct (R2 q Hq Hne) as [-> _]. symmetry. apply read_text_is_dir.
      apply (ancestors_are_dirs fs q (DOCS_DIR // str "_template_top.html")).
      * apply is_prefix_parent. eapply is_prefix_child; eassumption.
      * apply (is_prefix_parent q DOCS_DIR). eapply is_prefix_child; eassumption.
      * unfold read_text in Ht.
        destruct (lookup fs (DOCS_DIR // str "_template_top.html"));
          [discriminate | discriminate Ht].
    + apply R3. exact Hq.
Qed.

Section Pages.

Variable U : unicode_db.


(** X17.  Without a template the site cannot be generated: [main] raises
    [FileNotFoundError] when [docs/] or one of the two templates in it is
    missing, also after making [docs/] itself. *)
Theorem main_needs_templates (cats : list (pystr * pystr)) (fs : node) :
  is_dir fs [] = true ->
  is_file fs DOCS_DIR = false ->
  lookup fs (DOCS_DIR // str "_template_top.html") = None
  \/ (exists top, read_text fs (DOCS_DIR // str "_template_top.html") = Ok top)
     /\ lookup fs (DOCS_DIR // str "_template_bottom.html") = None ->
  main U cats fs = Raise FileNotFoundError.
Proof.
  intros Hroot Hdocs H.
  destruct (path_exists fs DOCS_DIR) eqn:E.
  - rewrite (main_with_docs U cats fs E).
    unfold pages, bind at 1, make_index_page, bind, read_template, reading, read_text.
    destruct H as [H|[[top Ht] H]].
    + rewrite H. reflexivity.
    + unfold read_text in Ht.
      destruct (lookup fs (DOCS_DIR // str "_template_top.html")) as [[c|es]|];
        try discriminate Ht. rewrite H. reflexivity.
  - destruct H as [H|[[top Ht] _]].
    2:{ apply template_needs_docs in Ht. congruence. }
    unfold main, bind at 1, reading. rewrite E. cbn [negb].
    unfold bind at 1, writing.
    destruct (mkdir_succeeds DOCS_DIR fs) as [fs1 Em].
    { intros q Hq. destruct q as [|x q].
      - unfold is_dir in Hroot. unfold is_file.
        destruct (lookup fs []) as [[?|?]|]; congruence.
      - destruct q as [|y q]; [|cbn in Hq; rewrite andb_false_r in Hq; discriminate Hq].
        cbn in Hq. rewrite andb_true_r in Hq. apply str_eqb_eq in Hq. subst x. exact Hdocs. }
    rewrite Em. destruct (mkdir_result _ _ _ Em) as [_ Hb].
    unfold bind at 1, ret. unfold bind at 1, make_index_page, bind, read_template, reading,
      read_text.
    rewrite Hb by reflexivity. rewrite H. reflexivity.
Qed.

Lemma index_then (cats : list (pystr * pystr)) (fs : node) (top bottom : pystr) :
  read_text fs (DOCS_DIR // str "_template_top.html") = Ok top ->
  read_text fs (DOCS_DIR // str "_template_bottom.html") = Ok bottom ->
  is_dir fs (DOCS_DIR // str "index.html") = false ->
  exists fs1,
    make_index_page cats fs = Ok (tt, fs1)
    /\ read_text fs1 (DOCS_DIR // str "_template_top.html") = Ok top
    /\ read_text fs1 (DOCS_DIR // str "_template_bottom.html") = Ok bottom
    /\ forall q, is_prefix q (DOCS_DIR // str "index.html") = false ->
                 lookup fs1 q = lookup fs q.
Proof.
  intros Ht Hb Hi. rewrite (make_index_page_eq _ _ _ _ Ht Hb).
  match goal with |- context [write_html ?p ?c fs] =>
    destruct (write_html_succeeds DOCS_DIR (str "index.html") c fs) as [fs1 Hw] end;
    [intros q Hq; eapply docs_prefix_not_file; eassumption | exact Hi |].
  exists fs1. split; [exact Hw|].
  destruct (write_html_result _ _ _ _ Hw) as (_ & R2 & _).
  split; [|split; [|exact R2]].
  - eapply write_html_keeps_file; [exact Hw | discriminate | exact Ht].
  - eapply write_html_keeps_file; [exact Hw | discriminate | exact Hb].
Qed.

(** X18.  A category whose path under [assets/videos] is a regular file
    passes the test [exists()] and stops the run: [list_subfolders] and
    [make_category_page] raise [NotADirectoryError], and so does [main],
    after writing the index page, when it is the first category. *)
Theorem regular_file_category_aborts (cats : list (pystr * pystr)) (slug title : pystr)
    (fs : node) (top bottom : pystr) :
  read_text fs (DOCS_DIR // str "_template_top.html") = Ok top ->
  read_text fs (DOCS_DIR // str "_template_bottom.html") = Ok bottom ->
  is_dir fs (DOCS_DIR // str "index.html") = false ->
  is_file fs (VIDEOS_ROOT // slug) = true ->
  list_subfolders U (VIDEOS_ROOT // slug) fs = Raise NotADirectoryError
  /\ list_video_files U (VIDEOS_ROOT // slug) fs = Raise NotADirectoryError
  /\ make_category_page U slug title fs = Raise NotADirectoryError
  /\ main U ((slug, title) :: cats) fs = Raise NotADirectoryError.
Proof.
  intros Ht Hb Hi Hf.
  assert (Hcat : forall fs1 t b,
             read_text fs1 (DOCS_DIR // str "_template_top.html") = Ok t ->
             read_text fs1 (DOCS_DIR // str "_template_bottom.html") = Ok b ->
             is_file fs1 (VIDEOS_ROOT // slug) = true ->
             make_category_page U slug title fs1 = Raise NotADirectoryError).
  { intros fs1 t b H1 H2 H3. unfold make_category_page, bind, read_template, reading.
    rewrite H1, H2. cbv zeta.
    destruct (regular_file_listing U fs1 _ H3) as [_ ->]. reflexivity. }
  destruct (regular_file_listing U fs _ Hf) as [Hv Hs].
  split; [exact Hs|]. split; [exact Hv|]. split; [eapply Hcat; eassumption|].
  rewrite (main_with_docs U _ fs (template_needs_docs _ _ Ht)).
  destruct (index_then ((slug, title) :: cats) fs top bottom Ht Hb Hi)
    as (fs1 & Hidx & Ht1 & Hb1 & Hsame).
  unfold pages, bind at 1. rewrite Hidx. cbn [for_each fst snd]. unfold bind at 1.
  assert (Hf1 : is_file fs1 (VIDEOS_ROOT // slug) = true).
  { unfold is_file. rewrite Hsame by reflexivity. exact Hf. }
  unfold bind at 1, reading.
  assert (He : path_exists fs1 (VIDEOS_ROOT // slug) = true).
  { unfold is_file in Hf1. unfold path_exists.
    destruct (lookup fs1 (VIDEOS_ROOT // slug)); [reflexivity | discriminate Hf1]. }
  rewrite He. cbn [negb]. unfold bind at 1.
  rewrite (Hcat fs1 top bottom Ht1 Hb1 Hf1). reflexivity.
Qed.

End Pages.

(** * More about the site builder *)

(** ** What a run leaves *)

Lemma bind_ok {A B : Type} (m : M A) (k : A -> M B) (fs : node) (r : B * node) :
  bind m k fs = Ok r -> exists a fs1, m fs = Ok (a, fs1) /\ k a fs1 = Ok r.
Proof.
  unfold bind. destruct (m fs) as [[a fs1]|e]; [eauto | discriminate].
Qed.

Lemma written_is_file (p : path) (c : pystr) (fs fs' : node) :
  write_html p c fs = Ok (tt, fs') -> is_file fs' p = true.
Proof.
  intros H. destruct (write_html_result _ _ _ _ H) as (H1 & _).
  unfold is_file. rewrite H1. reflexivity.
Qed.

Lemma apply_writes_outside (W : list (path * pystr)) (fs fs' : node) :
  forallb safe_path (map fst W) = true ->
  apply_writes W fs = Ok (tt, fs') ->
  forall x q, str_eqb x (str "docs") = false -> lookup fs' (x :: q) = lookup fs (x :: q).
Proof.
  revert fs. induction W as [|[p c] W IH]; intros fs Hs H x q Hx.
  - injection H as <-. reflexivity.
  - rewrite apply_writes_cons in H. cbn [map fst forallb] in Hs.
    apply andb_prop in Hs. destruct Hs as [Hp Hs].
    destruct (write_html p c fs) as [[[] fs1]|e] eqn:E; [|discriminate H].
    rewrite (IH fs1 Hs H x q Hx).
    destruct (write_html_result _ _ _ _ E) as (_ & R2 & _). apply R2.
    destruct p as [|d [|n p]]; try discriminate Hp. unfold safe_path in Hp.
    apply andb_prop in Hp. destruct Hp as [Hd _]. apply str_eqb_eq in Hd. subst d.
    cbn [is_prefix]. rewrite Hx. reflexivity.
Qed.

Lemma generator_run (g : M unit) (fs fs' : node) :
  generator g -> g fs = Ok (tt, fs') ->
  exists W, forallb safe_path (map fst W) = true /\ apply_writes W fs = Ok (tt, fs').
Proof.
  intros Hg H. destruct (Hg fs) as (W & tail & Hs & Hr).
  rewrite (Hr fs (same_inputs_refl fs)) in H.
  destruct (run_plan_ok _ _ _ _ H) as [_ Ha]. eauto.
Qed.

Lemma generator_keeps (g : M unit) (fs fs' : node) :
  generator g -> g fs = Ok (tt, fs') ->
  same_inputs fs fs' /\ forall q, is_file fs q = true -> is_file fs' q = true.
Proof.
  intros Hg H. destruct (generator_run _ _ _ Hg H) as (W & Hs & Ha). split.
  - eapply apply_writes_same_inputs; eassumption.
  - intros q Hq. apply read_text_is_file in Hq. destruct Hq as [c0 Hq].
    apply read_text_is_file. eexists. eapply apply_writes_keeps_file; eassumption.
Qed.

Lemma for_each_In {A : Type} (l : list A) (body : A -> M unit) (x : A) (fs fs' : node) :
  (forall y, In y l -> generator (body y)) ->
  In x l ->
  for_each l body fs = Ok (tt, fs') ->
  exists fs1 fs2,
    same_inputs fs fs1 /\ body x fs1 = Ok (tt, fs2)
    /\ forall q, is_file fs2 q = true -> is_file fs' q = true.
Proof.
  revert fs. induction l as [|y t IH]; intros fs Hg Hx H; [destruct Hx|].
  cbn [for_each] in H. apply bind_ok in H. destruct H as ([] & fsa & Hy & Ht).
  destruct Hx as [->|Hx].
  - exists fs, fsa. split; [apply same_inputs_refl|]. split; [exact Hy|].
    apply (generator_keeps (for_each t body)); [|exact Ht].
    apply gen_for_each. intros z Hz. apply Hg. right. exact Hz.
  - destruct (IH fsa) as (fs1 & fs2 & H1 & H2 & H3);
      [intros z Hz; apply Hg; right; exact Hz | exact Hx | exact Ht |].
    exists fs1, fs2. split; [|split; assumption].
    eapply same_inputs_trans; [|exact H1].
    apply (generator_keeps (body y)); [apply Hg; left; reflexivity | exact Hy].
Qed.

Section Run.

Variable U : unicode_db.

Lemma index_page_written (cats : list (pystr * pystr)) (fs fs' : node) :
  make_index_page cats fs = Ok (tt, fs') ->
  is_file fs' (DOCS_DIR // str "index.html") = true.
Proof.
  unfold make_index_page, bind, read_template, reading.
  destruct (read_text fs (DOCS_DIR // str "_template_top.html")); [|discriminate].
  destruct (read_text fs (DOCS_DIR // str "_template_bottom.html")); [|discriminate].
  apply written_is_file.
Qed.

Lemma category_page_written (s t : pystr) (fs fs' : node) :
  make_category_page U s t fs = Ok (tt, fs') ->
  is_file fs' (DOCS_DIR // (s ++ str ".html")) = true.
Proof.
  unfold make_category_page, bind, read_template, reading.
  destruct (read_text fs (DOCS_DIR // str "_template_top.html")); [|discriminate].
  destruct (read_text fs (DOCS_DIR // str "_template_bottom.html")); [|discriminate].
  cbv zeta. destruct (list_subfolders U (VIDEOS_ROOT // s) fs) as [[|sub subs]|e];
    [|unfold ret; apply written_is_file | discriminate].
  destruct (list_video_files U (VIDEOS_ROOT // s) fs) as [vids|e]; [|discriminate].
  unfold ret. apply written_is_file.
Qed.

Lemma subcategory_page_written (s t : pystr) (sub : path) (fs fs' : node) :
  make_subcategory_page U s t sub fs = Ok (tt, fs') ->
  is_file fs' (DOCS_DIR // s // (slug_from_name U (name sub) ++ str ".html")) = true.
Proof.
  unfold make_subcategory_page, bind, read_template, reading.
  destruct (read_text fs (DOCS_DIR // str "_template_top.html")); [|discriminate].
  destruct (read_text fs (DOCS_DIR // str "_template_bottom.html")); [|discriminate].
  cbv zeta. destruct (list_video_files U sub fs) as [vids|e]; [|discriminate].
  apply written_is_file.
Qed.

(** The pages of the subfolders of one category. *)
Lemma gen_subpages (s t : pystr) :
  in_set s template_names = false ->
  generator (subs <- reading (list_subfolders U (VIDEOS_ROOT // s)) ;;
             for_each subs (fun sub => make_subcategory_page U s t sub)).
Proof.
  intros Hk. change (VIDEOS_ROOT // s) with (str "assets" :: [str "videos"; s]).
  apply gen_bind_read; [apply reads_reading, list_subfolders_respects|].
  intros subs fs Hsubs. apply gen_for_each. intros sub Hsub.
  unfold reading in Hsubs.
  destruct (list_subfolders U (str "assets" :: [str "videos"; s]) fs) as [l|e] eqn:El;
    [|discriminate Hsubs].
  injection Hsubs as ->.
  destruct (list_subfolders_children _ _ _ _ El sub Hsub) as [n ->].
  apply (gen_make_subcategory_page U s t ([str "videos"; s] ++ [n])). exact Hk.
Qed.

Lemma pages_turns (cats : list (pystr * pystr)) :
  pages U cats = (make_index_page cats ;; for_each cats (turn U)).
Proof. reflexivity. Qed.

(** One turn of the loop of [main]. *)
Lemma gen_category (c : pystr * pystr) :
  in_set (fst c) template_names = false ->
  in_set (fst c ++ str ".html") template_names = false ->
  generator (turn U c).
Proof.
  intros Hk1 Hk2. unfold turn.
  apply gen_bind_read.
  { change (VIDEOS_ROOT // fst c) with (str "assets" :: [str "videos"; fst c]).
    apply reads_exists. }
  intros present _ _. destruct present; cbn [negb]; [|apply gen_ret].
  apply gen_seq; [apply gen_make_category_page; exact Hk2|].
  apply gen_subpages. exact Hk1.
Qed.

Lemma keeps_templates_In (cats : list (pystr * pystr)) (c : pystr * pystr) :
  keeps_templates cats = true -> In c cats ->
  in_set (fst c) template_names = false
  /\ in_set (fst c ++ str ".html") template_names = false.
Proof.
  intros Hk Hc. unfold keeps_templates in Hk. rewrite forallb_forall in Hk.
  specialize (Hk c Hc). apply andb_prop in Hk. destruct Hk as [Hk1 Hk2].
  apply negb_true_iff in Hk1. apply negb_true_iff in Hk2. auto.
Qed.

(** X19.  A run that succeeds changes nothing outside [docs/]: the media
    tree is as before, as are the two templates; no file is removed or
    replaced by a directory, and no directory is removed. *)
Theorem main_keeps_inputs (cats : list (pystr * pystr)) (fs fs' : node) :
  keeps_templates cats = true ->
  main U cats fs = Ok (tt, fs') ->
  (forall x q, x <> str "docs" -> lookup fs' (x :: q) = lookup fs (x :: q))
  /\ (forall n, In n template_names ->
                read_text fs' (DOCS_DIR // n) = read_text fs (DOCS_DIR // n))
  /\ (forall q, is_file fs q = true -> is_file fs' q = true)
  /\ (forall q, is_dir fs q = true -> is_dir fs' q = true).
Proof.
  intros Hk H.
  rewrite (main_with_docs U cats fs (main_needs_docs U _ _ _ H)) in H.
  destruct (generator_run _ _ _ (gen_pages U cats Hk) H) as (W & Hs & Ha).
  split; [|split; [|split]].
  - intros x q Hx. eapply apply_writes_outside; [exact Hs | exact Ha |].
    apply str_eqb_neq. exact Hx.
  - intros n Hn. symmetry.
    apply (proj2 (apply_writes_same_inputs _ _ _ Ha Hs)). exact Hn.
  - intros q Hq. apply read_text_is_file in Hq. destruct Hq as [c0 Hq].
    apply read_text_is_file. eexists. eapply apply_writes_keeps_file; eassumption.
  - intros q Hq. apply read_text_is_dir. eapply apply_writes_keeps_dir; [exact Ha|].
    apply read_text_is_dir. exact Hq.
Qed.

(** X20.  After a run that succeeds every page that the site links to
    is there: [docs/index.html], the page [docs/slug.html] of every
    configured category that exists under [assets/videos], and the page
    [docs/slug/sub_slug.html] of every subfolder of such a category. *)
Theorem site_is_complete (cats : list (pystr * pystr)) (fs fs' : node) :
  keeps_templates cats = true ->
  main U cats fs = Ok (tt, fs') ->
  is_file fs' (DOCS_DIR // str "index.html") = true
  /\ (forall c, In c cats ->
        path_exists fs (VIDEOS_ROOT // fst c) = true ->
        is_file fs' (DOCS_DIR // (fst c ++ str ".html")) = true)
  /\ (forall c subs sub, In c cats ->
        list_subfolders U (VIDEOS_ROOT // fst c) fs = Ok subs -> In sub subs ->
        is_file fs' (DOCS_DIR // fst c // (slug_from_name U (name sub) ++ str ".html"))
        = true).
Proof.
  intros Hk H.
  rewrite (main_with_docs U cats fs (main_needs_docs U _ _ _ H)) in H.
  rewrite pages_turns in H.
  apply bind_ok in H. destruct H as ([] & fs1 & Hidx & Hloop).
  assert (Hgen : forall y, In y cats -> generator (turn U y)).
  { intros y Hy. destruct (keeps_templates_In _ _ Hk Hy). apply gen_category; assumption. }
  destruct (generator_keeps _ _ _ (gen_make_index_page cats) Hidx) as [Hin1 _].
  (* one turn of the loop, for a category that exists *)
  assert (Hturn : forall c, In c cats ->
            path_exists fs (VIDEOS_ROOT // fst c) = true ->
            exists fs4 fs3,
              same_inputs fs fs4
              /\ is_file fs4 (DOCS_DIR // (fst c ++ str ".html")) = true
              /\ (subs <- reading (list_subfolders U (VIDEOS_ROOT // fst c)) ;;
                  for_each subs (fun sub => make_subcategory_page U (fst c) (snd c) sub)) fs4
                 = Ok (tt, fs3)
              /\ forall q, is_file fs3 q = true -> is_file fs' q = true).
  { intros c Hc He.
    destruct (for_each_In _ _ c _ _ Hgen Hc Hloop) as (fs2 & fs3 & Hin2 & Hbody & Hkeep).
    assert (Hin : same_inputs fs fs2) by (eapply same_inputs_trans; eassumption).
    unfold turn in Hbody.
    apply bind_ok in Hbody. destruct Hbody as (present & fsx & Hp & Hbody).
    unfold reading in Hp. injection Hp as <- <-.
    assert (He2 : path_exists fs2 (VIDEOS_ROOT // fst c) = true).
    { unfold path_exists in *.
      change (VIDEOS_ROOT // fst c) with (str "assets" :: [str "videos"; fst c]) in *.
      rewrite <- (same_inputs_assets _ _ _ Hin). exact He. }
    rewrite He2 in Hbody. cbn [negb] in Hbody.
    apply bind_ok in Hbody. destruct Hbody as ([] & fs4 & Hcat & Hrest).
    destruct (keeps_templates_In _ _ Hk Hc) as [Hk1 Hk2].
    destruct (generator_keeps _ _ _ (gen_make_category_page U _ (snd c) Hk2) Hcat)
      as [Hin4 _].
    exists fs4, fs3. split; [eapply same_inputs_trans; eassumption|].
    split; [eapply category_page_written; exact Hcat|]. split; [exact Hrest | exact Hkeep]. }
  split; [|split].
  - apply (generator_keeps _ _ _ (gen_for_each _ _ Hgen) Hloop).
    eapply index_page_written. exact Hidx.
  - intros c Hc He. destruct (Hturn c Hc He) as (fs4 & fs3 & _ & Hpage & Hrest & Hkeep).
    apply Hkeep. destruct (keeps_templates_In _ _ Hk Hc) as [Hk1 _].
    apply (generator_keeps _ _ _ (gen_subpages (fst c) (snd c) Hk1) Hrest). exact Hpage.
  - intros c subs sub Hc Hsubs Hsub.
    destruct (path_exists fs (VIDEOS_ROOT // fst c)) eqn:He.
    2:{ unfold list_subfolders in Hsubs. rewrite He in Hsubs. cbn [negb] in Hsubs.
        injection Hsubs as <-. destruct Hsub. }
    destruct (Hturn c Hc He) as (fs4 & fs3 & Hin4 & _ & Hrest & Hkeep).
    destruct (keeps_templates_In _ _ Hk Hc) as [Hk1 _].
    apply bind_ok in Hrest. destruct Hrest as (subs' & fsx & Hl & Hrest).
    unfold reading in Hl.
    change (VIDEOS_ROOT // fst c) with (str "assets" :: [str "videos"; fst c]) in *.
    rewrite <- (list_subfolders_respects U _ _ _ Hin4), Hsubs in Hl.
    injection Hl as <- <-.
    destruct (for_each_In subs (fun sub => make_subcategory_page U (fst c) (snd c) sub)
                sub fs4 fs3) as (fs5 & fs6 & _ & Hsubpage & Hkeep6).
    { intros y Hy. destruct (list_subfolders_children U _ _ _ Hsubs y Hy) as [n ->].
      apply (gen_make_subcategory_page U (fst c) (snd c) ([str "videos"; fst c] ++ [n])).
      exact Hk1. }
    { exact Hsub. }
    { exact Hrest. }
    apply Hkeep, Hkeep6. eapply subcategory_page_written. exact Hsubpage.
Qed.

End Run.

(** ** A run writes pages only *)

Lemma wo_ret (P : path -> Prop) : writes_only P (ret tt).
Proof. intros fs fs' [= <-]. repeat split; eauto. Qed.

Lemma wo_write (P : path -> Prop) (p : path) (c : pystr) :
  P p -> writes_only P (write_html p c).
Proof.
  intros Hp fs fs' H.
  destruct (write_html_read _ _ _ _ H) as (R1 & R2 & R3 & _).
  destruct (write_html_result _ _ _ _ H) as (L1 & L2 & _).
  split; [|split; [|split]].
  - intros q c0 Hq. destruct (path_cases q p) as [->|[[Hpre Hne]|Hpre]].
    + right. exact Hp.
    + destruct (R2 q Hpre Hne) as [E _]. congruence.
    + left. rewrite <- (R3 q Hpre). exact Hq.
  - intros q Hq. destruct (path_cases q p) as [->|[[Hpre Hne]|Hpre]].
    + unfold is_dir in Hq. rewrite L1 in Hq. discriminate Hq.
    + right. exists p. auto.
    + left. unfold is_dir in *. rewrite <- (L2 q Hpre). exact Hq.
  - intros q c0 Hq. destruct (path_eq_dec q p) as [->|Hne].
    + exists c. auto.
    + exists c0. split; [|auto]. eapply write_html_keeps_file; eassumption.
  - intros q Hq. apply read_text_is_dir. eapply write_html_keeps_dir; [exact H|].
    apply read_text_is_dir. exact Hq.
Qed.

Lemma wo_seq (P : path -> Prop) (m k : M unit) :
  writes_only P m -> writes_only P k -> writes_only P (m ;; k).
Proof.
  intros Hm Hk fs fs' H. apply bind_ok in H. destruct H as ([] & fs1 & H1 & H2).
  destruct (Hm _ _ H1) as (M1 & M2 & M3 & M4).
  destruct (Hk _ _ H2) as (K1 & K2 & K3 & K4).
  split; [|split; [|split]].
  - intros q c Hq. destruct (K1 q c Hq) as [Hq1|?]; [apply M1; exact Hq1 | auto].
  - intros q Hq. destruct (K2 q Hq) as [Hq1|?]; [apply M2; exact Hq1 | auto].
  - intros q c Hq. destruct (M3 q c Hq) as (c1 & Hq1 & Hc1).
    destruct (K3 q c1 Hq1) as (c2 & Hq2 & Hc2). exists c2. split; [exact Hq2|].
    destruct Hc2 as [->|?]; [exact Hc1 | auto].
  - intros q Hq. apply K4, M4, Hq.
Qed.

Lemma wo_bind_read {A : Type} (P : path -> Prop) (m : M A) (k : A -> M unit) :
  (forall fs a fs', m fs = Ok (a, fs') -> fs' = fs) ->
  (forall a, writes_only P (k a)) ->
  writes_only P (bind m k).
Proof.
  intros Hm Hk fs fs' H. apply bind_ok in H. destruct H as (a & fs1 & H1 & H2).
  rewrite (Hm _ _ _ H1) in H2. apply (Hk a). exact H2.
Qed.

Lemma wo_for_each {A : Type} (P : path -> Prop) (l : list A) (body : A -> M unit) :
  (forall x, In x l -> writes_only P (body x)) -> writes_only P (for_each l body).
Proof.
  induction l as [|x t IH]; intros H; cbn [for_each].
  - apply wo_ret.
  - apply wo_seq; [apply H; left; reflexivity|]. apply IH.
    intros y Hy. apply H. right. exact Hy.
Qed.

Lemma wo_weaken (P Q : path -> Prop) (m : M unit) :
  (forall p, P p -> Q p) -> writes_only P m -> writes_only Q m.
Proof.
  intros HPQ Hm fs fs' H. destruct (Hm _ _ H) as (M1 & M2 & M3 & M4).
  split; [|split; [|split]].
  - intros q c Hq. destruct (M1 q c Hq); auto.
  - intros q Hq. destruct (M2 q Hq) as [?|(p & Hp & Hpre)]; [auto|].
    right. exists p. auto.
  - intros q c Hq. destruct (M3 q c Hq) as (c' & Hq' & [->|?]); eauto.
  - exact M4.
Qed.

Lemma wo_grows (P : path -> Prop) (m : M unit) (fs fs' : node) :
  writes_only P m -> m fs = Ok (tt, fs') -> grows fs fs'.
Proof.
  intros Hm H. destruct (Hm _ _ H) as (_ & _ & M3 & M4). split; [|exact M4].
  intros q Hq. apply read_text_is_file in Hq. destruct Hq as [c Hq].
  destruct (M3 q c Hq) as (c' & Hq' & _). apply read_text_is_file. eauto.
Qed.

Lemma wo_survives (P : path -> Prop) (m : M unit) (fs fs' : node) (p : path) (c : pystr) :
  writes_only P m -> m fs = Ok (tt, fs') -> ~ P p ->
  read_text fs p = Ok c -> read_text fs' p = Ok c.
Proof.
  intros Hm H Hp Hr. destruct (Hm _ _ H) as (_ & _ & M3 & _).
  destruct (M3 p c Hr) as (c' & Hq' & [->|?]); [exact Hq' | contradiction].
Qed.

Lemma reading_state {A : Type} (f : node -> result A) (fs : node) (a : A) (fs' : node) :
  reading f fs = Ok (a, fs') -> fs' = fs.
Proof. unfold reading. destruct (f fs); [intros [= _ <-]; reflexivity | discriminate]. Qed.

Section OnlyPages.

Variable U : unicode_db.

Lemma wo_make_index_page (cats : list (pystr * pystr)) :
  writes_only (fun p => p = DOCS_DIR // str "index.html") (make_index_page cats).
Proof.
  unfold make_index_page, read_template.
  apply wo_bind_read; [apply reading_state|]. intros top.
  apply wo_bind_read; [apply reading_state|]. intros bottom.
  apply wo_bind_read; [apply reading_state|]. intros links.
  apply wo_write. reflexivity.
Qed.

Lemma wo_make_category_page (s t : pystr) :
  writes_only (fun p => p = DOCS_DIR // (s ++ str ".html")) (make_category_page U s t).
Proof.
  unfold make_category_page, read_template.
  apply wo_bind_read; [apply reading_state|]. intros top.
  apply wo_bind_read; [apply reading_state|]. intros bottom. cbv zeta.
  apply wo_bind_read; [apply reading_state|]. intros subs.
  apply wo_bind_read.
  { intros fs a fs' H. destruct subs as [|sub subs].
    - apply bind_ok in H. destruct H as (vids & fs1 & H1 & H2).
      apply reading_state in H1. subst fs1. injection H2 as _ <-. reflexivity.
    - injection H as _ <-. reflexivity. }
  intros body. apply wo_write. reflexivity.
Qed.

Lemma wo_make_subcategory_page (s t : pystr) (sub : path) :
  writes_only (fun p => p = DOCS_DIR // s // (slug_from_name U (name sub) ++ str ".html"))
              (make_subcategory_page U s t sub).
Proof.
  unfold make_subcategory_page, read_template.
  apply wo_bind_read; [apply reading_state|]. intros top.
  apply wo_bind_read; [apply reading_state|]. intros bottom. cbv zeta.
  apply wo_bind_read; [apply reading_state|]. intros vids.
  apply wo_write. reflexivity.
Qed.

(** The pages of the subfolders of a category are in its directory. *)
Lemma wo_subpages (s t : pystr) (subs : list path) :
  writes_only (fun p => exists sub, In sub subs
                 /\ p = DOCS_DIR // s // (slug_from_name U (name sub) ++ str ".html"))
              (for_each subs (fun sub => make_subcategory_page U s t sub)).
Proof.
  apply wo_for_each. intros sub Hsub.
  eapply wo_weaken; [|apply wo_make_subcategory_page].
  intros p ->. eauto.
Qed.

(** One turn of the loop of [main] writes pages of its category. *)
Lemma wo_category (c : pystr * pystr) : writes_only (category_pages c) (turn U c).
Proof.
  unfold turn. apply wo_bind_read; [apply reading_state|]. intros present.
  destruct present; cbn [negb]; [|apply wo_ret].
  apply wo_seq.
  - eapply wo_weaken; [|apply wo_make_category_page]. intros p ->. left. reflexivity.
  - apply wo_bind_read; [apply reading_state|]. intros subs.
    eapply wo_weaken; [|apply wo_subpages]. intros p (sub & _ & ->). right. eauto.
Qed.

(** X21.  A run that succeeds writes pages only: every file it leaves
    is a file that was there, with its content, or the index page, the
    page of a configured category or a page [*.html] in the directory of
    one; and every directory it leaves was there or is the directory of
    a configured category. *)
Theorem main_writes_pages_only (cats : list (pystr * pystr)) (fs fs' : node) :
  main U cats fs = Ok (tt, fs') ->
  (forall q c, read_text fs' q = Ok c ->
     read_text fs q = Ok c
     \/ q = DOCS_DIR // str "index.html"
     \/ exists k, In k cats
          /\ (q = DOCS_DIR // (fst k ++ str ".html")
              \/ exists s, q = DOCS_DIR // fst k // (s ++ str ".html")))
  /\ (forall q, is_dir fs' q = true ->
        is_dir fs q = true \/ exists k, In k cats /\ q = DOCS_DIR // fst k).
Proof.
  intros H. pose proof (main_needs_docs U _ _ _ H) as Hdocs.
  rewrite (main_with_docs U cats fs Hdocs) in H.
  assert (Hwp : writes_only (is_page cats) (pages U cats)).
  { rewrite (pages_turns U). apply wo_seq.
    - eapply wo_weaken; [|apply wo_make_index_page]. intros p ->. left. reflexivity.
    - apply wo_for_each. intros c Hc.
      eapply wo_weaken; [|apply wo_category]. intros p Hp. right. eauto. }
  destruct (Hwp _ _ H) as (W1 & W2 & _). split; [exact W1|].
  intros q Hq. destruct (W2 q Hq) as [?|(p & Hp & Hpre & Hne)]; [auto|].
  assert (Hroot : forall r, is_prefix r DOCS_DIR = true -> is_dir fs r = true).
  { intros r Hr. unfold path_exists in Hdocs.
    destruct (path_eq_dec r DOCS_DIR) as [->|Hrn].
    - pose proof H as H'. unfold pages, bind at 1, make_index_page, bind at 1,
        read_template, reading in H'.
      destruct (read_text fs (DOCS_DIR // str "_template_top.html")) as [top|e] eqn:Et;
        [|discriminate H'].
      apply (ancestors_are_dirs fs DOCS_DIR (DOCS_DIR // str "_template_top.html"));
        [reflexivity | discriminate |].
      unfold read_text in Et.
      destruct (lookup fs (DOCS_DIR // str "_template_top.html"));
        [discriminate | discriminate Et].
    - apply (ancestors_are_dirs fs r DOCS_DIR); [exact Hr | exact Hrn |].
      destruct (lookup fs DOCS_DIR); [discriminate | discriminate Hdocs]. }
  destruct Hp as [->|(k & Hk & [->| [s ->]])].
  - left. apply Hroot. eapply is_prefix_child; eassumption.
  - left. apply Hroot. eapply is_prefix_child; eassumption.
  - destruct (path_eq_dec q (DOCS_DIR // fst k)) as [->|Hqn].
    + right. exists k. auto.
    + left. apply Hroot. eapply is_prefix_child; [|exact Hqn].
      eapply is_prefix_child; eassumption.
Qed.

End OnlyPages.

(** ** When a run succeeds *)







Section Success.

Variable U : unicode_db.





End Success.

(** ** The pages of a run, one by one *)

Lemma grows_refl (fs : node) : grows fs fs.
Proof. split; auto. Qed.

Lemma grows_trans (a b c : node) : grows a b -> grows b c -> grows a c.
Proof. intros [H1 H2] [H3 H4]. split; auto. Qed.

(** A write that succeeds succeeds also on an earlier file system. *)
Lemma write_html_earlier (p : path) (c : pystr) (fs fs2 fs2' : node) :
  grows fs fs2 -> write_html p c fs2 = Ok (tt, fs2') ->
  exists fs', write_html p c fs = Ok (tt, fs').
Proof.
  intros [G1 G2] H. destruct (write_html_nonempty _ _ _ _ H) as (d & n & ->).
  destruct (write_html_result _ _ _ _ H) as (_ & _ & R3 & R4).
  apply write_html_succeeds.
  - intros q Hq. destruct (is_file fs q) eqn:E; [|reflexivity].
    apply G1 in E. destruct (is_prefix_parent _ _ n Hq) as [Q1 Q2].
    destruct (R3 q Q1 Q2) as [_ Hf]. congruence.
  - destruct (is_dir fs (d // n)) eqn:E; [|reflexivity]. apply G2 in E. congruence.
Qed.

Lemma for_each_reach {A : Type} (l : list A) (body : A -> M unit) (x : A) (fs fs' : node) :
  (forall y, In y l -> generator (body y)) ->
  (forall y fsA fsB, In y l -> body y fsA = Ok (tt, fsB) -> grows fsA fsB) ->
  In x l ->
  for_each l body fs = Ok (tt, fs') ->
  exists fs1 fs2, same_inputs fs fs1 /\ grows fs fs1 /\ body x fs1 = Ok (tt, fs2).
Proof.
  revert fs. induction l as [|y t IH]; intros fs Hg Hgr Hx H; [destruct Hx|].
  cbn [for_each] in H. apply bind_ok in H. destruct H as ([] & fsa & Hy & Ht).
  destruct Hx as [->|Hx].
  - exists fs, fsa. split; [apply same_inputs_refl|]. split; [apply grows_refl | exact Hy].
  - destruct (IH fsa) as (fs1 & fs2 & H1 & H2 & H3); [| |exact Hx|exact Ht|].
    + intros z Hz. apply Hg. right. exact Hz.
    + intros z fsA fsB Hz. apply Hgr. right. exact Hz.
    + exists fs1, fs2. split; [|split; [|exact H3]].
      * eapply same_inputs_trans; [|exact H1].
        apply (generator_keeps (body y)); [apply Hg; left; reflexivity | exact Hy].
      * eapply grows_trans; [|exact H2]. eapply Hgr; [left; reflexivity | exact Hy].
Qed.

(** What a loop leaves at [p]: [content], when the turns [K] write it
    there, one of them is taken or it is there before the loop, and the
    other turns do not write at [p]. *)
Lemma loop_leaves {A : Type} (l : list A) (body : A -> M unit) (W : A -> path -> Prop)
    (K : A -> Prop) (p : path) (content : pystr) (fs0 : node) :
  (forall y, In y l -> generator (body y)) ->
  (forall y, In y l -> writes_only (W y) (body y)) ->
  (forall y, In y l -> K y \/ ~ W y p) ->
  (forall y fsA fsB, In y l -> K y -> same_inputs fs0 fsA -> body y fsA = Ok (tt, fsB) ->
                     read_text fsB p = Ok content) ->
  forall fsA fs',
    same_inputs fs0 fsA ->
    for_each l body fsA = Ok (tt, fs') ->
    read_text fsA p = Ok content \/ (exists y, In y l /\ K y) ->
    read_text fs' p = Ok content.
Proof.
  induction l as [|y t IH]; intros Hg Hw Hk Hc fsA fs' Hin H Hor.
  - injection H as <-. destruct Hor as [?|(y & [] & _)]. assumption.
  - cbn [for_each] in H. apply bind_ok in H. destruct H as ([] & fsB & Hy & Ht).
    assert (HinB : same_inputs fs0 fsB).
    { eapply same_inputs_trans; [exact Hin|].
      apply (generator_keeps (body y)); [apply Hg; left; reflexivity | exact Hy]. }
    apply (IH (fun z Hz => Hg z (or_intror Hz)) (fun z Hz => Hw z (or_intror Hz))
              (fun z Hz => Hk z (or_intror Hz))
              (fun z a b Hz => Hc z a b (or_intror Hz)) fsB fs' HinB Ht).
    destruct (Hk y (or_introl eq_refl)) as [Ky|Hny].
    + left. apply (Hc y fsA fsB (or_introl eq_refl) Ky Hin Hy).
    + destruct Hor as [Hr|(z & [<-|Hz] & Kz)].
      * left. apply (wo_survives _ _ _ _ _ _ (Hw y (or_introl eq_refl)) Hy Hny Hr).
      * left. apply (Hc y fsA fsB (or_introl eq_refl) Kz Hin Hy).
      * right. eauto.
Qed.

(** A page maker that is one write, on the file system of a run and on
    the file system at its start. *)
Lemma page_alone (m : M unit) (p : path) (content : pystr) (fs fs2 fs4 : node) :
  (forall fsx, same_inputs fs2 fsx -> m fsx = write_html p content fsx) ->
  same_inputs fs fs2 -> grows fs fs2 ->
  m fs2 = Ok (tt, fs4) ->
  exists fsc, m fs = Ok (tt, fsc) /\ read_text fsc p = Ok content.
Proof.
  intros Hm Hin Hgr H. rewrite (Hm fs2 (same_inputs_refl fs2)) in H.
  destruct (write_html_earlier _ _ _ _ _ Hgr H) as [fsc Hc].
  exists fsc. rewrite (Hm fs (same_inputs_sym _ _ Hin)). split; [exact Hc|].
  apply (write_html_read _ _ _ _ Hc).
Qed.

Lemma NoDup_fst_eq {A B : Type} (l : list (A * B)) (x y : A * B) :
  NoDup (map fst l) -> In x l -> In y l -> fst x = fst y -> x = y.
Proof.
  induction l as [|z t IH]; intros Hnd Hx Hy E; [destruct Hx|].
  cbn [map] in Hnd. inversion Hnd as [|? ? Hnz Hnt]; subst.
  destruct Hx as [->|Hx], Hy as [->|Hy].
  - reflexivity.
  - exfalso. apply Hnz. rewrite E. apply in_map. exact Hy.
  - exfalso. apply Hnz. rewrite <- E. apply in_map. exact Hx.
  - apply IH; assumption.
Qed.

Section Final.

Variable U : unicode_db.

Lemma category_is_write (s t : pystr) (fs fs' : node) :
  make_category_page U s t fs = Ok (tt, fs') ->
  exists content,
    forall fsx, same_inputs fs fsx ->
      make_category_page U s t fsx
      = write_html (DOCS_DIR // (s ++ str ".html")) content fsx.
Proof.
  intros H. unfold make_category_page, bind, read_template, reading in H |- *.
  destruct (read_text fs (DOCS_DIR // str "_template_top.html")) as [top|e] eqn:E1;
    [|discriminate H].
  destruct (read_text fs (DOCS_DIR // str "_template_bottom.html")) as [bottom|e] eqn:E2;
    [|discriminate H].
  cbv zeta in H |- *.
  change (VIDEOS_ROOT // s) with (str "assets" :: [str "videos"; s]) in *.
  destruct (list_subfolders U (str "assets" :: [str "videos"; s]) fs) as [subs|e] eqn:E3;
    [|discriminate H].
  destruct subs as [|sub subs].
  - destruct (list_video_files U (str "assets" :: [str "videos"; s]) fs) as [vids|e] eqn:E4;
      [|discriminate H].
    eexists. intros fsx Hin.
    pose proof (list_subfolders_respects U [str "videos"; s] fs fsx Hin) as Hs.
    pose proof (list_video_files_respects U [str "videos"; s] fs fsx Hin) as Hv.
    destruct Hin as [_ Hin].
    rewrite <- (Hin (str "_template_top.html")), E1 by (left; reflexivity).
    cbv beta iota.
    rewrite <- (Hin (str "_template_bottom.html")), E2 by (right; left; reflexivity).
    cbv beta iota. rewrite <- Hs, E3. cbv beta iota. rewrite <- Hv, E4. reflexivity.
  - eexists. intros fsx Hin.
    pose proof (list_subfolders_respects U [str "videos"; s] fs fsx Hin) as Hs.
    destruct Hin as [_ Hin].
    rewrite <- (Hin (str "_template_top.html")), E1 by (left; reflexivity).
    cbv beta iota.
    rewrite <- (Hin (str "_template_bottom.html")), E2 by (right; left; reflexivity).
    cbv beta iota. rewrite <- Hs, E3. reflexivity.
Qed.

(** A turn for a category that exists. *)
Lemma turn_steps (c : pystr * pystr) (fs0 fsA fsB : node) :
  same_inputs fs0 fsA ->
  path_exists fs0 (VIDEOS_ROOT // fst c) = true ->
  in_set (fst c ++ str ".html") template_names = false ->
  turn U c fsA = Ok (tt, fsB) ->
  exists fsX subs,
    make_category_page U (fst c) (snd c) fsA = Ok (tt, fsX)
    /\ same_inputs fs0 fsX
    /\ list_subfolders U (VIDEOS_ROOT // fst c) fs0 = Ok subs
    /\ for_each subs (fun sub => make_subcategory_page U (fst c) (snd c) sub) fsX
       = Ok (tt, fsB).
Proof.
  intros Hin He Hk H. unfold turn in H.
  apply bind_ok in H. destruct H as (present & fsx & Hp & H).
  unfold reading in Hp. injection Hp as <- <-.
  assert (He2 : path_exists fsA (VIDEOS_ROOT // fst c) = true).
  { unfold path_exists in *.
    change (VIDEOS_ROOT // fst c) with (str "assets" :: [str "videos"; fst c]) in *.
    rewrite <- (same_inputs_assets _ _ _ Hin). exact He. }
  rewrite He2 in H. cbn [negb] in H.
  apply bind_ok in H. destruct H as ([] & fsX & Hcat & H).
  apply bind_ok in H. destruct H as (subs & fsy & Hl & H).
  pose proof (reading_state _ _ _ _ Hl) as ->.
  assert (HinX : same_inputs fs0 fsX).
  { eapply same_inputs_trans; [exact Hin|].
    apply (generator_keeps _ _ _ (gen_make_category_page U _ (snd c) Hk) Hcat). }
  exists fsX, subs. split; [exact Hcat|]. split; [exact HinX|]. split; [|exact H].
  unfold reading in Hl.
  change (VIDEOS_ROOT // fst c) with (str "assets" :: [str "videos"; fst c]) in *.
  rewrite <- (list_subfolders_respects U [str "videos"; fst c] _ _ HinX) in Hl.
  destruct (list_subfolders U (str "assets" :: [str "videos"; fst c]) fs0);
    [injection Hl as <-; reflexivity | discriminate Hl].
Qed.

Lemma html_name_inj (a b : pystr) : a ++ str ".html" = b ++ str ".html" -> a = b.
Proof. apply app_inv_tail. Qed.

(** X23.  With categories of distinct slugs, none of them [index], the
    pages that a run leaves are the pages that their makers write alone
    on the file system at the start of the run: the index page, the page
    of every category that exists, and the page of every subfolder whose
    slug no other subfolder of the category has. *)
Theorem pages_are_as_written_alone (cats : list (pystr * pystr)) (fs fs' : node) :
  keeps_templates cats = true ->
  NoDup (map fst cats) ->
  (forall c, In c cats -> fst c <> str "index") ->
  main U cats fs = Ok (tt, fs') ->
  (exists fsi,
     make_index_page cats fs = Ok (tt, fsi)
     /\ read_text fs' (DOCS_DIR // str "index.html")
        = read_text fsi (DOCS_DIR // str "index.html"))
  /\ (forall c, In c cats ->
        path_exists fs (VIDEOS_ROOT // fst c) = true ->
        exists fsc,
          make_category_page U (fst c) (snd c) fs = Ok (tt, fsc)
          /\ read_text fs' (DOCS_DIR // (fst c ++ str ".html"))
             = read_text fsc (DOCS_DIR // (fst c ++ str ".html")))
  /\ (forall c subs sub, In c cats ->
        list_subfolders U (VIDEOS_ROOT // fst c) fs = Ok subs ->
        In sub subs ->
        (forall sub', In sub' subs ->
           slug_from_name U (name sub') = slug_from_name U (name sub) -> sub' = sub) ->
        exists fss,
          make_subcategory_page U (fst c) (snd c) sub fs = Ok (tt, fss)
          /\ read_text fs' (DOCS_DIR // fst c // (slug_from_name U (name sub) ++ str ".html"))
             = read_text fss
                 (DOCS_DIR // fst c // (slug_from_name U (name sub) ++ str ".html"))).
Proof.
  intros Hk Hnd Hidx H.
  rewrite (main_with_docs U cats fs (main_needs_docs U _ _ _ H)), (pages_turns U) in H.
  apply bind_ok in H. destruct H as ([] & fs1 & Hi & Hloop).
  assert (Hgen : forall y, In y cats -> generator (turn U y)).
  { intros y Hy. destruct (keeps_templates_In _ _ Hk Hy). apply gen_category; assumption. }
  assert (Hwo : forall y, In y cats -> writes_only (category_pages y) (turn U y)).
  { intros y _. apply wo_category. }
  assert (Hgr : forall y fsA fsB, In y cats -> turn U y fsA = Ok (tt, fsB) -> grows fsA fsB).
  { intros y fsA fsB _. apply (wo_grows _ _ _ _ (wo_category U y)). }
  destruct (generator_keeps _ _ _ (gen_make_index_page cats) Hi) as [Hin1 _].
  pose proof (wo_grows _ _ _ _ (wo_make_index_page cats) Hi) as Hgr1.
  (* the subfolders of a category, and their pages *)
  assert (Hsubgen : forall c subs, In c cats ->
            list_subfolders U (VIDEOS_ROOT // fst c) fs = Ok subs ->
            forall y, In y subs ->
              (exists rest, y = str "assets" :: rest)
              /\ generator (make_subcategory_page U (fst c) (snd c) y)).
  { intros c subs Hc Hsubs y Hy.
    change (VIDEOS_ROOT // fst c) with (str "assets" :: [str "videos"; fst c]) in Hsubs.
    destruct (list_subfolders_children U _ _ _ Hsubs y Hy) as [n ->].
    split; [eexists; reflexivity|].
    apply (gen_make_subcategory_page U (fst c) (snd c) ([str "videos"; fst c] ++ [n])).
    apply (keeps_templates_In _ _ Hk Hc). }
  split; [|split].
  - exists fs1. split; [exact Hi|].
    pose proof (index_page_written _ _ _ Hi) as Hf.
    apply read_text_is_file in Hf. destruct Hf as [ci Hci]. rewrite Hci.
    eapply (loop_leaves cats (turn U) category_pages (fun _ => False)
             (DOCS_DIR // str "index.html") ci fs Hgen Hwo); [| |exact Hin1|exact Hloop|auto].
    + intros y Hy. right. intros [E|[s E]]; [|discriminate E].
      injection E as E. apply (Hidx y Hy).
      apply (html_name_inj (fst y) (str "index")). symmetry. exact E.
    + intros y fsA fsB _ [].
  - intros c Hc He.
    destruct (keeps_templates_In _ _ Hk Hc) as [Hk1 Hk2].
    destruct (for_each_reach _ _ c _ _ Hgen Hgr Hc Hloop) as (fs2 & fs3 & Hin2 & Hgr2 & Hb).
    assert (Hin02 : same_inputs fs fs2) by (eapply same_inputs_trans; eassumption).
    destruct (turn_steps c fs fs2 fs3 Hin02 He Hk2 Hb) as (fs4 & subs & Hcat & _).
    destruct (category_is_write _ _ _ _ Hcat) as [content Hw].
    destruct (page_alone _ _ _ fs fs2 fs4 Hw Hin02 (grows_trans _ _ _ Hgr1 Hgr2) Hcat)
      as (fsc & Hc1 & Hc2).
    exists fsc. split; [exact Hc1|]. rewrite Hc2.
    eapply (loop_leaves cats (turn U) category_pages (fun y => y = c)
             (DOCS_DIR // (fst c ++ str ".html")) content fs Hgen Hwo);
      [| |exact Hin1|exact Hloop|right; eauto].
    + intros y Hy. destruct (str_eqb (fst y) (fst c)) eqn:E.
      * left. apply str_eqb_eq in E. apply (NoDup_fst_eq cats); assumption.
      * right. apply str_eqb_neq in E. intros [E'|[s E']]; [|discriminate E'].
        injection E' as E'. apply E. symmetry. apply html_name_inj. exact E'.
    + intros y fsA fsB _ -> HinA HbA.
      destruct (turn_steps c fs fsA fsB HinA He Hk2 HbA) as (fsX & subsA & HcatA & _ & _ & Hs).
      rewrite (Hw fsA (same_inputs_trans _ _ _ (same_inputs_sym _ _ Hin02) HinA)) in HcatA.
      apply (wo_survives _ _ _ _ _ _ (wo_subpages U (fst c) (snd c) subsA) Hs).
      * intros (sub & _ & E). discriminate E.
      * apply (write_html_read _ _ _ _ HcatA).
  - intros c subs sub Hc Hsubs Hsub Huniq.
    destruct (keeps_templates_In _ _ Hk Hc) as [Hk1 Hk2].
    assert (He : path_exists fs (VIDEOS_ROOT // fst c) = true).
    { destruct (path_exists fs (VIDEOS_ROOT // fst c)) eqn:E; [reflexivity|].
      unfold list_subfolders in Hsubs. rewrite E in Hsubs. cbn [negb] in Hsubs.
      injection Hsubs as <-. destruct Hsub. }
    destruct (Hsubgen c subs Hc Hsubs sub Hsub) as [[rest Hrest] _].
    assert (Hgin : forall y, In y subs ->
              generator (make_subcategory_page U (fst c) (snd c) y)).
    { intros y Hy. apply (Hsubgen c subs Hc Hsubs y Hy). }
    assert (Hgrin : forall y fsA fsB, In y subs ->
              make_subcategory_page U (fst c) (snd c) y fsA = Ok (tt, fsB) -> grows fsA fsB).
    { intros y fsA fsB _. apply (wo_grows _ _ _ _ (wo_make_subcategory_page U _ _ y)). }
    destruct (for_each_reach _ _ c _ _ Hgen Hgr Hc Hloop) as (fs2 & fs3 & Hin2 & Hgr2 & Hb).
    assert (Hin02 : same_inputs fs fs2) by (eapply same_inputs_trans; eassumption).
    destruct (turn_steps c fs fs2 fs3 Hin02 He Hk2 Hb)
      as (fs4 & subs' & Hcat & Hin04 & Hsubs' & Hinner).
    rewrite Hsubs in Hsubs'. injection Hsubs' as <-.
    pose proof (wo_grows _ _ _ _ (wo_make_category_page U _ _) Hcat) as Hgr4.
    destruct (for_each_reach _ _ sub _ _ Hgin Hgrin Hsub Hinner)
      as (fs5 & fs6 & Hin5 & Hgr5 & Hpage).
    assert (Hin05 : same_inputs fs fs5) by (eapply same_inputs_trans; eassumption).
    subst sub.
    destruct (subpage_is_write U _ _ _ _ _ Hpage) as (_ & content & Hw).
    destruct (page_alone _ _ _ fs fs5 fs6 Hw Hin05) as (fss & Hs1 & Hs2);
      [|exact Hpage|].
    { eapply grows_trans; [exact Hgr1|]. eapply grows_trans; [exact Hgr2|].
      eapply grows_trans; eassumption. }
    exists fss. split; [exact Hs1|]. rewrite Hs2.
    set (ps := DOCS_DIR // fst c
               // (slug_from_name U (name (str "assets" :: rest)) ++ str ".html")) in *.
    eapply (loop_leaves cats (turn U) category_pages (fun y => y = c) ps content fs Hgen Hwo);
      [| |exact Hin1|exact Hloop|right; eauto].
    + intros y Hy. destruct (str_eqb (fst y) (fst c)) eqn:E.
      * left. apply str_eqb_eq in E. apply (NoDup_fst_eq cats); assumption.
      * right. apply str_eqb_neq in E. intros [E'|[s E']]; [discriminate E'|].
        injection E' as E' _. apply E. symmetry. exact E'.
    + intros y fsA fsB _ -> HinA HbA.
      destruct (turn_steps c fs fsA fsB HinA He Hk2 HbA)
        as (fsX & subsA & _ & HinX & HsubsA & Hs).
      rewrite Hsubs in HsubsA. injection HsubsA as <-.
      eapply (loop_leaves subs (fun y => make_subcategory_page U (fst c) (snd c) y)
               (fun y p => p = DOCS_DIR // fst c
                               // (slug_from_name U (name y) ++ str ".html"))
               (fun y => y = str "assets" :: rest) ps content fs Hgin);
        [| | |exact HinX|exact Hs|right; eauto].
      * intros y _. apply wo_make_subcategory_page.
      * intros y Hy. destruct (path_eq_dec y (str "assets" :: rest)) as [->|Hne]; [auto|].
        right. intros E'. apply Hne. apply Huniq; [exact Hy|].
        injection E' as E'. symmetry. apply html_name_inj. exact E'.
      * intros y fsC fsD _ -> HinC Hy.
        rewrite (Hw fsC (same_inputs_trans _ _ _ (same_inputs_sym _ _ Hin05) HinC)) in Hy.
        apply (write_html_read _ _ _ _ Hy).
Qed.

End Final.

(** * The theorems above at sample inputs *)

Lemma title_ignores_case_and_separators_witness :
  title_from_name latin1_db (str "TUNNEL_excavation-2.mp4")
  = title_from_name latin1_db (str "tunnel excavation_2.MP4").
Proof.
  apply (title_ignores_case_and_separators latin1_db); reflexivity.
Defined.

Lemma listings_are_stable_witness :
  exists l,
    list_video_files latin1_db (VIDEOS_ROOT // str "plaxis" // str "Dam") mixed_fs = Ok l
    /\ filter (fun f => str_eqb (lower latin1_db (name f)) (str "run.mp4")) l
       = [VIDEOS_ROOT // str "plaxis" // str "Dam" // str "Run.MP4";
          VIDEOS_ROOT // str "plaxis" // str "Dam" // str "run.mp4"].
Proof.
  destruct (listings_are_stable latin1_db mixed_fs
              (VIDEOS_ROOT // str "plaxis" // str "Dam") _ (str "run.mp4") eq_refl)
    as [_ (l & Hl & Hf)].
  exists l. split; [exact Hl|]. rewrite Hf. reflexivity.
Defined.

Lemma listed_video_names_witness :
  In (VIDEOS_ROOT // str "plaxis" // str "Dam" // str "run.mp4")
     [VIDEOS_ROOT // str "plaxis" // str "Dam" // str "Run.MP4";
      VIDEOS_ROOT // str "plaxis" // str "Dam" // str "run.mp4"]
  /\ is_file mixed_fs (VIDEOS_ROOT // str "plaxis" // str "Dam" // str "run.mp4") = true.
Proof.
  assert (Hin : In (VIDEOS_ROOT // str "plaxis" // str "Dam" // str "run.mp4")
                   [VIDEOS_ROOT // str "plaxis" // str "Dam" // str "Run.MP4";
                    VIDEOS_ROOT // str "plaxis" // str "Dam" // str "run.mp4"])
    by (right; left; reflexivity).
  split; [exact Hin|].
  apply (listed_video_names latin1_db mixed_fs (VIDEOS_ROOT // str "plaxis" // str "Dam")
           _ _ eq_refl Hin).
Defined.

Lemma listings_are_disjoint_witness :
  exists n, VIDEOS_ROOT // str "plaxis" // str "Dam" = VIDEOS_ROOT // str "plaxis" // n
            /\ is_dir mixed_fs (VIDEOS_ROOT // str "plaxis" // str "Dam") = true.
Proof.
  apply (proj1 (listings_are_disjoint latin1_db mixed_fs (VIDEOS_ROOT // str "plaxis")
                  [VIDEOS_ROOT // str "plaxis" // str "Dam"]
                  [VIDEOS_ROOT // str "plaxis" // str "intro.mp4"] eq_refl eq_refl)).
  left. reflexivity.
Defined.

Lemma list_subfolders_sorted_witness :
  exists l,
    list_subfolders latin1_db (VIDEOS_ROOT // str "plaxis") clash_fs = Ok l
    /\ StronglySorted (key_le (fun x => lower latin1_db (name x))) l.
Proof.
  destruct (list_subfolders_sorted latin1_db clash_fs (VIDEOS_ROOT // str "plaxis") _ eq_refl)
    as (l & Hl & _ & _ & Hs).
  exists l. split; assumption.
Defined.



Lemma write_html_errors_witness :
  write_html ([str "clips"; str "B.mp4"] // str "a.html") (str "<p>") media_fs
  = Raise FileExistsError
  /\ write_html ([str "clips"; str "B.mp4"; str "x"] // str "a.html") (str "<p>") media_fs
     = Raise NotADirectoryError
  /\ write_html ([] // str "clips") (str "<p>") media_fs = Raise IsADirectoryError.
Proof.
  split; [|split].
  - apply (proj1 (write_html_errors [str "clips"; str "B.mp4"] (str "a.html") (str "<p>")
                    media_fs)). reflexivity.
  - apply (proj1 (proj2 (write_html_errors [str "clips"; str "B.mp4"; str "x"]
                           (str "a.html") (str "<p>") media_fs))
             [str "clips"; str "B.mp4"] [str "x"]); [reflexivity | discriminate | reflexivity].
  - apply (proj2 (proj2 (write_html_errors [] (str "clips") (str "<p>") media_fs))).
    reflexivity.
Defined.



Lemma index_page_content_witness :
  exists fs',
    make_index_page CATEGORIES mixed_fs = Ok (tt, fs')
    /\ forall q, q <> DOCS_DIR // str "index.html" -> read_text fs' q = read_text mixed_fs q.
Proof.
  destruct (index_page_content CATEGORIES mixed_fs (str "<html>") (str "</html>")
              eq_refl eq_refl eq_refl) as (fs' & H1 & _ & H3).
  exists fs'. split; assumption.
Defined.


Lemma main_needs_templates_witness :
  main latin1_db CATEGORIES media_fs = Raise FileNotFoundError.
Proof.
  apply (main_needs_templates latin1_db CATEGORIES media_fs);
    [reflexivity | reflexivity | left; reflexivity].
Defined.

Lemma regular_file_category_aborts_witness :
  main latin1_db [(str "plaxis", str "PLAXIS"); (str "undergraduate", str "Undergraduate")]
    broken_fs
  = Raise NotADirectoryError.
Proof.
  apply (regular_file_category_aborts latin1_db
           [(str "undergraduate", str "Undergraduate")] (str "plaxis") (str "PLAXIS")
           broken_fs (str "<html>") (str "</html>")); reflexivity.
Defined.

Lemma main_keeps_inputs_witness :
  lookup clash_site [str "assets"] = lookup clash_fs [str "assets"].
Proof.
  assert (H : main latin1_db CATEGORIES clash_fs = Ok (tt, clash_site))
    by (vm_compute; reflexivity).
  apply (proj1 (main_keeps_inputs latin1_db CATEGORIES clash_fs clash_site eq_refl H)).
  discriminate.
Defined.

Lemma site_is_complete_witness :
  is_file clash_site (DOCS_DIR // str "index.html") = true
  /\ is_file clash_site (DOCS_DIR // str "plaxis.html") = true.
Proof.
  assert (H : main latin1_db CATEGORIES clash_fs = Ok (tt, clash_site))
    by (vm_compute; reflexivity).
  destruct (site_is_complete latin1_db CATEGORIES clash_fs clash_site eq_refl H)
    as (H1 & H2 & _).
  split; [exact H1|].
  apply (H2 (str "plaxis", str "PLAXIS")); [right; left; reflexivity | reflexivity].
Defined.

Lemma main_writes_pages_only_witness :
  is_dir clash_fs (DOCS_DIR // str "plaxis") = true
  \/ exists k, In k CATEGORIES /\ DOCS_DIR // str "plaxis" = DOCS_DIR // fst k.
Proof.
  assert (H : main latin1_db CATEGORIES clash_fs = Ok (tt, clash_site))
    by (vm_compute; reflexivity).
  apply (proj2 (main_writes_pages_only latin1_db CATEGORIES clash_fs clash_site H)).
  reflexivity.
Defined.


Lemma pages_are_as_written_alone_witness :
  exists fs' fsi fss,
    main latin1_db CATEGORIES mixed_fs = Ok (tt, fs')
    /\ make_index_page CATEGORIES mixed_fs = Ok (tt, fsi)
    /\ read_text fs' (DOCS_DIR // str "index.html")
       = read_text fsi (DOCS_DIR // str "index.html")
    /\ make_subcategory_page latin1_db (str "plaxis") (str "PLAXIS")
         (VIDEOS_ROOT // str "plaxis" // str "Dam") mixed_fs = Ok (tt, fss)
    /\ read_text fs' (DOCS_DIR // str "plaxis" // str "dam.html")
       = read_text fss (DOCS_DIR // str "plaxis" // str "dam.html").
Proof.
  destruct (main latin1_db CATEGORIES mixed_fs) as [[[] fs']|e] eqn:E;
    [|vm_compute in E; discriminate E].
  assert (Hnd : NoDup (map fst CATEGORIES)).
  { repeat constructor; cbn; intuition discriminate. }
  assert (Hidx : forall c, In c CATEGORIES -> fst c <> str "index").
  { intros c [<-|[<-|[<-|[]]]]; discriminate. }
  destruct (pages_are_as_written_alone latin1_db CATEGORIES mixed_fs fs' eq_refl Hnd Hidx E)
    as ((fsi & I1 & I2) & _ & H3).
  destruct (H3 (str "plaxis", str "PLAXIS") [VIDEOS_ROOT // str "plaxis" // str "Dam"]
              (VIDEOS_ROOT // str "plaxis" // str "Dam")) as (fss & S1 & S2).
  - right. left. reflexivity.
  - reflexivity.
  - left. reflexivity.
  - intros sub' [<-|[]] _. reflexivity.
  - exists fs', fsi, fss. split; [reflexivity|]. split; [exact I1|]. split; [exact I2|].
    split; [exact S1 | exact S2].
Defined.
